(** * Ticket dashboard: aggregation and reconciliation core

    A shallow embedding of the JavaScript aggregation code of the ticket
    dashboard (server routes and React memo computations) together with the
    properties of its natural-language specification.

    Conventions of the embedding.
    - A JavaScript string is a [string] of code units below 256.
    - A finite JavaScript number is an exact rational [Q]; a value of type
      [num] is [Some q] for a finite number and [None] for a non finite one
      (NaN, or an infinity where the source only asks [Number.isFinite]).
      The durations and their averages are computed on exact rationals,
      without the rounding of binary64 arithmetic; the duration formatter
      is also given on binary64 numbers ([Binary64]) and compared with the
      exact one.  Where a result is rounded to two decimals ([toFixed2],
      [diffInHours]) the binary64 quotient decides the digit, and the
      rounding of binary64 is modelled ([round64]).
    - An optional field ([undefined], [null], missing) is an [option]; the
      empty string is falsy like in the source.
    - A plain object used as a dictionary is a [gmap] over its own keys, a
      [Set] is a [gset]; keys are assumed not to collide with the names
      inherited from [Object.prototype]. *)

From Stdlib Require Import ZArith QArith Qround Qabs Qpower String Ascii List Lia Bool Lqa.
From Stdlib Require DecimalString.
From Stdlib Require Floats Uint63.
From stdpp Require Import gmap strings list fin_maps sorting.

Set Warnings "-clear-no-such-hyp".

Local Open Scope Z_scope.

(** ** JavaScript primitives used by the dashboard *)

Module Js.

Definition code (c : ascii) : N := N_of_ascii c.

Definition is_digit (c : ascii) : bool :=
  ((48 <=? code c) && (code c <=? 57))%N.

(** [\s] of a regular expression and the white space of [trim], for code
    units below 256. *)
Definition is_space (c : ascii) : bool :=
  (((9 <=? code c) && (code c <=? 13)) || (code c =? 32) || (code c =? 160))%N.

Definition lower_char (c : ascii) : ascii :=
  if (((65 <=? code c) && (code c <=? 90))
      || ((192 <=? code c) && (code c <=? 222) && negb (code c =? 215)))%N
  then ascii_of_N (code c + 32) else c.

(** [s.toLowerCase()] *)
Fixpoint toLowerCase (s : string) : string :=
  match s with
  | EmptyString => EmptyString
  | String c r => String (lower_char c) (toLowerCase r)
  end.

Fixpoint rev_acc (s acc : string) : string :=
  match s with
  | EmptyString => acc
  | String c r => rev_acc r (String c acc)
  end.

Definition rev (s : string) : string := rev_acc s EmptyString.

Fixpoint trimStart (s : string) : string :=
  match s with
  | String c r => if is_space c then trimStart r else s
  | EmptyString => EmptyString
  end.

(** [s.trim()] *)
Definition trim (s : string) : string := rev (trimStart (rev (trimStart s))).

(** Truthiness of a string value. *)
Definition truthy (s : string) : bool :=
  match s with EmptyString => false | _ => true end.

(** [a || b] on optional strings: the first truthy operand, else [b]. *)
Definition or_str (a : option string) (b : string) : string :=
  match a with
  | Some s => if truthy s then s else b
  | None => b
  end.

(** [a || b] where both operands may be missing. *)
Definition or_opt (a b : option string) : option string :=
  match a with
  | Some s => if truthy s then a else b
  | None => b
  end.

Fixpoint startsWith (s p : string) : bool :=
  match p, s with
  | EmptyString, _ => true
  | String a p', String b s' => if Ascii.eqb a b then startsWith s' p' else false
  | String _ _, EmptyString => false
  end.

(** [s.includes(p)] *)
Fixpoint includes (s p : string) : bool :=
  startsWith s p ||
  match s with
  | EmptyString => false
  | String _ r => includes r p
  end.

(** [s.split(sep)] for a one character separator. *)
Fixpoint split_go (sep : ascii) (s cur : string) : list string :=
  match s with
  | EmptyString => [rev cur]
  | String c r =>
      if Ascii.eqb c sep then rev cur :: split_go sep r EmptyString
      else split_go sep r (String c cur)
  end.

Definition split (sep : ascii) (s : string) : list string :=
  split_go sep s EmptyString.

(** [s.split(/\s+/)]: the pieces between maximal runs of white space. *)
Fixpoint split_ws_go (s cur : string) (in_gap : bool) : list string :=
  match s with
  | EmptyString => [rev cur]
  | String c r =>
      if is_space c then
        if in_gap then split_ws_go r cur true
        else rev cur :: split_ws_go r EmptyString true
      else split_ws_go r (String c cur) false
  end.

Definition split_ws (s : string) : list string :=
  match s with
  | EmptyString => [EmptyString]
  | _ => split_ws_go s EmptyString false
  end.

(** Longest prefix of [s] made of characters satisfying [p], and the rest. *)
Fixpoint span (p : ascii -> bool) (s : string) : string * string :=
  match s with
  | String c r =>
      if p c then let '(a, b) := span p r in (String c a, b)
      else (EmptyString, s)
  | EmptyString => (EmptyString, EmptyString)
  end.

(** All the characters of [s] satisfy [p]. *)
Fixpoint all_chars (p : ascii -> bool) (s : string) : bool :=
  match s with
  | EmptyString => true
  | String c r => p c && all_chars p r
  end.

Definition not_space (c : ascii) : bool := negb (is_space c).

Definition digit_val (c : ascii) : Z := Z.of_N (code c) - 48.

Fixpoint digits_acc (s : string) (acc : Z) : Z :=
  match s with
  | EmptyString => acc
  | String c r => digits_acc r (acc * 10 + digit_val c)
  end.

(** Value of a string of decimal digits. *)
Definition digits_val (s : string) : Z := digits_acc s 0.

Definition slen (s : string) : Z := Z.of_nat (String.length s).

(** A finite number, or [None] when the result is not finite. *)
Definition num : Type := option Q.

Definition pow10 (e : Z) : Q :=
  if 0 <=? e then inject_Z (10 ^ e) else / inject_Z (10 ^ (- e)).

(** An unsigned decimal literal at the start of [s]
    ([digits[.digits][e[+-]digits]] or [.digits[e..]]): its value and the
    text that follows it. *)
Definition decimal_prefix (s : string) : option (Q * string) :=
  let '(ip, r1) := span is_digit s in
  let '(fp, r2) :=
    match r1 with
    | String "." r => let '(f, r') := span is_digit r in (f, r')
    | _ => (EmptyString, r1)
    end in
  if truthy ip || truthy fp then
    let mant := (inject_Z (digits_val ip)
                 + inject_Z (digits_val fp) * pow10 (- slen fp))%Q in
    let with_exp (neg : bool) (r : string) :=
      let '(ds, r3) := span is_digit r in
      if truthy ds
      then Some ((mant * pow10 (if neg then - digits_val ds else digits_val ds))%Q, r3)
      else Some (mant, r2) in
    match r2 with
    | String e r =>
        if Ascii.eqb e "e" || Ascii.eqb e "E" then
          match r with
          | String "+" r' => with_exp false r'
          | String "-" r' => with_exp true r'
          | _ => with_exp false r
          end
        else Some (mant, r2)
    | EmptyString => Some (mant, r2)
    end
  else None.

Definition signed_prefix (s : string) : option (Q * string) :=
  match s with
  | String "+" r => decimal_prefix r
  | String "-" r =>
      match decimal_prefix r with
      | Some (q, r') => Some ((- q)%Q, r')
      | None => None
      end
  | _ => decimal_prefix s
  end.

Definition radix_digit (radix : Z) (c : ascii) : option Z :=
  let n := Z.of_N (code (lower_char c)) in
  let v := if is_digit c then n - 48
           else if (97 <=? n) && (n <=? 102) then n - 87 else 99 in
  if v <? radix then Some v else None.

Fixpoint radix_acc (radix : Z) (s : string) (acc : Z) : option Z :=
  match s with
  | EmptyString => Some acc
  | String c r =>
      match radix_digit radix c with
      | Some v => radix_acc radix r (acc * radix + v)
      | None => None
      end
  end.

Definition radix_literal (radix : Z) (s : string) : num :=
  match s with
  | EmptyString => None
  | _ => match radix_acc radix s 0 with
         | Some v => Some (inject_Z v)
         | None => None
         end
  end.

(** [Number(s)] for a string [s]. *)
Definition Number (s : string) : num :=
  match trim s with
  | EmptyString => Some 0%Q
  | String "0" (String x r) as t =>
      if Ascii.eqb x "x" || Ascii.eqb x "X" then radix_literal 16 r
      else if Ascii.eqb x "o" || Ascii.eqb x "O" then radix_literal 8 r
      else if Ascii.eqb x "b" || Ascii.eqb x "B" then radix_literal 2 r
      else match signed_prefix t with
           | Some (q, EmptyString) => Some q
           | _ => None
           end
  | t => match signed_prefix t with
         | Some (q, EmptyString) => Some q
         | _ => None
         end
  end.

(** [parseFloat(s)]: the longest decimal literal after leading white space. *)
Definition parseFloat (s : string) : num :=
  match signed_prefix (trimStart s) with
  | Some (q, _) => Some q
  | None => None
  end.

(** [x || 0] on a number: zero and NaN are falsy. *)
Definition or0 (x : num) : Q :=
  match x with
  | Some q => q
  | None => 0%Q
  end.

Definition isFinite (x : num) : bool :=
  match x with Some _ => true | None => false end.

(** [Math.floor] and [Math.round] (halves go up). *)
Definition floor (q : Q) : Z := Qfloor q.
Definition round (q : Q) : Z := Qfloor (q + (1 # 2))%Q.
Definition ceil (q : Q) : Z := Qceiling q.

(** The integer nearest to [x], the even one at a tie. *)
Definition nearest_even (x : Q) : Z :=
  let f := Qfloor x in
  match Qcompare (x - inject_Z f) (1 # 2) with
  | Lt => f
  | Gt => f + 1
  | Eq => if Z.even f then f else f + 1
  end.

(** [floor (log2 q)] for a positive [q]. *)
Definition log2_floor (q : Q) : Z :=
  let k := Z.log2 (Qnum q) - Z.log2 (Zpos (Qden q)) in
  if Qle_bool (2 ^ k) q then k else k - 1.

(** The binary64 number nearest to [q]: a significand of 53 bits and the
    exponent that brackets [q], a tie going to the even significand.  The
    exponent range of binary64 is not modelled: the numbers rounded here
    are differences of time values in milliseconds, their quotients by
    constants and multiples of 1/100, far from overflow and underflow. *)
Definition round64 (q : Q) : Q :=
  let q := Qred q in
  if Qeq_bool q 0 then 0%Q
  else
    let a := Qabs q in
    let e := log2_floor a - 52 in
    let m := Qred (inject_Z (nearest_even (a / 2 ^ e)) * 2 ^ e) in
    if Qle_bool 0 q then m else (- m)%Q.

(** The decimal number that [x.toFixed(2)] prints for a binary64 number
    [x] below [10^21] in absolute value: the multiple of 1/100 nearest to
    [x], the one away from zero at a tie. *)
Definition hundredths (x : Q) : Q :=
  if Qle_bool 0 x then (inject_Z (round (x * 100)) / 100)%Q
  else (- (inject_Z (round (- x * 100)) / 100))%Q.

(** [+x.toFixed(2)] where [x] is the binary64 result of the division [q]
    that the caller writes: the quotient is rounded to binary64, printed
    with two decimals, and the text is read back as a binary64 number. *)
Definition toFixed2 (q : Q) : Q := round64 (hundredths (round64 q)).

(** Decimal text of an integer, as [String(n)] prints it. *)
Definition string_of_Z (z : Z) : string :=
  match z with
  | Zneg p => String "-" (DecimalString.NilZero.string_of_uint (Pos.to_uint p))
  | _ => DecimalString.NilZero.string_of_uint (N.to_uint (Z.to_N z))
  end.

Fixpoint repeat_char (c : ascii) (n : nat) : string :=
  match n with
  | O => EmptyString
  | S k => String c (repeat_char c k)
  end.

(** [s.padStart(n, c)] for a one character filler. *)
Definition padStart (n : nat) (c : ascii) (s : string) : string :=
  String.append (repeat_char c (n - String.length s)) s.

End Js.

(** ** A backtracking matcher for the regular expressions of the source

    The three patterns of [parseZohoDurationToHours] are sequences of
    greedily quantified character classes, one optional group and capture
    groups.  [exec] follows the backtracking order of a JavaScript regular
    expression: greedy quantifiers try the longest repetition first, and a
    search tries every start position from the left. *)

Module Regex.

Inductive re : Type :=
| Eps
| Cls (p : ascii -> bool) (lo : nat) (hi : option nat)
| Seq (r1 r2 : re)
| Opt (r : re)
| Grp (i : nat) (r : re).

(** Captured text per group number; the most recent binding comes first. *)
Definition caps : Type := list (nat * string).

Fixpoint run_length (p : ascii -> bool) (s : string) (bound : option nat) : nat :=
  match bound with
  | Some O => O
  | _ =>
      match s with
      | String c r =>
          if p c
          then S (run_length p r (match bound with
                                  | Some (S b) => Some b
                                  | _ => bound
                                  end))
          else O
      | EmptyString => O
      end
  end.

Fixpoint drop (n : nat) (s : string) : string :=
  match n, s with
  | S k, String _ r => drop k r
  | _, _ => s
  end.

Fixpoint take (n : nat) (s : string) : string :=
  match n, s with
  | S k, String c r => String c (take k r)
  | _, _ => EmptyString
  end.

(** Try [k] after [lo + extra], [lo + extra - 1], ..., [lo] repetitions. *)
Fixpoint try_down {A} (lo extra : nat) (k : nat -> option A) : option A :=
  match k (lo + extra)%nat with
  | Some x => Some x
  | None =>
      match extra with
      | O => None
      | S e => try_down lo e k
      end
  end.

Fixpoint exec {A} (r : re) (s : string) (cs : caps)
         (k : string -> caps -> option A) : option A :=
  match r with
  | Eps => k s cs
  | Cls p lo hi =>
      let n := run_length p s hi in
      if (n <? lo)%nat then None
      else try_down lo (n - lo) (fun j => k (drop j s) cs)
  | Seq r1 r2 => exec r1 s cs (fun s' cs' => exec r2 s' cs' k)
  | Opt r1 =>
      match exec r1 s cs k with
      | Some x => Some x
      | None => k s cs
      end
  | Grp i r1 =>
      exec r1 s cs
           (fun s' cs' =>
              k s' ((i, take (String.length s - String.length s') s) :: cs'))
  end.

Definition match_here (r : re) (s : string) : option caps :=
  exec r s [] (fun _ cs => Some cs).

(** [s.match(r)] without the global flag: the captures of the leftmost
    match, if any. *)
Fixpoint search (r : re) (s : string) : option caps :=
  match match_here r s with
  | Some cs => Some cs
  | None =>
      match s with
      | String _ t => search r t
      | EmptyString => None
      end
  end.

(** [m[i]] of a match with captures [cs]. *)
Fixpoint group (i : nat) (cs : caps) : option string :=
  match cs with
  | [] => None
  | (j, v) :: t => if (i =? j)%nat then Some v else group i t
  end.

Definition chr (c : ascii) : re := Cls (Ascii.eqb c) 1 (Some 1%nat).
Definition digit_plus : re := Cls Js.is_digit 1 None.
Definition digit_n (lo hi : nat) : re := Cls Js.is_digit lo (Some hi).
Definition space_star : re := Cls Js.is_space 0 None.
Definition space_plus : re := Cls Js.is_space 1 None.

Fixpoint lit (s : string) : re :=
  match s with
  | EmptyString => Eps
  | String c r => Seq (chr c) (lit r)
  end.

Fixpoint seq (rs : list re) : re :=
  match rs with
  | [] => Eps
  | r :: t => Seq r (seq t)
  end.

End Regex.

(** ** Duration normalizer *)

Module Duration.
Import Regex.

(** [/(\d+)\s*days?\s+(\d{1,2}):(\d{2})\s*hrs?/] *)
Definition re_days : re :=
  seq [Grp 1 digit_plus; space_star; lit "day"; Opt (chr "s"); space_plus;
       Grp 2 (digit_n 1 2); chr ":"; Grp 3 (digit_n 2 2); space_star;
       lit "hr"; Opt (chr "s")].

(** [/(\d{1,2}):(\d{2})\s*hrs?/] *)
Definition re_hm : re :=
  seq [Grp 1 (digit_n 1 2); chr ":"; Grp 2 (digit_n 2 2); space_star;
       lit "hr"; Opt (chr "s")].

(** [/(\d+(\.\d+)?)/] *)
Definition re_number : re :=
  Grp 1 (Seq digit_plus (Opt (Grp 2 (Seq (chr ".") digit_plus)))).

(** [+m[i] || 0] *)
Definition cap_num (i : nat) (cs : caps) : Q :=
  match group i cs with
  | Some v => Js.or0 (Js.Number v)
  | None => 0%Q
  end.

(** [parseZohoDurationToHours(str)]; [None] is a missing or non string
    field. *)
Definition parseZohoDurationToHours (str : option string) : Q :=
  match str with
  | None => 0%Q
  | Some EmptyString => 0%Q
  | Some str =>
      let s := Js.toLowerCase (Js.trim str) in
      match search re_days s with
      | Some m =>
          let days := cap_num 1 m in
          let hours := cap_num 2 m in
          let minutes := cap_num 3 m in
          (days * 24 + hours + minutes / 60)%Q
      | None =>
          match search re_hm s with
          | Some m => (cap_num 1 m + cap_num 2 m / 60)%Q
          | None =>
              match search re_number s with
              | Some m =>
                  match group 1 m with
                  | Some v => Js.or0 (Js.parseFloat v)
                  | None => 0%Q
                  end
              | None => 0%Q
              end
          end
      end
  end.

(** [formatHoursToText(hrs)] *)
Definition formatHoursToText (hrs : Q) : string :=
  if Qle_bool hrs 0 then "0:00"%string
  else
    let h := Js.floor hrs in
    let m := Js.padStart 2 "0"
               (Js.string_of_Z (Js.round ((hrs - inject_Z (Js.floor hrs)) * 60)%Q)) in
    String.append (Js.string_of_Z h) (String ":" m).

(** [toMinutes(txt)] of the charts; [None] is a missing or non string
    value. *)
Definition toMinutes (txt : option string) : Q :=
  match txt with
  | None => 0%Q
  | Some EmptyString => 0%Q
  | Some txt =>
      let parts := List.map Js.Number (Js.split ":" txt) in
      match parts with
      | Some h :: Some m :: _ => (h * 60 + m)%Q
      | _ => 0%Q
      end
  end.

End Duration.

(** ** The duration formatter on binary64 numbers

    [formatHoursToText] evaluated with the double precision arithmetic of
    the runtime, for a finite argument below [2^52]. *)

Module Binary64.
Import Floats.

Definition of_Z (z : Z) : float := PrimFloat.of_uint63 (Uint63.of_Z z).

Definition two52 : float := of_Z (2 ^ 52).

(** [Math.floor(x)] for [0 <= x < 2^52]: adding and removing [2^52] rounds
    to an integer, which is corrected when it lies above [x]. *)
Definition floor (x : float) : float :=
  let r := ((x + two52) - two52)%float in
  if PrimFloat.ltb x r then (r - 1)%float else r.

(** [Math.round(x)] for [0 <= x < 2^52]: halves go up. *)
Definition round (x : float) : float :=
  let f := floor x in
  if PrimFloat.leb (of_Z 1 / of_Z 2)%float (x - f)%float then (f + 1)%float else f.

(** The integer an integral non negative number stands for. *)
Definition to_Z (x : float) : Z :=
  match FloatOps.Prim2SF x with
  | SpecFloat.S754_finite false m e =>
      if 0 <=? e then Zpos m * 2 ^ e else Zpos m / 2 ^ (- e)
  | _ => 0
  end.

(** The rational a finite number stands for. *)
Definition to_Q (x : float) : Q :=
  match FloatOps.Prim2SF x with
  | SpecFloat.S754_finite s m e =>
      let v := (inject_Z (Zpos m) * 2 ^ e)%Q in
      if s then (- v)%Q else v
  | _ => 0%Q
  end.

Definition formatHoursToText (hrs : float) : string :=
  if negb (PrimFloat.ltb (of_Z 0) hrs) then "0:00"%string
  else
    let h := floor hrs in
    let m := Js.padStart 2 "0"
               (Js.string_of_Z (to_Z (round ((hrs - floor hrs) * of_Z 60)%float))) in
    String.append (Js.string_of_Z (to_Z h)) (String ":" m).

End Binary64.

(** ** Status normalizer *)

Module Status.

(** [statusMap] of the server. *)
Definition statusMap : gmap string string :=
  list_to_map
    [("open", "open"); ("on hold", "hold"); ("hold", "hold");
     ("closed", "closed"); ("in progress", "inProgress");
     ("escalated", "escalated"); ("unassigned", "unassigned");
     ("", "unassigned")]%string.

(** The keys of [statusMap]. *)
Definition knownKeys : list string :=
  ["open"; "on hold"; "hold"; "closed"; "in progress"; "escalated";
   "unassigned"; ""]%string.

(** [(ticket.status || "").toLowerCase()] *)
Definition rawStatus (status : option string) : string :=
  Js.toLowerCase (Js.or_str status "").

(** [statusMap[rawStatus] || "unassigned"], the normalization of the aging
    accumulation and of the department counters. *)
Definition normalizedStatus (status : option string) : string :=
  Js.or_str (statusMap !! rawStatus status) "unassigned".

(** [statusMap[rawStatus] || rawStatus], the normalization of the per status
    age filters of a member row. *)
Definition normalized (status : option string) : string :=
  Js.or_str (statusMap !! rawStatus status) (rawStatus status).

(** [RESOLVED_STATUSES] of the server, [resolvedSet] of the charts. *)
Definition RESOLVED_STATUSES : gset string :=
  {[ "resolved"; "closed"; "archived"; "completed" ]}%string.

Definition isResolvedLike (status : string) : bool :=
  bool_decide (status ∈ RESOLVED_STATUSES).

End Status.

(** ** Tickets as the helpdesk API returns them *)

Module Ticket.

(** A timestamp field after [new Date(field)]: missing or empty (falsy),
    present but not a date ([getTime()] is NaN), or an instant in
    milliseconds. *)
Inductive timeField : Type :=
| Absent
| Invalid
| At (ms : Z).

(** [a || b] on timestamp fields. *)
Definition or_time (a b : timeField) : timeField :=
  match a with
  | Absent => b
  | _ => a
  end.

Record assignee : Type := {
  displayName : option string;
  fullName : option string;
  name : option string;
  email : option string;
}.

Record ticket : Type := {
  id : string;
  ticketNumber : option string;
  status : option string;
  createdTime : timeField;
  closedTime : timeField;
  lastModifiedTime : timeField;
  assigneeId : option string;
  assigneeObj : option assignee;
  assigneeName : option string;
  departmentId : option string;
  subject : option string;
}.

(** [String(t.ticketNumber || t.id || "")] *)
Definition ticketKey (t : ticket) : string :=
  Js.or_str (Js.or_opt (ticketNumber t) (Some (id t))) "".

End Ticket.

(** ** Ticket reconciler: archived rows merged with closed active rows *)

Module Reconcile.
Import Ticket.

Inductive source : Type := archived | activeClosed.

(** An entry of [departmentList]. *)
Record department : Type := {
  d_id : string;
  d_name : string;
}.

(** The row built by [mapTicket]. *)
Record row : Type := {
  r_id : string;
  r_ticketNumber : string;
  r_status : string;
  r_agentId : string;
  r_agentName : string;
  r_departmentId : string;
  r_departmentName : string;
  r_subject : string;
  r_createdTime : timeField;
  r_closedTime : timeField;
  r_resolutionTimeHours : option Q;
  r_source : source;
}.

(** [String(x)] of an optional field. *)
Definition String_of (x : option string) : string :=
  match x with
  | Some v => v
  | None => "undefined"
  end.

(** [diffInHours(start, end)]: the difference of the two time values and
    its quotient by the milliseconds of an hour are binary64 numbers. *)
Definition diffInHours (start stop : timeField) : option Q :=
  match start, stop with
  | At s, At e =>
      let ms := Js.round64 (inject_Z (e - s)) in
      Some (Js.toFixed2 (ms / inject_Z (1000 * 60 * 60))%Q)
  | _, _ => None
  end.

Section MapTicket.

(** The configured departments and the agent names learned from the
    assignee route. *)
Variable departmentList : list department.
Variable agentIdToName : gmap string string.

Definition mapTicket (src : source) (t : ticket) : row :=
  let dept :=
    List.find (fun d => String.eqb (d_id d) (String_of (departmentId t)))
              departmentList in
  let assigneeIdStr := Js.or_str (assigneeId t) "" in
  let a := default {| displayName := None; fullName := None; name := None;
                      email := None |} (assigneeObj t) in
  let agentName :=
    Js.or_str
      (Js.or_opt (agentIdToName !! assigneeIdStr)
         (Js.or_opt (displayName a)
            (Js.or_opt (fullName a)
               (Js.or_opt (name a) (Js.or_opt (email a) (assigneeName t))))))
      "Unassigned" in
  let created := createdTime t in
  let closed := or_time (closedTime t) (lastModifiedTime t) in
  {| r_id := id t;
     r_ticketNumber := Js.or_str (ticketNumber t) (id t);
     r_status := Js.or_str (status t) "closed";
     r_agentId := assigneeIdStr;
     r_agentName := agentName;
     r_departmentId := Js.or_str (departmentId t) "";
     r_departmentName := Js.or_str (d_name <$> dept) "";
     r_subject := Js.or_str (subject t) "";
     r_createdTime := created;
     r_closedTime := closed;
     r_resolutionTimeHours := diffInHours created closed;
     r_source := src |}.

Definition archivedRows (archivedTickets : list ticket) : list row :=
  List.map (mapTicket archived) archivedTickets.

Definition activeClosedRows (activeClosedTickets : list ticket) : list row :=
  List.map (mapTicket activeClosed) activeClosedTickets.

End MapTicket.

(** The [filter] callback with its [seen] set threaded through the rows. *)
Fixpoint dedupe (seen : gset string) (rows : list row) : list row :=
  match rows with
  | [] => []
  | r :: rest =>
      if bool_decide (r_id r ∈ seen) then dedupe seen rest
      else r :: dedupe ({[ r_id r ]} ∪ seen) rest
  end.

(** [allRows] right after the merge and dedupe step; the two inputs are the
    archived and the active tickets that the route has already restricted
    to the closed ones. *)
Definition allRows (departmentList : list department)
           (agentIdToName : gmap string string)
           (archivedTickets activeClosedTickets : list ticket) : list row :=
  dedupe ∅ (archivedRows departmentList agentIdToName archivedTickets
            ++ activeClosedRows departmentList agentIdToName activeClosedTickets).

(** The ids of a list of rows, in order. *)
Definition ids (rows : list row) : list string := List.map r_id rows.

End Reconcile.

(** ** Aging bucketer: [userDeptAgingCounts] of the assignee route *)

Module Aging.
Import Ticket.

(** The number properties and the array properties of one
    [userDeptAgingCounts[assigneeId][deptId]] object. *)
Record agingCounts : Type := {
  counts : gmap string nat;
  lists : gmap string (list string);
}.

Definition statusKeys : list string :=
  ["open"; "hold"; "inProgress"; "escalated"]%string.

Definition coarseNames : list string :=
  ["BetweenOneAndFifteenDays"; "BetweenSixteenAndThirtyDays";
   "OlderThanThirtyDays"]%string.

Definition fineNames : list string :=
  ["BetweenOneAndSevenDays"; "BetweenEightAndFifteenDays";
   "OlderThanFifteenDays"]%string.

Definition countKey (st bucket : string) : string :=
  String.append st (String.append bucket "Count").

Definition ticketsKey (st bucket : string) : string :=
  String.append st (String.append bucket "Tickets").

(** The object literal stored for a new (assignee, department) pair. *)
Definition emptyAgingCounts : agingCounts :=
  {| counts :=
       list_to_map
         (st ← statusKeys; b ← coarseNames; [(countKey st b, 0%nat)]);
     lists :=
       list_to_map
         (st ← statusKeys; b ← coarseNames ++ fineNames; [(ticketsKey st b, [])]) |}.

(** [agingCounts[k]++] *)
Definition incr (k : string) (ac : agingCounts) : agingCounts :=
  {| counts := alter S k (counts ac); lists := lists ac |}.

(** [agingCounts[k].push(v)] *)
Definition push (k v : string) (ac : agingCounts) : agingCounts :=
  {| counts := counts ac; lists := alter (fun l => l ++ [v]) k (lists ac) |}.

(** Comparisons of a possibly NaN number with a constant. *)
Definition ge (x : Js.num) (c : Q) : bool :=
  match x with Some v => Qle_bool c v | None => false end.
Definition lt (x : Js.num) (c : Q) : bool :=
  match x with Some v => negb (Qle_bool c v) | None => false end.
Definition gt (x : Js.num) (c : Q) : bool :=
  match x with Some v => negb (Qle_bool v c) | None => false end.

Definition msPerDay : Z := 1000 * 60 * 60 * 24.

(** [ticket.createdTime ? (now - new Date(ticket.createdTime)) / msPerDay : null];
    the outer [None] is [null], the inner one NaN. *)
Definition ageDays (now : Z) (created : timeField) : option Js.num :=
  match created with
  | Absent => None
  | Invalid => Some None
  | At ms => Some (Some (inject_Z (now - ms) / inject_Z msPerDay)%Q)
  end.

(** The 1-7 / 8-15 / 15+ lists, one chain for the four open statuses. *)
Definition fine_step (st : string) (age : Js.num) (tn : string)
           (ac : agingCounts) : agingCounts :=
  if ge age 0 && lt age 8 then push (ticketsKey st "BetweenOneAndSevenDays") tn ac
  else if ge age 8 && lt age 16 then push (ticketsKey st "BetweenEightAndFifteenDays") tn ac
  else if ge age 16 then push (ticketsKey st "OlderThanFifteenDays") tn ac
  else ac.

(** The 1-15 / 16-30 / 30+ counters and lists; the source repeats this chain
    once per status with the status spelled out in the property names. *)
Definition coarse_step (st : string) (age : Js.num) (tn : string)
           (ac : agingCounts) : agingCounts :=
  if ge age 0 && lt age 16 then
    push (ticketsKey st "BetweenOneAndFifteenDays") tn
         (incr (countKey st "BetweenOneAndFifteenDays") ac)
  else if ge age 16 && lt age 31 then
    push (ticketsKey st "BetweenSixteenAndThirtyDays") tn
         (incr (countKey st "BetweenSixteenAndThirtyDays") ac)
  else if gt age 30 then
    push (ticketsKey st "OlderThanThirtyDays") tn
         (incr (countKey st "OlderThanThirtyDays") ac)
  else ac.

Definition age_step (normalizedStatus : string) (age : option Js.num)
           (tn : string) (ac : agingCounts) : agingCounts :=
  match age with
  | None => ac
  | Some a =>
      let ac1 :=
        if bool_decide (normalizedStatus ∈ statusKeys)
        then fine_step normalizedStatus a tn ac else ac in
      if String.eqb normalizedStatus "open" then coarse_step "open" a tn ac1
      else if String.eqb normalizedStatus "hold" then coarse_step "hold" a tn ac1
      else if String.eqb normalizedStatus "inProgress" then coarse_step "inProgress" a tn ac1
      else if String.eqb normalizedStatus "escalated" then coarse_step "escalated" a tn ac1
      else ac1
  end.

(** The key under which a ticket is filed: ["unassigned"] when the assignee
    is missing, empty, ["none"] or ["null"]. *)
Definition assigneeKey (t : ticket) : string :=
  let assigneeRaw :=
    match assigneeId t with
    | None => ""%string
    | Some a => Js.toLowerCase a
    end in
  if String.eqb assigneeRaw "" || String.eqb assigneeRaw "none"
     || String.eqb assigneeRaw "null"
  then "unassigned"%string
  else Js.or_str (assigneeId t) "".

(** The part of the [tickets.forEach] body that writes
    [userDeptAgingCounts]; the status counters and the latest unassigned
    ticket, updated by the rest of the body, live in other objects. *)
Definition aging_ticket (now : Z)
           (u : gmap string (gmap string agingCounts)) (t : ticket)
  : gmap string (gmap string agingCounts) :=
  let a := assigneeKey t in
  let byDept := default ∅ (u !! a) in
  let deptId := Js.or_str (departmentId t) "no_department" in
  let ac := default emptyAgingCounts (byDept !! deptId) in
  let tn := Js.or_str (ticketNumber t) (id t) in
  <[ a := <[ deptId :=
       age_step (Status.normalizedStatus (status t))
                (ageDays now (createdTime t)) tn ac ]> byDept ]> u.

Definition userDeptAgingCounts (now : Z) (tickets : list ticket)
  : gmap string (gmap string agingCounts) :=
  foldl (aging_ticket now) ∅ tickets.

(** Reading a counter and a list of an entry. *)
Definition countOf (ac : agingCounts) (st bucket : string) : option nat :=
  counts ac !! countKey st bucket.

Definition ticketsOf (ac : agingCounts) (st bucket : string) : option (list string) :=
  lists ac !! ticketsKey st bucket.

(** In every coarse bucket of an entry the counter is the length of the
    list. *)
Definition paired (ac : agingCounts) : Prop :=
  forall st b, st ∈ statusKeys -> b ∈ coarseNames ->
    exists n l, countOf ac st b = Some n /\ ticketsOf ac st b = Some l
                /\ n = length l.

(** Every entry of the table is paired. *)
Definition all_paired (u : gmap string (gmap string agingCounts)) : Prop :=
  forall a byDept d ac, u !! a = Some byDept -> byDept !! d = Some ac -> paired ac.

End Aging.

(** ** Performance aggregator of the server: [/api/agent-performance] *)

Module AgentPerformance.
Import Ticket.

(** A row of [fetchTicketMetricsForTickets]. *)
Record metricRow : Type := {
  m_agentId : option string;
  m_assigneeId : option string;
  m_agentName : option string;
  m_ticketNumber : option string;
  m_id : option string;
  m_resolutionTime : option string;
  m_firstResponseTime : option string;
  m_threadCount : option Q;
  m_responseCount : option Q;
}.

(** [String(row.ticketNumber || row.id || "")] *)
Definition metricKey (row : metricRow) : string :=
  Js.or_str (Js.or_opt (m_ticketNumber row) (m_id row)) "".

(** An entry of [baseAgentsMap]. *)
Record agentBucket : Type := {
  agentId : string;
  agentName : string;
  ticketIds : gset string;
  resolvedIds : gset string;
  pendingIds : gset string;
  totalResolutionHours : Q;
  resolutionCount : nat;
}.

Definition newBucket (key name : string) : agentBucket :=
  {| agentId := key; agentName := name; ticketIds := ∅; resolvedIds := ∅;
     pendingIds := ∅; totalResolutionHours := 0; resolutionCount := 0 |}.

(** [assignee.displayName || assignee.fullName || assignee.name ||
     assignee.email || t.assigneeName || "Unassigned"] with
    [assignee = t.assignee || {}]. *)
Definition nameFromTicket (t : ticket) : string :=
  let a := default {| displayName := None; fullName := None; name := None;
                      email := None |} (assigneeObj t) in
  Js.or_str
    (Js.or_opt (displayName a)
       (Js.or_opt (fullName a)
          (Js.or_opt (name a) (Js.or_opt (email a) (assigneeName t)))))
    "Unassigned".

(** The record of one ticket in the classification of the first loop. *)
Definition classify (ticketId status : string) (b : agentBucket) : agentBucket :=
  if Status.isResolvedLike status
  then {| agentId := agentId b; agentName := agentName b;
          ticketIds := {[ ticketId ]} ∪ ticketIds b;
          resolvedIds := {[ ticketId ]} ∪ resolvedIds b;
          pendingIds := pendingIds b;
          totalResolutionHours := totalResolutionHours b;
          resolutionCount := resolutionCount b |}
  else {| agentId := agentId b; agentName := agentName b;
          ticketIds := {[ ticketId ]} ∪ ticketIds b;
          resolvedIds := resolvedIds b;
          pendingIds := {[ ticketId ]} ∪ pendingIds b;
          totalResolutionHours := totalResolutionHours b;
          resolutionCount := resolutionCount b |}.

(** The state of the first loop: [statusMapLocal] and [baseAgentsMap]. *)
Definition state : Type := gmap string string * gmap string agentBucket.

(** Body of [allTickets.forEach] (step 1). *)
Definition ticket_step (st : state) (t : ticket) : state :=
  let '(statusMapLocal, baseAgentsMap) := st in
  let key := ticketKey t in
  let statusMapLocal :=
    if Js.truthy key
    then <[ key := Js.toLowerCase (Js.or_str (status t) "") ]> statusMapLocal
    else statusMapLocal in
  let agentKey := Js.or_str (assigneeId t) "unassigned" in
  let baseAgentsMap :=
    match baseAgentsMap !! agentKey with
    | Some _ => baseAgentsMap
    | None => <[ agentKey := newBucket agentKey (nameFromTicket t) ]> baseAgentsMap
    end in
  let ticketId := ticketKey t in
  if negb (Js.truthy ticketId) then (statusMapLocal, baseAgentsMap)
  else
    let status := Js.or_str (statusMapLocal !! ticketId) "" in
    (statusMapLocal, alter (classify ticketId status) agentKey baseAgentsMap).

(** Body of [metricRows.forEach] (step 2): the resolution overlay. *)
Definition metric_step (statusMapLocal : gmap string string)
           (baseAgentsMap : gmap string agentBucket) (row : metricRow)
  : gmap string agentBucket :=
  let agentKey :=
    Js.or_str (Js.or_opt (m_agentId row) (m_assigneeId row)) "unassigned" in
  let ticketId := metricKey row in
  if negb (Js.truthy ticketId) then baseAgentsMap
  else
    let baseAgentsMap :=
      match baseAgentsMap !! agentKey with
      | Some _ => baseAgentsMap
      | None =>
          <[ agentKey := newBucket agentKey (Js.or_str (m_agentName row) "Unassigned") ]>
            baseAgentsMap
      end in
    let status := Js.or_str (statusMapLocal !! ticketId) "" in
    if Status.isResolvedLike status then
      let resHrs := Duration.parseZohoDurationToHours (m_resolutionTime row) in
      if Qle_bool 0 resHrs then
        alter (fun b =>
                 {| agentId := agentId b; agentName := agentName b;
                    ticketIds := ticketIds b; resolvedIds := resolvedIds b;
                    pendingIds := pendingIds b;
                    totalResolutionHours := (totalResolutionHours b + resHrs)%Q;
                    resolutionCount := S (resolutionCount b) |})
              agentKey baseAgentsMap
      else baseAgentsMap
    else baseAgentsMap.

(** The maps after step 1; [allTickets] is the list of active then archived
    tickets after the agent and date filters of the route. *)
Definition baseAgents (allTickets : list ticket) : state :=
  foldl ticket_step (∅, ∅) allTickets.

Definition withMetrics (allTickets : list ticket) (metricRows : list metricRow)
  : gmap string agentBucket :=
  let '(statusMapLocal, baseAgentsMap) := baseAgents allTickets in
  foldl (metric_step statusMapLocal) baseAgentsMap metricRows.

(** An element of the [agents] array of the response. *)
Record agentRow : Type := {
  a_agentId : string;
  a_agentName : string;
  ticketsCreated : nat;
  ticketsResolved : nat;
  pendingCount : nat;
  avgResolutionHours : Q;
  avgResolutionText : string;
}.

(** Step 3.  The sum of the hours, their quotient by the count and the
    text are computed on exact rationals, as the conventions say: where
    the exact minutes of the average lie at a half (57.5 minutes) or the
    binary64 sum falls short of a whole hour, the runtime can print the
    neighbouring minute. *)
Definition finalize (a : agentBucket) : agentRow :=
  let avgRes :=
    if (0 <? resolutionCount a)%nat
    then (totalResolutionHours a / inject_Z (Z.of_nat (resolutionCount a)))%Q
    else 0%Q in
  {| a_agentId := agentId a; a_agentName := agentName a;
     ticketsCreated := size (ticketIds a);
     ticketsResolved := size (resolvedIds a);
     pendingCount := size (pendingIds a);
     avgResolutionHours := avgRes;
     avgResolutionText := Duration.formatHoursToText avgRes |}.

(** [Object.values(baseAgentsMap).map(...)]; the order of the rows is the
    enumeration order of the object and is not modelled. *)
Definition agents (allTickets : list ticket) (metricRows : list metricRow)
  : list agentRow :=
  List.map (fun kv => finalize (snd kv))
           (map_to_list (withMetrics allTickets metricRows)).

(** The [summary] of the response (step 4); the route answers
    [summary: null] when there is no ticket at all. *)
Record summary : Type := {
  totalCreated : nat;
  totalResolved : nat;
  totalPending : nat;
  s_avgResolutionHours : Q;
}.

Definition summarize (rows : list agentRow) : summary :=
  let '(resolved, pending, hours) :=
    foldl (fun '(r, p, h) a =>
             ((r + ticketsResolved a)%nat, (p + pendingCount a)%nat,
              (h + avgResolutionHours a * inject_Z (Z.of_nat (ticketsResolved a)))%Q))
          (0%nat, 0%nat, 0%Q) rows in
  {| totalCreated := resolved + pending;
     totalResolved := resolved;
     totalPending := pending;
     s_avgResolutionHours :=
       if (0 <? resolved)%nat
       then Js.toFixed2 (hours / inject_Z (Z.of_nat resolved))%Q
       else 0%Q |}.

Definition summaryOf (allTickets : list ticket) (metricRows : list metricRow)
  : option summary :=
  match allTickets with
  | [] => None
  | _ => Some (summarize (agents allTickets metricRows))
  end.

(** The row of one agent key, when the agent is in the response. *)
Definition agentOf (allTickets : list ticket) (metricRows : list metricRow)
           (agentKey : string) : option agentRow :=
  finalize <$> (withMetrics allTickets metricRows !! agentKey).


(** Every ticket id of a bucket is in one of the two sets at least. *)
Definition covered (b : agentBucket) : Prop :=
  ticketIds b = resolvedIds b ∪ pendingIds b.

(** The ids of the two sets come from tickets seen so far with a
    resolved-like status, respectively with another status. *)
Definition traced (seen : list ticket) (b : agentBucket) : Prop :=
  (forall i, i ∈ resolvedIds b ->
     exists t, t ∈ seen /\ ticketKey t = i
               /\ Status.isResolvedLike (Js.toLowerCase (Js.or_str (status t) "")) = true)
  /\ (forall i, i ∈ pendingIds b ->
     exists t, t ∈ seen /\ ticketKey t = i
               /\ Status.isResolvedLike (Js.toLowerCase (Js.or_str (status t) "")) = false).

(** The tickets of a list never carry one key with both a resolved-like
    and another status. *)
Definition consistent (allTickets : list ticket) : Prop :=
  forall t1 t2, t1 ∈ allTickets -> t2 ∈ allTickets ->
    ticketKey t1 = ticketKey t2 ->
    Status.isResolvedLike (Js.toLowerCase (Js.or_str (status t1) ""))
    = Status.isResolvedLike (Js.toLowerCase (Js.or_str (status t2) "")).

(** The ticket ids of a bucket, whether an id is among the resolved and
    among the pending ones; the three counts of a row. *)
Definition filing (i : string) (b : agentBucket) : list string * bool * bool :=
  (elements (ticketIds b), bool_decide (i ∈ resolvedIds b),
   bool_decide (i ∈ pendingIds b)).

Definition counts (a : agentRow) : nat * nat * nat :=
  (ticketsCreated a, ticketsResolved a, pendingCount a).

End AgentPerformance.

(** ** Performance aggregator of [agentPerformanceRoutes.js]

    The route registered by [registerAgentPerformanceRoutes]: the status
    map is complete before the metric rows are classified, and the agents
    are keyed by name. *)

Module AgentPerformanceRoutes.
Import Ticket.
Import AgentPerformance (metricRow, m_agentName, m_ticketNumber, m_id,
  m_resolutionTime, m_firstResponseTime, m_threadCount, m_responseCount,
  metricKey).

(** Step 5: [ticketStatusMap], the last status of a key wins. *)
Definition status_step (m : gmap string string) (t : ticket) : gmap string string :=
  let key := ticketKey t in
  if negb (Js.truthy key) then m
  else <[ key := Js.toLowerCase (Js.or_str (status t) "") ]> m.

Definition ticketStatusMap (allTickets : list ticket) : gmap string string :=
  foldl status_step ∅ allTickets.

Record bucket : Type := {
  agentName : string;
  ticketIds : gset string;
  resolvedIds : gset string;
  pendingIds : gset string;
  totalResolutionHours : Q;
  resolutionCount : nat;
  totalFirstResponseHours : Q;
  firstResponseCount : nat;
  totalThreads : Q;
  threadCount : nat;
}.

Definition newBucket (name : string) : bucket :=
  {| agentName := name; ticketIds := ∅; resolvedIds := ∅; pendingIds := ∅;
     totalResolutionHours := 0; resolutionCount := 0;
     totalFirstResponseHours := 0; firstResponseCount := 0;
     totalThreads := 0; threadCount := 0 |}.

(** [a || b] on optional numbers: zero is falsy. *)
Definition or_num (a : option Q) (b : Q) : Q :=
  match a with
  | Some q => if Qeq_bool q 0 then b else q
  | None => b
  end.

(** The updates of one metric row on its agent's bucket. *)
Definition update (ticketId status : string) (row : metricRow) (b : bucket) : bucket :=
  let resolved := String.eqb status "closed" || String.eqb status "resolved" in
  let resHrs := Duration.parseZohoDurationToHours (m_resolutionTime row) in
  let frHrs := Duration.parseZohoDurationToHours (m_firstResponseTime row) in
  let threads := or_num (m_threadCount row) (or_num (m_responseCount row) 0) in
  let posb (q : Q) := negb (Qle_bool q 0) in
  {| agentName := agentName b;
     ticketIds := {[ ticketId ]} ∪ ticketIds b;
     resolvedIds := if resolved then {[ ticketId ]} ∪ resolvedIds b else resolvedIds b;
     pendingIds := if resolved then pendingIds b else {[ ticketId ]} ∪ pendingIds b;
     totalResolutionHours :=
       if posb resHrs then (totalResolutionHours b + resHrs)%Q else totalResolutionHours b;
     resolutionCount :=
       if posb resHrs then S (resolutionCount b) else resolutionCount b;
     totalFirstResponseHours :=
       if posb frHrs then (totalFirstResponseHours b + frHrs)%Q
       else totalFirstResponseHours b;
     firstResponseCount :=
       if posb frHrs then S (firstResponseCount b) else firstResponseCount b;
     totalThreads := if posb threads then (totalThreads b + threads)%Q else totalThreads b;
     threadCount := if posb threads then S (threadCount b) else threadCount b |}.

(** Step 7: body of [metricRows.forEach]. *)
Definition metric_step (statuses : gmap string string)
           (agentsMap : gmap string bucket) (row : metricRow) : gmap string bucket :=
  let name := Js.or_str (m_agentName row) "Unassigned" in
  let ticketId := metricKey row in
  if negb (Js.truthy ticketId) then agentsMap
  else
    let agentsMap :=
      match agentsMap !! name with
      | Some _ => agentsMap
      | None => <[ name := newBucket name ]> agentsMap
      end in
    let status := Js.or_str (statuses !! ticketId) "" in
    alter (update ticketId status row) name agentsMap.

Definition agentsMap (allTickets : list ticket) (metricRows : list metricRow)
  : gmap string bucket :=
  foldl (metric_step (ticketStatusMap allTickets)) ∅ metricRows.

Record agentRow : Type := {
  a_agentName : string;
  ticketsCreated : nat;
  ticketsResolved : nat;
  pendingTickets : nat;
  avgResolutionHours : Q;
  avgFirstResponseHours : Q;
  avgThreads : Q;
}.

Definition mean (total : Q) (n : nat) : Q :=
  if (0 <? n)%nat then (total / inject_Z (Z.of_nat n))%Q else 0%Q.

(** Step 8. *)
Definition finalize (a : bucket) : agentRow :=
  {| a_agentName := agentName a;
     ticketsCreated := size (ticketIds a);
     ticketsResolved := size (resolvedIds a);
     pendingTickets := size (pendingIds a);
     avgResolutionHours := mean (totalResolutionHours a) (resolutionCount a);
     avgFirstResponseHours := mean (totalFirstResponseHours a) (firstResponseCount a);
     avgThreads := mean (totalThreads a) (threadCount a) |}.

Definition agentOf (allTickets : list ticket) (metricRows : list metricRow)
           (name : string) : option agentRow :=
  finalize <$> (agentsMap allTickets metricRows !! name).


(** The classification of a ticket id under a status map. *)
Definition resolvedAt (statuses : gmap string string) (i : string) : bool :=
  let status := Js.or_str (statuses !! i) "" in
  String.eqb status "closed" || String.eqb status "resolved".

(** Every ticket id of a bucket is in exactly one of the two sets, by the
    status recorded for it. *)
Definition split_by_status (statuses : gmap string string) (b : bucket) : Prop :=
  ticketIds b = resolvedIds b ∪ pendingIds b
  /\ (forall i, i ∈ resolvedIds b -> resolvedAt statuses i = true)
  /\ (forall i, i ∈ pendingIds b -> resolvedAt statuses i = false).

(** The three counts of a row. *)
Definition counts (a : agentRow) : nat * nat * nat :=
  (ticketsCreated a, ticketsResolved a, pendingTickets a).

End AgentPerformanceRoutes.

(** ** Views of the dashboard component: search, averages, pages *)

Module View.
Import Ticket.

(** A row of [metricsRows]. *)
Record metricsRow : Type := {
  agentName : option string;
  ticketNumber : option string;
  status : option string;
  departmentName : option string;
  createdTime : option string;
  firstResponseTime : option string;
  resolutionTime : option string;
}.

(** The template string searched by the metrics table. *)
Definition combined (r : metricsRow) : string :=
  let sp := String " " EmptyString in
  Js.toLowerCase
    (String.concat sp
       [Js.or_str (agentName r) ""; Js.or_str (ticketNumber r) "";
        Js.or_str (status r) ""; Js.or_str (departmentName r) "";
        Js.or_str (createdTime r) ""]).

(** The rows of [sortedMetricsRows] before the final sort by agent name
    (a locale comparison that only reorders them). *)
Definition searchedMetricsRows (searchTerm : string)
           (filteredMetricsRows : list metricsRow) : list metricsRow :=
  let q := Js.toLowerCase (Js.trim searchTerm) in
  if Js.truthy q
  then List.filter (fun r => Js.includes (combined r) q) filteredMetricsRows
  else filteredMetricsRows.

(** A row of [archivedRows] as the component reads it. *)
Record archivedRow : Type := {
  ar_agentName : option string;
  ar_ticketNumber : option string;
  ar_createdTime : timeField;
}.

(** [/^\d+$/.test(q)] *)
Fixpoint all_digits (s : string) : bool :=
  match s with
  | EmptyString => true
  | String c r => Js.is_digit c && all_digits r
  end.

Definition isNumeric (q : string) : bool := Js.truthy q && all_digits q.

(** [agent.split(/\s+/).filter(Boolean)] *)
Definition words (agent : string) : list string :=
  List.filter Js.truthy (Js.split_ws agent).

(** The callback of the search [filter] for the lowercased query [q]. *)
Definition searchMatch (q : string) (row : archivedRow) : bool :=
  let agent := Js.toLowerCase (Js.or_str (ar_agentName row) "") in
  let ticketNo := Js.toLowerCase (Js.trim (Js.or_str (ar_ticketNumber row) "")) in
  if isNumeric q then String.eqb ticketNo q
  else existsb (fun w => Js.startsWith w q) (words agent).

(** The date range callback; [start] and [end] are the instants of the
    chosen days when the inputs hold valid dates. *)
Definition inRange (start stop : option Z) (row : archivedRow) : bool :=
  match ar_createdTime row with
  | At d =>
      match start with Some s => negb (d <? s) | None => true end
      && match stop with Some e => negb (e <? d) | None => true end
  | _ => false
  end.

(** The rows of [filteredArchivedRows] before the final sort by agent name. *)
Definition filteredArchivedRows (searchTerm : string) (start stop : option Z)
           (archivedRows : list archivedRow) : list archivedRow :=
  let raw := Js.trim searchTerm in
  let rows :=
    match start, stop with
    | None, None => archivedRows
    | _, _ => List.filter (inRange start stop) archivedRows
    end in
  if negb (Js.truthy raw) then rows
  else List.filter (searchMatch (Js.toLowerCase raw)) rows.

(** *** Per agent averages of the metrics table *)

Record averages : Type := {
  frSum : Q;
  frCount : nat;
  resSum : Q;
  resCount : nat;
}.

Record averageText : Type := {
  avgFirstResponseHM : string;
  avgFirstResponseMin : option Z;
  avgResolutionHM : string;
  avgResolutionMin : option Z;
}.

Section AgentAverageMap.

(** [zohoHrsToMinutes] and [minutesToHM] are imported from the component's
    [utils] module: minutes of a duration text or [null], and the "H:MM"
    text of a number of minutes. *)
Variable zohoHrsToMinutes : option string -> option Q.
Variable minutesToHM : Z -> string.

Definition add_row (acc : gmap string averages) (row : metricsRow)
  : gmap string averages :=
  let name := Js.or_str (agentName row) "Unknown" in
  let v := default {| frSum := 0; frCount := 0; resSum := 0; resCount := 0 |}
                   (acc !! name) in
  let v1 :=
    match zohoHrsToMinutes (firstResponseTime row) with
    | Some frMin =>
        {| frSum := (frSum v + frMin)%Q; frCount := S (frCount v);
           resSum := resSum v; resCount := resCount v |}
    | None => v
    end in
  let v2 :=
    match zohoHrsToMinutes (resolutionTime row) with
    | Some resMin =>
        {| frSum := frSum v1; frCount := frCount v1;
           resSum := (resSum v1 + resMin)%Q; resCount := S (resCount v1) |}
    | None => v1
    end in
  <[ name := v2 ]> acc.

(** [count ? Math.round(sum / count) : null] *)
Definition roundedMean (sum : Q) (count : nat) : option Z :=
  if (0 <? count)%nat
  then Some (Js.round (sum / inject_Z (Z.of_nat count))%Q)
  else None.

Definition hm (avg : option Z) : string :=
  match avg with
  | Some n => minutesToHM n
  | None => "-"%string
  end.

Definition format (v : averages) : averageText :=
  let frAvgMin := roundedMean (frSum v) (frCount v) in
  let resAvgMin := roundedMean (resSum v) (resCount v) in
  {| avgFirstResponseHM := hm frAvgMin; avgFirstResponseMin := frAvgMin;
     avgResolutionHM := hm resAvgMin; avgResolutionMin := resAvgMin |}.

Definition agentAverageMap (sortedMetricsRows : list metricsRow)
  : gmap string averageText :=
  format <$> foldl add_row ∅ sortedMetricsRows.

(** The durations that are present among the rows of one agent, in row
    order: the values of [field] that [zohoHrsToMinutes] does not turn into
    [null]. *)
Definition presentValues (field : metricsRow -> option string) (name : string)
           (rows : list metricsRow) : list Q :=
  omap (fun row =>
          if String.eqb (Js.or_str (agentName row) "Unknown") name
          then zohoHrsToMinutes (field row) else None)
       rows.

End AgentAverageMap.

(** *** Pages *)

(** [a.slice(start, end)] *)
Definition slice {A} (l : list A) (start stop : Z) : list A :=
  let len := Z.of_nat (length l) in
  let rel (i : Z) := if i <? 0 then Z.max (len + i) 0 else Z.min i len in
  let k := rel start in
  let final := rel stop in
  firstn (Z.to_nat (Z.max (final - k) 0)) (skipn (Z.to_nat k) l).

(** [Math.max(1, Math.ceil(rows.length / pageSize))] *)
Definition totalPages (rowCount : nat) (pageSize : Z) : Z :=
  Z.max 1 (Js.ceil (inject_Z (Z.of_nat rowCount) / inject_Z pageSize)%Q).

(** [rows.slice((page - 1) * pageSize, (page - 1) * pageSize + pageSize)] *)
Definition pagedRows {A} (rows : list A) (page pageSize : Z) : list A :=
  let start := (page - 1) * pageSize in
  slice rows start (start + pageSize).

Definition metricsPageSize : Z := 200.
Definition archivedPageSize : Z := 500.

(** The two uses in the component. *)
Definition metricsTotalPages (sortedMetricsRows : list metricsRow) : Z :=
  totalPages (length sortedMetricsRows) metricsPageSize.

Definition pagedMetricsRows (sortedMetricsRows : list metricsRow) (metricsPage : Z)
  : list metricsRow :=
  pagedRows sortedMetricsRows metricsPage metricsPageSize.

Definition archivedTotalPages (filteredArchivedRows : list archivedRow) : Z :=
  totalPages (length filteredArchivedRows) archivedPageSize.

Definition pagedArchivedRows (filteredArchivedRows : list archivedRow)
           (archivedPage : Z) : list archivedRow :=
  pagedRows filteredArchivedRows archivedPage archivedPageSize.

(** The handlers of the Prev and Next buttons. *)
Definition prevPage (p : Z) : Z := Z.max 1 (p - 1).
Definition nextPage (total p : Z) : Z := Z.min total (p + 1).

End View.

(** ** Yearly trend aggregator *)

Module Yearly.
Import Ticket.

Record yearBucket : Type := {
  created : nat;
  resolved : nat;
}.

Definition zeroBucket : yearBucket := {| created := 0; resolved := 0 |}.

(** A row of the chart input, and a ticket of the server summary: the
    fields the two aggregations read. *)
Record item : Type := {
  status : option string;
  createdTime : timeField;
  closedTime : timeField;
}.

Definition addCreated (b : yearBucket) : yearBucket :=
  {| created := S (created b); resolved := resolved b |}.

Definition addResolved (b : yearBucket) : yearBucket :=
  {| created := created b; resolved := S (resolved b) |}.

(** [if (!map[y]) map[y] = { created: 0, resolved: 0 }; map[y].f += 1] *)
Definition bump (f : yearBucket -> yearBucket) (y : Z) (m : gmap Z yearBucket)
  : gmap Z yearBucket :=
  <[ y := f (default zeroBucket (m !! y)) ]> m.

Section WithCalendar.

(** [getFullYear()] of the instant, in the time zone of the runtime. *)
Variable getFullYear : Z -> Z.

(** The year of a field that is present and parses. *)
Definition yearOf (f : timeField) : option Z :=
  match f with
  | At ms => Some (getFullYear ms)
  | _ => None
  end.

(** Body of the [forEach] of [yearlyData] in the charts. *)
Definition chart_step (m : gmap Z yearBucket) (t : item) : gmap Z yearBucket :=
  let m1 :=
    match yearOf (createdTime t) with
    | Some y => bump addCreated y m
    | None => m
    end in
  if Status.isResolvedLike (Js.toLowerCase (Js.or_str (status t) "")) then
    match yearOf (closedTime t) with
    | Some y => bump addResolved y m1
    | None => m1
    end
  else m1.

(** The map [map] of [yearlyData] for the rows its loop traverses. *)
Definition yearlyData (rows : list item) : gmap Z yearBucket :=
  foldl chart_step ∅ rows.

(** [summary] of [/api/tickets-yearly-summary] before the loop. *)
Definition initialSummary : gmap Z yearBucket :=
  list_to_map (List.map (fun y => (y, zeroBucket)) (seqZ 2020 6)).

(** Body of the [forEach] of [/api/tickets-yearly-summary]. *)
Definition summary_step (summary : gmap Z yearBucket) (t : item)
  : gmap Z yearBucket :=
  match yearOf (createdTime t) with
  | None => summary
  | Some y =>
      match summary !! y with
      | None => summary
      | Some b =>
          let b1 := addCreated b in
          if Status.isResolvedLike (Js.toLowerCase (Js.or_str (status t) ""))
          then <[ y := addResolved b1 ]> summary
          else <[ y := b1 ]> summary
      end
  end.

Definition yearlySummary (allTickets : list item) : gmap Z yearBucket :=
  foldl summary_step initialSummary allTickets.

(** What one row adds to year [y] in the charts: one [created] when the
    creation year is [y], one [resolved] when the status is resolved-like
    and the closure year is [y]. *)
Definition hit (o : option Z) (y : Z) : nat :=
  if bool_decide (o = Some y) then 1%nat else 0%nat.

Definition increments (t : item) (y : Z) : yearBucket :=
  {| created := hit (yearOf (createdTime t)) y;
     resolved :=
       if Status.isResolvedLike (Js.toLowerCase (Js.or_str (status t) ""))
       then hit (yearOf (closedTime t)) y else 0%nat |}.

(** What one ticket adds to a year [y] of the server summary: both
    counters follow the creation year. *)
Definition creationYearIncrements (t : item) (y : Z) : yearBucket :=
  {| created := hit (yearOf (createdTime t)) y;
     resolved :=
       if Status.isResolvedLike (Js.toLowerCase (Js.or_str (status t) ""))
       then hit (yearOf (createdTime t)) y else 0%nat |}.

End WithCalendar.

Definition createdIn (m : gmap Z yearBucket) (y : Z) : nat :=
  created (default zeroBucket (m !! y)).

Definition resolvedIn (m : gmap Z yearBucket) (y : Z) : nat :=
  resolved (default zeroBucket (m !! y)).

(** A calendar for the examples: the year of an instant in UTC, by the
    days-to-civil conversion of the proleptic Gregorian calendar. *)
Definition utcFullYear (ms : Z) : Z :=
  let days := ms / Aging.msPerDay in
  let z := days + 719468 in
  let era := z / 146097 in
  let doe := z - era * 146097 in
  let yoe := (doe - doe / 1460 + doe / 36524 - doe / 146096) / 365 in
  let doy := doe - (365 * yoe + yoe / 4 - yoe / 100) in
  let mp := (5 * doy + 2) / 153 in
  yoe + era * 400 + (if mp <? 10 then 0 else 1).

End Yearly.

(** ** Concrete inputs and decision procedures used by the properties *)

Module Samples.

(** Format then parse [h] hours and [m] minutes, compared with the minutes
    put in. *)
Definition roundTripOk (h m : Z) : bool :=
  Qeq_bool
    (Duration.toMinutes
       (Some (Duration.formatHoursToText (inject_Z (h * 60 + m) / 60)%Q)))
    (inject_Z (h * 60 + m)).

(** A ticket with the fields the examples vary; the others are missing. *)
Definition mkTicket (i : string) (st : option string) (created closed : Ticket.timeField)
           (agent dept : option string) : Ticket.ticket :=
  {| Ticket.id := i; Ticket.ticketNumber := None; Ticket.status := st;
     Ticket.createdTime := created; Ticket.closedTime := closed;
     Ticket.lastModifiedTime := Ticket.Absent;
     Ticket.assigneeId := agent; Ticket.assigneeObj := None;
     Ticket.assigneeName := None; Ticket.departmentId := dept;
     Ticket.subject := None |}.

Definition day : Z := Aging.msPerDay.

(** Ticket A1 in three records: closed in the archive, closed with a later
    closing time among the active tickets, and still open in a stale active
    record. *)
Definition archivedA1 : Ticket.ticket :=
  mkTicket "A1" (Some "closed"%string) (Ticket.At (10 * day)) (Ticket.At (15 * day))
           (Some "7"%string) (Some "d1"%string).

Definition activeClosedA1 : Ticket.ticket :=
  mkTicket "A1" (Some "Closed"%string) (Ticket.At (10 * day)) (Ticket.At (16 * day))
           (Some "7"%string) (Some "d1"%string).

Definition activeA1 : Ticket.ticket :=
  mkTicket "A1" (Some "open"%string) (Ticket.At (10 * day)) Ticket.Absent
           (Some "7"%string) (Some "d1"%string).

Definition activeB2 : Ticket.ticket :=
  mkTicket "B2" (Some "Closed"%string) (Ticket.At (11 * day)) (Ticket.At (12 * day))
           (Some "7"%string) (Some "d1"%string).

(** An open ticket created exactly thirty days before [now30]. *)
Definition now30 : Z := 100 * day.

Definition thirtyDaysOld : Ticket.ticket :=
  mkTicket "T30" (Some "Open"%string) (Ticket.At (70 * day)) Ticket.Absent
           (Some "7"%string) (Some "d1"%string).

Definition byDept30 : gmap string Aging.agingCounts :=
  default ∅ (Aging.userDeptAgingCounts now30 [thirtyDaysOld] !! "7"%string).

Definition entry30 : Aging.agingCounts :=
  default Aging.emptyAgingCounts (byDept30 !! "d1"%string).

(** Created on 2023-06-01 and closed on 2024-02-01 (UTC), status closed. *)
Definition crossYear : Yearly.item :=
  {| Yearly.status := Some "closed"%string;
     Yearly.createdTime := Ticket.At 1685577600000;
     Yearly.closedTime := Ticket.At 1706745600000 |}.

(** Two archived rows and two metrics rows with ticket numbers 123 and
    1234. *)
Definition archived123 : View.archivedRow :=
  {| View.ar_agentName := Some "John Smith"%string;
     View.ar_ticketNumber := Some "123"%string;
     View.ar_createdTime := Ticket.At (10 * day) |}.

Definition archived1234 : View.archivedRow :=
  {| View.ar_agentName := Some "Ann Desmond"%string;
     View.ar_ticketNumber := Some "1234"%string;
     View.ar_createdTime := Ticket.At (11 * day) |}.

Definition metricsOf (agent number : string) (fr : option string) : View.metricsRow :=
  {| View.agentName := Some agent; View.ticketNumber := Some number;
     View.status := Some "Open"%string; View.departmentName := Some "IT"%string;
     View.createdTime := None; View.firstResponseTime := fr;
     View.resolutionTime := None |}.

Definition metrics123 : View.metricsRow := metricsOf "John Smith" "123" None.
Definition metrics1234 : View.metricsRow := metricsOf "Ann Desmond" "1234" None.

(** Ticket A1 twice, first as the active list has it, then as the archive
    has it. *)
Definition perfTickets : list Ticket.ticket := [activeA1; archivedA1].

(** Two closed tickets of agent 7. *)
Definition closedTickets : list Ticket.ticket :=
  [mkTicket "T1" (Some "Closed"%string) (Ticket.At (10 * day)) (Ticket.At (11 * day))
            (Some "7"%string) (Some "d1"%string);
   mkTicket "T2" (Some "Closed"%string) (Ticket.At (10 * day)) (Ticket.At (12 * day))
            (Some "7"%string) (Some "d1"%string)].

(** Two closed tickets without assignee, the first one created last. *)
Definition unassignedClosed : list Ticket.ticket :=
  [mkTicket "U1" (Some "Closed"%string) (Ticket.At (11 * day)) (Ticket.At (12 * day))
            None (Some "d1"%string);
   mkTicket "U2" (Some "Closed"%string) (Ticket.At (10 * day)) (Ticket.At (12 * day))
            None (Some "d1"%string)].

(** A ticket of agent 7 whose status is "Archived". *)
Definition archivedStatus : list Ticket.ticket :=
  [mkTicket "C3" (Some "Archived"%string) (Ticket.At (10 * day)) (Ticket.At (11 * day))
            (Some "7"%string) (Some "d1"%string)].

(** Three metrics rows of one agent with first response times 1:00,
    missing and 3:00, and a reader of "H:MM" texts that yields [null] for a
    missing or empty field. *)
Definition threeRows : list View.metricsRow :=
  [metricsOf "Ann" "1" (Some "1:00"%string); metricsOf "Ann" "2" None;
   metricsOf "Ann" "3" (Some "3:00"%string)].

Definition hmMinutes (txt : option string) : option Q :=
  match txt with
  | None => None
  | Some EmptyString => None
  | Some s => Some (Duration.toMinutes (Some s))
  end.

(** The binary64 formatter prints the same text as the exact one for [h]
    hours and [m] minutes. *)
Definition sameText (h m : Z) : bool :=
  String.eqb
    (Binary64.formatHoursToText
       (PrimFloat.div (Binary64.of_Z (h * 60 + m)) (Binary64.of_Z 60)))
    (Duration.formatHoursToText (inject_Z (h * 60 + m) / 60)%Q).

(** One department and the name of agent 7. *)
Definition departments : list Reconcile.department :=
  [{| Reconcile.d_id := "d1"; Reconcile.d_name := "IT" |}].

Definition agentNames : gmap string string := {[ "7"%string := "Agent Seven"%string ]}.

Definition rowOf (src : Reconcile.source) (t : Ticket.ticket) : Reconcile.row :=
  Reconcile.mapTicket departments agentNames src t.

(** The merge of the archive [A1] with the closed active tickets [A1; B2]. *)
Definition mergedRows : list Reconcile.row :=
  Reconcile.allRows departments agentNames [archivedA1] [activeClosedA1; activeB2].

End Samples.

(** * Further parts of the routes and views *)

(** ** What a match of the backtracking matcher looks like *)

Module RegexSpec.
Import Regex.

(** [post r s cs s' cs']: the expression [r] can consume a prefix of [s]
    leaving [s'], turning the captures [cs] into [cs']. *)
Fixpoint post (r : re) (s : string) (cs : caps) (s' : string) (cs' : caps) : Prop :=
  match r with
  | Eps => s' = s /\ cs' = cs
  | Cls p lo hi =>
      cs' = cs /\ exists j, (lo <= j <= run_length p s hi)%nat /\ s' = drop j s
  | Seq r1 r2 => exists s1 cs1, post r1 s cs s1 cs1 /\ post r2 s1 cs1 s' cs'
  | Opt r1 => post r1 s cs s' cs' \/ (s' = s /\ cs' = cs)
  | Grp i r1 =>
      exists cs1, post r1 s cs s' cs1
                  /\ cs' = (i, take (String.length s - String.length s') s) :: cs1
  end.

(** The first character of a string, if any, satisfies [p]. *)
Definition head_is (p : ascii -> bool) (s : string) : bool :=
  match s with
  | String c _ => p c
  | EmptyString => false
  end.

(** The expression has no capture group. *)
Fixpoint plain (r : re) : bool :=
  match r with
  | Eps | Cls _ _ _ => true
  | Seq r1 r2 => plain r1 && plain r2
  | Opt r1 => plain r1
  | Grp _ _ => false
  end.

End RegexSpec.

(** ** First response instant of a metrics row *)

Module Metrics.
Import Regex Ticket.

(** A letter of a pattern under the [i] flag. *)
Definition chr_i (c : ascii) : re :=
  Cls (fun x => Ascii.eqb (Js.lower_char x) c) 1 (Some 1%nat).

(** [/^(\d+):(\d{2})\s*hrs$/i] without its two anchors. *)
Definition re_add : re :=
  seq [Grp 1 digit_plus; chr ":"; Grp 2 (digit_n 2 2); space_star;
       chr_i "h"; chr_i "r"; chr_i "s"].

(** [s.match(/^...$/i)]: a match that starts at the first character and
    ends at the end of the text. *)
Definition match_whole (r : re) (s : string) : option caps :=
  exec r s [] (fun rest cs => match rest with
                              | EmptyString => Some cs
                              | _ => None
                              end).

(** [parseInt(m[i], 10)] of a captured run of digits. *)
Definition cap_int (i : nat) (cs : caps) : Z :=
  match group i cs with
  | Some v => Js.digits_val v
  | None => 0
  end.

(** The largest time value of a [Date]. *)
Definition maxTime : Z := 8640000000000000.

(** [addZohoDurationToDate(startDateString, zohoHrsString)]: the instant
    whose ISO text is returned, [None] for [null]. *)
Definition addZohoDurationToDate (startDateString : timeField)
           (zohoHrsString : option string) : option Z :=
  match startDateString, zohoHrsString with
  | At start, Some (String _ _ as txt) =>
      match match_whole re_add (Js.trim txt) with
      | None => None
      | Some m =>
          let hours := cap_int 1 m in
          let minutes := cap_int 2 m in
          let totalMs := (hours * 60 + minutes) * 60 * 1000 in
          let stop := start + totalMs in
          if Z.abs stop <=? maxTime then Some stop else None
      end
  | _, _ => None
  end.

(** The metrics of one ticket as the helpdesk API returns them. *)
Record metrics : Type := {
  firstResponseTime : option string;
  resolutionTime : option string;
  responseCount : option Q;
  threadCount : option Q;
}.

(** [x || ""] on an optional number, read later through [||] again: zero
    and a missing value both end up falsy. *)
Definition or_blank (x : option Q) : option Q :=
  match x with
  | Some q => if Qeq_bool q 0 then None else Some q
  | None => None
  end.

Section Rows.

Variable agentIdToName : gmap string string.

(** [nameFromMap || (ticket.assignee && (...)) || ticket.assigneeName ||
    "Unassigned"] *)
Definition agentNameOf (t : ticket) : string :=
  let assigneeIdStr := Js.or_str (assigneeId t) "" in
  let nameFromMap :=
    if Js.truthy assigneeIdStr then agentIdToName !! assigneeIdStr else None in
  let fromAssignee :=
    match assigneeObj t with
    | Some a =>
        Js.or_opt (displayName a)
          (Js.or_opt (fullName a) (Js.or_opt (name a) (email a)))
    | None => None
    end in
  Js.or_str (Js.or_opt nameFromMap (Js.or_opt fromAssignee (assigneeName t)))
            "Unassigned".

(** The object pushed for one fetched ticket, read through the fields the
    aggregations use; the object has no [agentId], [assigneeId] or [id]
    property. *)
Definition metricRowOf (t : ticket) (m : metrics) : AgentPerformance.metricRow :=
  {| AgentPerformance.m_agentId := None;
     AgentPerformance.m_assigneeId := None;
     AgentPerformance.m_agentName := Some (agentNameOf t);
     AgentPerformance.m_ticketNumber := Some (Js.or_str (ticketNumber t) (id t));
     AgentPerformance.m_id := None;
     AgentPerformance.m_resolutionTime := Some (Js.or_str (resolutionTime m) "");
     AgentPerformance.m_firstResponseTime := Some (Js.or_str (firstResponseTime m) "");
     AgentPerformance.m_threadCount := or_blank (threadCount m);
     AgentPerformance.m_responseCount := or_blank (responseCount m) |}.

(** The rows of [fetchTicketMetricsForTickets] for the tickets whose
    metrics request succeeded, in the order of the requests. *)
Definition rows (results : list (ticket * metrics)) : list AgentPerformance.metricRow :=
  List.map (fun '(t, m) => metricRowOf t m) results.

(** [firstResponseDateTime] of the row of a fetched ticket. *)
Definition firstResponseDateTime (t : ticket) (m : metrics) : option Z :=
  addZohoDurationToDate (createdTime t) (firstResponseTime m).

End Rows.

End Metrics.

(** ** The agent key of a ticket *)

Module AgentKeys.

(** [const agentKey = t.assigneeId || "unassigned"], the key under which the
    first loop of [/api/agent-performance] files a ticket. *)
Abbreviation agentKeyOf t := (Js.or_str (Ticket.assigneeId t) "unassigned").

End AgentKeys.

(** ** Duration texts with hours and minutes *)

Module DurationTexts.

(** The text [ab:mn hrs] for four digits, and the same text after further
    leading digits [ds] of the hours. *)
Definition hmText (a b m n : ascii) : string :=
  String a (String b (String ":" (String m (String n " hrs")))).

Definition longHours (ds : string) (a b m n : ascii) : string :=
  String.append ds (hmText a b m n).

(** The two-digit number written by two digits. *)
Definition twoDigits (a b : ascii) : Z := Js.digits_val (String a (String b "")).

End DurationTexts.

(** ** The duration parser of [agentPerformanceRoutes.js] *)

Module RoutesDuration.
Import Regex.

(** [parseInt(s, 10)] *)
Definition parseInt10 (s : string) : Js.num :=
  let t := Js.trimStart s in
  let '(neg, r) :=
    match t with
    | String "-" r => (true, r)
    | String "+" r => (false, r)
    | _ => (false, t)
    end in
  let '(ds, _) := Js.span Js.is_digit r in
  if Js.truthy ds
  then Some (inject_Z (if neg then - Js.digits_val ds else Js.digits_val ds))
  else None.

(** [parseInt(m[i], 10) || 0] *)
Definition cap_parseInt (i : nat) (cs : caps) : Q :=
  match group i cs with
  | Some v => Js.or0 (parseInt10 v)
  | None => 0%Q
  end.

(** [parseZohoDurationToHours(str)] of the routes file. *)
Definition parseZohoDurationToHours (str : option string) : Q :=
  match str with
  | None => 0%Q
  | Some EmptyString => 0%Q
  | Some str =>
      let s := Js.toLowerCase (Js.trim str) in
      match search Duration.re_days s with
      | Some m =>
          let days := cap_parseInt 1 m in
          let hours := cap_parseInt 2 m in
          let minutes := cap_parseInt 3 m in
          (days * 24 + hours + minutes / 60)%Q
      | None =>
          match search Duration.re_hm s with
          | Some m => (cap_parseInt 1 m + cap_parseInt 2 m / 60)%Q
          | None =>
              match search Duration.re_number s with
              | Some m =>
                  match group 1 m with
                  | Some v => Js.or0 (Js.parseFloat v)
                  | None => 0%Q
                  end
              | None => 0%Q
              end
          end
      end
  end.

End RoutesDuration.


(** ** The archived tickets route after the merge *)

Module ArchivedRoute.
Import Ticket Reconcile.

(** [archivedTickets.filter((t) => String(t.assigneeId) === String(agentId))],
    applied when the query names an agent. *)
Definition agentFilter (agentId : option string) (tickets : list ticket) : list ticket :=
  match agentId with
  | Some (String _ _ as a) =>
      List.filter (fun t => String.eqb (String_of (assigneeId t)) a) tickets
  | _ => tickets
  end.

(** [tickets.filter((t) => (t.status || "").toLowerCase() === "closed")] *)
Definition closedOnly (tickets : list ticket) : list ticket :=
  List.filter (fun t => String.eqb (Js.toLowerCase (Js.or_str (status t) "")) "closed")
              tickets.

(** A row of the response: the merged row and its first response time. *)
Record enrichedRow : Type := {
  base : row;
  firstResponseTime : string;
}.

(** Body of [metricsRows.forEach] that fills [frMap]. *)
Definition frMap_step (frMap : gmap string string) (m : AgentPerformance.metricRow)
  : gmap string string :=
  let key := AgentPerformance.metricKey m in
  if negb (Js.truthy key) then frMap
  else <[ key := Js.or_str (AgentPerformance.m_firstResponseTime m) "" ]> frMap.

Definition frMap (metricsRows : list AgentPerformance.metricRow) : gmap string string :=
  foldl frMap_step ∅ metricsRows.

(** [allRows.map((row) => ({...row, firstResponseTime: frMap[row.ticketNumber] || ""}))] *)
Definition enrich (allRows : list row) (metricsRows : list AgentPerformance.metricRow)
  : list enrichedRow :=
  List.map (fun r => {| base := r;
                        firstResponseTime :=
                          Js.or_str (frMap metricsRows !! r_ticketNumber r) "" |})
           allRows.

(** The rows of the response before the final sort by closing time, from
    the archived and the active tickets fetched and the metrics fetched. *)
Definition rowsBeforeSort (departmentList : list department)
           (agentIdToName : gmap string string) (agentId : option string)
           (archivedFetched activeFetched : list ticket)
           (results : list (ticket * Metrics.metrics)) : list enrichedRow :=
  let archivedTickets := closedOnly (agentFilter agentId archivedFetched) in
  let activeClosedTickets := closedOnly activeFetched in
  enrich (allRows departmentList agentIdToName archivedTickets activeClosedTickets)
         (Metrics.rows agentIdToName results).

(** The first response time of the last metrics row filed under [key]. *)
Definition lastFirstResponse (key : string)
           (metricsRows : list AgentPerformance.metricRow) : option string :=
  last (List.map (fun m => Js.or_str (AgentPerformance.m_firstResponseTime m) "")
                 (filter (fun m => AgentPerformance.metricKey m = key) metricsRows)).

End ArchivedRoute.

(** ** What the aging accumulation stores, and the department totals *)

Module AgingView.
Import Ticket Aging.

(** The bucket names of the two granularities. *)
Definition bucketNames : list string := fineNames ++ coarseNames.

(** The name that the else-if chain of the fine lists picks for an age. *)
Definition fineBucket (age : Js.num) : option string :=
  if ge age 0 && lt age 8 then Some "BetweenOneAndSevenDays"%string
  else if ge age 8 && lt age 16 then Some "BetweenEightAndFifteenDays"%string
  else if ge age 16 then Some "OlderThanFifteenDays"%string
  else None.

(** The name that the else-if chain of the coarse counters picks. *)
Definition coarseBucket (age : Js.num) : option string :=
  if ge age 0 && lt age 16 then Some "BetweenOneAndFifteenDays"%string
  else if ge age 16 && lt age 31 then Some "BetweenSixteenAndThirtyDays"%string
  else if gt age 30 then Some "OlderThanThirtyDays"%string
  else None.

(** The ages, in days, that belong to a bucket name. *)
Definition inBucket (b : string) (age : Js.num) : bool :=
  if String.eqb b "BetweenOneAndSevenDays" then ge age 0 && lt age 8
  else if String.eqb b "BetweenEightAndFifteenDays" then ge age 8 && lt age 16
  else if String.eqb b "OlderThanFifteenDays" then ge age 16
  else if String.eqb b "BetweenOneAndFifteenDays" then ge age 0 && lt age 16
  else if String.eqb b "BetweenSixteenAndThirtyDays" then ge age 16 && lt age 31
  else if String.eqb b "OlderThanThirtyDays" then ge age 31
  else false.

(** The department key of a ticket in the accumulation. *)
Definition deptKey (t : ticket) : string :=
  Js.or_str (departmentId t) "no_department".

(** The ticket has a creation time and its age lies in bucket [b]. *)
Definition aged (now : Z) (b : string) (t : ticket) : bool :=
  match ageDays now (createdTime t) with
  | Some age => inBucket b age
  | None => false
  end.

(** The ticket belongs to the list of assignee [a], department [d], status
    [st] and bucket [b]. *)
Definition filed (now : Z) (a d st b : string) (t : ticket) : bool :=
  String.eqb (assigneeKey t) a && String.eqb (deptKey t) d
  && String.eqb (Status.normalizedStatus (status t)) st
  && aged now b t.

(** [ticket.ticketNumber || ticket.id] of a list of tickets. *)
Definition numbersOf (ts : list ticket) : list string :=
  List.map (fun t => Js.or_str (ticketNumber t) (id t)) ts.

(** An element of [departmentAgeBuckets]. *)
Record ageBuckets : Type := {
  departmentId : string;
  departmentName : string;
  count_1_7 : nat;
  count_8_15 : nat;
  count_15plus : nat;
  total : nat;
}.

(** [agingCounts[st + b + "Tickets"].length || 0] *)
Definition lengthOf (ac : agingCounts) (st b : string) : nat :=
  length (default [] (ticketsOf ac st b)).

(** The four lengths added for one fine bucket. *)
Definition fourLengths (ac : agingCounts) (b : string) : nat :=
  lengthOf ac "open" b + lengthOf ac "hold" b + lengthOf ac "inProgress" b
  + lengthOf ac "escalated" b.

(** One counter of the [Object.values(userDeptAgingCounts).forEach] loop
    for the department [dep]. *)
Definition sumOver (u : gmap string (gmap string agingCounts)) (dep b : string) : nat :=
  map_fold (fun _ agentDeptCounts acc =>
              match agentDeptCounts !! dep with
              | Some ac => (acc + fourLengths ac b)%nat
              | None => acc
              end) 0%nat u.

Definition departmentAgeBuckets (u : gmap string (gmap string agingCounts))
           (departmentList : list Reconcile.department) : list ageBuckets :=
  List.map (fun dep =>
              let c1 := sumOver u (Reconcile.d_id dep) "BetweenOneAndSevenDays" in
              let c2 := sumOver u (Reconcile.d_id dep) "BetweenEightAndFifteenDays" in
              let c3 := sumOver u (Reconcile.d_id dep) "OlderThanFifteenDays" in
              {| departmentId := Reconcile.d_id dep;
                 departmentName := Reconcile.d_name dep;
                 count_1_7 := c1; count_8_15 := c2; count_15plus := c3;
                 total := c1 + c2 + c3 |})
           departmentList.

(** The ticket is of department [dep], has one of the four open statuses
    and an age in bucket [b]. *)
Definition openInDept (now : Z) (dep b : string) (t : ticket) : bool :=
  String.eqb (deptKey t) dep
  && bool_decide (Status.normalizedStatus (status t) ∈ statusKeys)
  && aged now b t.

(** The ticket is of department [dep], has one of the four open statuses,
    a creation time and an age that is not negative. *)
Definition openAged (now : Z) (dep : string) (t : ticket) : bool :=
  String.eqb (deptKey t) dep
  && bool_decide (Status.normalizedStatus (status t) ∈ statusKeys)
  && match ageDays now (createdTime t) with
     | Some age => ge age 0
     | None => false
     end.

(** The number of tickets of [l] filed under assignee [a], department [d]
    and bucket [b] with one of the four open statuses. *)
Definition filedCount (now : Z) (a d b : string) (l : list ticket) : nat :=
  length (List.filter (filed now a d "open" b) l)
  + length (List.filter (filed now a d "hold" b) l)
  + length (List.filter (filed now a d "inProgress" b) l)
  + length (List.filter (filed now a d "escalated" b) l).

(** The contribution of one assignee to a counter of department [dep]. *)
Definition contribution (agentDeptCounts : gmap string agingCounts) (dep b : string) : nat :=
  match agentDeptCounts !! dep with
  | Some ac => fourLengths ac b
  | None => 0%nat
  end.

End AgingView.

(** ** Status counters of the assignee route and of the department route *)

Module StatusCounts.
Import Ticket.

(** A ticket with the two escalation fields read by the counters. *)
Record flagged : Type := {
  base : ticket;
  isEscalated : bool;
  escalated : option string;
}.

(** [ticket.isEscalated === true || String(ticket.escalated).toLowerCase() === "true"] *)
Definition isEscalatedOf (ft : flagged) : bool :=
  isEscalated ft
  || String.eqb (Js.toLowerCase (Reconcile.String_of (escalated ft))) "true".

Inductive counter : Type :=
| c_open | c_closed | c_hold | c_escalated | c_unassigned | c_inProgress.

(** The object literal of one key. *)
Record statusCounts : Type := {
  open : nat;
  closed : nat;
  hold : nat;
  escalated_ : nat;
  unassigned : nat;
  inProgress : nat;
}.

Definition zero : statusCounts :=
  {| open := 0; closed := 0; hold := 0; escalated_ := 0; unassigned := 0;
     inProgress := 0 |}.

(** [counts[c]++] *)
Definition incr (c : counter) (s : statusCounts) : statusCounts :=
  match c with
  | c_open => {| open := S (open s); closed := closed s; hold := hold s;
                 escalated_ := escalated_ s; unassigned := unassigned s;
                 inProgress := inProgress s |}
  | c_closed => {| open := open s; closed := S (closed s); hold := hold s;
                   escalated_ := escalated_ s; unassigned := unassigned s;
                   inProgress := inProgress s |}
  | c_hold => {| open := open s; closed := closed s; hold := S (hold s);
                 escalated_ := escalated_ s; unassigned := unassigned s;
                 inProgress := inProgress s |}
  | c_escalated => {| open := open s; closed := closed s; hold := hold s;
                      escalated_ := S (escalated_ s); unassigned := unassigned s;
                      inProgress := inProgress s |}
  | c_unassigned => {| open := open s; closed := closed s; hold := hold s;
                       escalated_ := escalated_ s; unassigned := S (unassigned s);
                       inProgress := inProgress s |}
  | c_inProgress => {| open := open s; closed := closed s; hold := hold s;
                       escalated_ := escalated_ s; unassigned := unassigned s;
                       inProgress := S (inProgress s) |}
  end.

Definition read (c : counter) (s : statusCounts) : nat :=
  match c with
  | c_open => open s
  | c_closed => closed s
  | c_hold => hold s
  | c_escalated => escalated_ s
  | c_unassigned => unassigned s
  | c_inProgress => inProgress s
  end.

Definition sum (s : statusCounts) : nat :=
  open s + closed s + hold s + escalated_ s + unassigned s + inProgress s.

(** The chain [else if (normalizedStatus === "escalated" || isEscalated) ...
    else if (normalizedStatus === "inProgress")] shared by the two routes:
    the counter it increments, if any. *)
Definition byStatus (normalizedStatus : string) (isEsc : bool) : option counter :=
  if String.eqb normalizedStatus "escalated" || isEsc then Some c_escalated
  else if String.eqb normalizedStatus "open" then Some c_open
  else if String.eqb normalizedStatus "hold" then Some c_hold
  else if String.eqb normalizedStatus "closed" then Some c_closed
  else if String.eqb normalizedStatus "inProgress" then Some c_inProgress
  else None.

Definition same (c c' : counter) : bool :=
  match c, c' with
  | c_open, c_open | c_closed, c_closed | c_hold, c_hold
  | c_escalated, c_escalated | c_unassigned, c_unassigned
  | c_inProgress, c_inProgress => true
  | _, _ => false
  end.

(** The chain picks the counter [c]. *)
Definition picks (c : counter) (o : option counter) : bool :=
  match o with
  | Some c' => same c c'
  | None => false
  end.

(** *** [/api/zoho-department-ticket-counts] *)

(** [!ticket.assigneeId || ["null", "none", null].includes(ticket.assigneeId)] *)
Definition noAssignee (t : ticket) : bool :=
  match assigneeId t with
  | None => true
  | Some a => negb (Js.truthy a) || String.eqb a "null" || String.eqb a "none"
  end.

(** The counter that the department route increments for a ticket. *)
Definition deptCounter (ft : flagged) : option counter :=
  let normalizedStatus := Status.normalizedStatus (status (base ft)) in
  if noAssignee (base ft) && negb (String.eqb normalizedStatus "closed")
  then Some c_unassigned
  else byStatus normalizedStatus (isEscalatedOf ft).

(** Body of [tickets.forEach] of the department route. *)
Definition dept_step (m : gmap string statusCounts) (ft : flagged)
  : gmap string statusCounts :=
  match departmentId (base ft) with
  | Some (String _ _ as deptId) =>
      match m !! deptId with
      | Some s =>
          match deptCounter ft with
          | Some c => <[ deptId := incr c s ]> m
          | None => m
          end
      | None => m
      end
  | _ => m
  end.

(** The map after [departmentList.forEach]. *)
Definition deptInit (departmentList : list Reconcile.department)
  : gmap string statusCounts :=
  foldl (fun m dep => <[ Reconcile.d_id dep := zero ]> m) ∅ departmentList.

Definition deptStatusCountMap (departmentList : list Reconcile.department)
           (tickets : list flagged) : gmap string statusCounts :=
  foldl dept_step (deptInit departmentList) tickets.

(** An element of [departmentTicketCounts]. *)
Record deptCounts : Type := {
  dc_id : string;
  dc_name : string;
  dc_tickets : statusCounts;
}.

Definition departmentTicketCounts (departmentList : list Reconcile.department)
           (tickets : list flagged) : list deptCounts :=
  List.map (fun dep =>
              {| dc_id := Reconcile.d_id dep; dc_name := Reconcile.d_name dep;
                 dc_tickets :=
                   default zero
                     (deptStatusCountMap departmentList tickets !! Reconcile.d_id dep) |})
           departmentList.

(** The ticket is of department [d]. *)
Definition inDept (d : string) (ft : flagged) : bool :=
  match departmentId (base ft) with
  | Some deptId => Js.truthy deptId && String.eqb deptId d
  | None => false
  end.

(** The ticket has an assignee, is not escalated, and its status is none
    of open, hold, closed, in progress and escalated. *)
Definition unknownAssigned (ft : flagged) : bool :=
  negb (noAssignee (base ft)) && negb (isEscalatedOf ft)
  && String.eqb (Status.normalizedStatus (status (base ft))) "unassigned".

(** The ticket of department [d] for which counter [c] is incremented. *)
Definition deptHit (d : string) (c : counter) (ft : flagged) : bool :=
  inDept d ft && picks c (deptCounter ft).

(** *** [ticketStatusCountMap] of the assignee route *)

(** [isUnassignedAssignee] *)
Definition isUnassignedAssignee (t : ticket) : bool :=
  let assigneeRaw :=
    match assigneeId t with
    | None => ""%string
    | Some a => Js.toLowerCase a
    end in
  String.eqb assigneeRaw "" || String.eqb assigneeRaw "none"
  || String.eqb assigneeRaw "null".

(** The counter that the assignee route increments for a ticket; none for
    a closed ticket without assignee, at which the body returns. *)
Definition assigneeCounter (ft : flagged) : option counter :=
  let normalizedStatus := Status.normalizedStatus (status (base ft)) in
  if isUnassignedAssignee (base ft) && String.eqb normalizedStatus "closed" then None
  else if isUnassignedAssignee (base ft) then Some c_unassigned
  else byStatus normalizedStatus (isEscalatedOf ft).

(** The part of the [tickets.forEach] body that writes
    [ticketStatusCountMap]. *)
Definition assignee_step (m : gmap string statusCounts) (ft : flagged)
  : gmap string statusCounts :=
  let assigneeId := Aging.assigneeKey (base ft) in
  let m1 :=
    match m !! assigneeId with
    | Some _ => m
    | None => <[ assigneeId := zero ]> m
    end in
  match assigneeCounter ft with
  | Some c_unassigned => alter (incr c_unassigned) "unassigned"%string m1
  | Some c => alter (incr c) assigneeId m1
  | None => m1
  end.

(** The map after [users.forEach] and the entry of "unassigned". *)
Definition assigneeInit (userIds : list string) : gmap string statusCounts :=
  <[ "unassigned"%string := zero ]>
    (foldl (fun m i => <[ i := zero ]> m) ∅ userIds).

Definition ticketStatusCountMap (userIds : list string) (tickets : list flagged)
  : gmap string statusCounts :=
  foldl assignee_step (assigneeInit userIds) tickets.

(** The ticket filed under key [k] for which counter [c] is incremented. *)
Definition assigneeHit (k : string) (c : counter) (ft : flagged) : bool :=
  String.eqb (Aging.assigneeKey (base ft)) k && picks c (assigneeCounter ft).

(** The ticket is filed under key [k]. *)
Definition underKey (k : string) (ft : flagged) : bool :=
  String.eqb (Aging.assigneeKey (base ft)) k.

(** The ticket has no assignee and is closed. *)
Definition closedUnassigned (ft : flagged) : bool :=
  isUnassignedAssignee (base ft)
  && String.eqb (Status.normalizedStatus (status (base ft))) "closed".

(** The ticket has an assignee in the sense of the assignee route, is not
    escalated, and its status is none of the five counted ones. *)
Definition unknownAssignedTo (ft : flagged) : bool :=
  negb (isUnassignedAssignee (base ft)) && negb (isEscalatedOf ft)
  && String.eqb (Status.normalizedStatus (status (base ft))) "unassigned".

(** [allUnassignedTicketNumbers] *)
Definition allUnassignedTicketNumbers (tickets : list flagged) : list string :=
  List.concat
    (List.map (fun ft =>
                 let t := base ft in
                 let ticketNumber := Js.or_str (ticketNumber t) (id t) in
                 if isUnassignedAssignee t
                    && negb (String.eqb (Status.normalizedStatus (status t)) "closed")
                    && Js.truthy ticketNumber
                 then [ticketNumber] else [])
              tickets).

End StatusCounts.

(** ** Age counters of a member row *)

Module Members.
Import Ticket Aging.

(** [tickets.filter((t) => String(t.assigneeId) === String(user.id) &&
    t.status && t.status.toLowerCase() !== "closed")] *)
Definition agentTickets (userId : string) (tickets : list ticket) : list ticket :=
  List.filter
    (fun t =>
       String.eqb (Reconcile.String_of (assigneeId t)) userId
       && match status t with
          | Some s => Js.truthy s && negb (String.eqb (Js.toLowerCase s) "closed")
          | None => false
          end)
    tickets.

(** The test shared by the six filters: the normalized status is [st] and
    the ticket has a creation time. *)
Definition withAge (now2 : Z) (st : string) (cond : Js.num -> bool) (t : ticket) : bool :=
  String.eqb (Status.normalized (status t)) st
  && match ageDays now2 (createdTime t) with
     | Some age => cond age
     | None => false
     end.

Definition betweenOneAndSevenDays (now2 : Z) (st : string) (ts : list ticket) : nat :=
  length (List.filter (withAge now2 st (fun age => lt age 8 && ge age 0)) ts).

Definition betweenEightAndFifteenDays (now2 : Z) (st : string) (ts : list ticket) : nat :=
  length (List.filter (withAge now2 st (fun age => ge age 8 && lt age 16)) ts).

Definition olderThanFifteenDays (now2 : Z) (st : string) (ts : list ticket) : nat :=
  length (List.filter (withAge now2 st (fun age => ge age 16)) ts).

Definition betweenOneAndFifteenDays (now2 : Z) (st : string) (ts : list ticket) : nat :=
  length (List.filter (withAge now2 st (fun age => lt age 16 && ge age 0)) ts).

Definition betweenSixteenAndThirtyDays (now2 : Z) (st : string) (ts : list ticket) : nat :=
  length (List.filter (withAge now2 st (fun age => ge age 16 && lt age 31)) ts).

Definition olderThanThirtyDays (now2 : Z) (st : string) (ts : list ticket) : nat :=
  length (List.filter (withAge now2 st (fun age => gt age 30)) ts).

(** The tickets of status [st] whose age is above 30 and below 31 days. *)
Definition inThirtyFirstDay (now2 : Z) (st : string) (ts : list ticket) : nat :=
  length (List.filter (withAge now2 st (fun age => gt age 30 && lt age 31)) ts).

End Members.

(** ** The yearly chart of the dashboard *)

Module YearlyChart.
Import Ticket Yearly.

(** [labels] and the [data] of the two datasets. *)
Record chart : Type := {
  labels : list Z;
  createdData : list nat;
  resolvedData : list nat;
}.

(** [Object.keys(map).map(Number).sort((a, b) => a - b)] *)
Definition years (m : gmap Z yearBucket) : list Z :=
  merge_sort Z.le (List.map fst (map_to_list m)).

(** A row of [archivedRows]: the fields that the aggregation reads and the
    two fields that the filters read. *)
Record archivedRow : Type := {
  fields : item;
  agentName : option string;
  departmentName : option string;
}.

(** [isAgentSelected = (agentName) => selectedAgents.has(agentName)] *)
Definition isAgentSelected (selectedAgents : gset string) (agentName : option string)
  : bool :=
  match agentName with
  | Some n => bool_decide (n ∈ selectedAgents)
  | None => false
  end.

(** The callback of [archivedRows.filter], the same in [yearlyData] and in
    [filteredArchivedByAgent]. *)
Definition keep (selectedAgents : gset string) (department : string) (t : archivedRow)
  : bool :=
  if (0 <? size selectedAgents)%nat
     && negb (isAgentSelected selectedAgents (agentName t)) then false
  else if negb (String.eqb department "all")
          && negb (bool_decide (departmentName t = Some department)) then false
  else true.

(** [filteredArchivedByAgent] *)
Definition filteredArchivedByAgent (selectedAgents : gset string) (department : string)
           (archivedRows : list archivedRow) : list archivedRow :=
  match archivedRows with
  | [] => []
  | _ => List.filter (keep selectedAgents department) archivedRows
  end.

(** The rows that pass the filters, read through the fields of the
    aggregation. *)
Definition shownRows (selectedAgents : gset string) (department : string)
           (archivedRows : list archivedRow) : list item :=
  List.map fields (List.filter (keep selectedAgents department) archivedRows).

Section WithCalendar.

Variable getFullYear : Z -> Z.

(** The chart object built from the rows that the loop traverses. *)
Definition chartOf (rows : list item) : chart :=
  let m := yearlyData getFullYear rows in
  let ys := years m in
  {| labels := ys;
     createdData := List.map (createdIn m) ys;
     resolvedData := List.map (resolvedIn m) ys |}.

(** [yearlyData] of the charts; [None] is the object without datasets of
    the two early returns.  The emptiness test is made on [filteredArchived],
    the loop runs over [filteredArchivedByAgent]. *)
Definition yearlyChart (selectedAgents : gset string) (department : string)
           (archivedRows : list archivedRow) : option chart :=
  match archivedRows with
  | [] => None
  | _ =>
      let filteredArchived := List.filter (keep selectedAgents department) archivedRows in
      match filteredArchived with
      | [] => None
      | _ =>
          Some (chartOf (List.map fields
                           (filteredArchivedByAgent selectedAgents department
                                                    archivedRows)))
      end
  end.

(** The row was created in year [y]; the row has a resolved-like status
    and was closed in year [y]. *)
Definition createdInYear (y : Z) (t : item) : bool :=
  bool_decide (yearOf getFullYear (createdTime t) = Some y).

Definition resolvedInYear (y : Z) (t : item) : bool :=
  Status.isResolvedLike (Js.toLowerCase (Js.or_str (status t) ""))
  && bool_decide (yearOf getFullYear (closedTime t) = Some y).

End WithCalendar.

End YearlyChart.

(** ** The age columns of the agent table *)

Module AgeTable.
Import Ticket Aging.

(** [aggregateTickets(agentRow, ageProp, status)] for the selected
    department, if any, and the [departmentAgingCounts] of the row.  The
    entries of all departments are traversed in the enumeration order of
    the object, which is not modelled. *)
Definition aggregateTickets (selectedDepartmentId : option string)
           (departmentAgingCounts : option (gmap string agingCounts))
           (ageProp status : string) : list string :=
  let selected := Js.truthy (Js.or_str selectedDepartmentId "") in
  match departmentAgingCounts with
  | Some dac =>
      if negb selected
      then flat_map (fun kv => default [] (ticketsOf (snd kv) status ageProp))
                    (map_to_list dac)
      else match dac !! Js.or_str selectedDepartmentId "" with
           | Some age => default [] (ticketsOf age status ageProp)
           | None => []
           end
  | None => []
  end.

(** [countFromArray(agentRow, ageProp, status)] *)
Definition countFromArray (selectedDepartmentId : option string)
           (departmentAgingCounts : option (gmap string agingCounts))
           (ageProp status : string) : nat :=
  length (aggregateTickets selectedDepartmentId departmentAgingCounts ageProp status).

(** [departmentAgingCounts: userDeptAgingCounts[user.id] || {}] of a member
    row of the assignee route. *)
Definition departmentAgingCounts (u : gmap string (gmap string agingCounts))
           (userId : string) : option (gmap string agingCounts) :=
  Some (default ∅ (u !! userId)).

(** The ticket is filed under assignee [a] with status [st] and an age in
    bucket [b], in whatever department. *)
Definition filedAnywhere (now : Z) (a st b : string) (t : ticket) : bool :=
  String.eqb (assigneeKey t) a
  && String.eqb (Status.normalizedStatus (status t)) st
  && AgingView.aged now b t.

End AgeTable.

(** ** The performance charts of the dashboard *)

Module Charts.

(** A field read through [toNumber]: a number, a text or nothing. *)
Inductive value : Type :=
| VNum (q : Q)
| VStr (s : string)
| VMissing.

(** [toNumber = (v) => Number(v) || 0] *)
Definition toNumber (v : value) : Q :=
  match v with
  | VNum q => q
  | VStr s => Js.or0 (Js.Number s)
  | VMissing => 0%Q
  end.

(** A row of [rows]. *)
Record row : Type := {
  agentName : option string;
  departmentName : option string;
  ticketsResolved : value;
  pendingCount : value;
}.

(** [isAgentSelected(r.agentName)] *)
Definition isAgentSelected (selectedAgents : gset string) (r : row) : bool :=
  match agentName r with
  | Some n => bool_decide (n ∈ selectedAgents)
  | None => false
  end.

(** The callback of [rows.filter] in [filteredRows]. *)
Definition keep (selectedAgents : gset string) (department : string) (r : row) : bool :=
  if (0 <? size selectedAgents)%nat && negb (isAgentSelected selectedAgents r) then false
  else if negb (String.eqb department "all")
          && negb (bool_decide (departmentName r = Some department)) then false
  else true.

Definition filteredRows (selectedAgents : gset string) (department : string)
           (rows : list row) : list row :=
  List.filter (keep selectedAgents department) rows.

Definition effectiveRows (selectedAgents : gset string) (department : string)
           (rows : list row) : list row :=
  if (size selectedAgents =? 0)%nat && String.eqb department "all" then rows
  else filteredRows selectedAgents department rows.

(** The totals of [summary]. *)
Record summary : Type := {
  totalCreated : Q;
  totalResolved : Q;
}.

Definition summarize (sortedRows : list row) : summary :=
  let '(totalResolved, totalPending) :=
    foldl (fun '(r, p) x =>
             ((r + toNumber (ticketsResolved x))%Q, (p + toNumber (pendingCount x))%Q))
          (0%Q, 0%Q) sortedRows in
  {| totalCreated := (totalResolved + totalPending)%Q;
     totalResolved := totalResolved |}.

(** The three datasets of [agentChartData]. *)
Definition createdBars (sortedRows : list row) : list Q :=
  List.map (fun r => (toNumber (ticketsResolved r) + toNumber (pendingCount r))%Q)
           sortedRows.

Definition resolvedBars (sortedRows : list row) : list Q :=
  List.map (fun r => toNumber (ticketsResolved r)) sortedRows.

Definition pendingBars (sortedRows : list row) : list Q :=
  List.map (fun r => toNumber (pendingCount r)) sortedRows.

(** The two slices of [statusSummaryData]. *)
Definition statusSlices (s : summary) : Q * Q :=
  (totalResolved s, (totalCreated s - totalResolved s)%Q).

(** The sum of a dataset. *)
Definition total (data : list Q) : Q := foldl Qplus 0%Q data.

(** *** [departmentWiseData] *)

Record deptBars : Type := {
  created : Q;
  resolved : Q;
  pending : Q;
}.

Definition zeroBars : deptBars := {| created := 0; resolved := 0; pending := 0 |}.

(** [departments.forEach((d) => map[d.name] = {created: 0, ...})] *)
Definition initBars (departments : list string) : gmap string deptBars :=
  foldl (fun m d => <[ d := zeroBars ]> m) ∅ departments.

(** Body of [source.forEach]. *)
Definition bars_step (m : gmap string deptBars) (r : row) : gmap string deptBars :=
  match departmentName r with
  | Some (String _ _ as dept) =>
      match m !! dept with
      | Some b =>
          let res := toNumber (ticketsResolved r) in
          let pen := toNumber (pendingCount r) in
          <[ dept := {| created := (created b + (res + pen))%Q;
                        resolved := (resolved b + res)%Q;
                        pending := (pending b + pen)%Q |} ]> m
      | None => m
      end
  | _ => m
  end.

(** [selectedAgents.size === 0 ? rows : rows.filter((r) => selectedAgents.has(r.agentName))] *)
Definition source (selectedAgents : gset string) (rows : list row) : list row :=
  if (size selectedAgents =? 0)%nat then rows
  else List.filter (isAgentSelected selectedAgents) rows.

(** The bars per label, in the order of [departments]; the names of the
    configured departments are the labels. *)
Definition departmentWiseData (departments : list string) (selectedAgents : gset string)
           (rows : list row) : list (string * deptBars) :=
  let m := foldl bars_step (initBars departments) (source selectedAgents rows) in
  List.map (fun d => (d, default zeroBars (m !! d))) departments.

(** The rows of [l] that name the department [d]. *)
Definition ofDepartment (d : string) (l : list row) : list row :=
  List.filter (fun r => bool_decide (departmentName r = Some d)) l.

End Charts.

(** ** Paged download of the archived tickets *)

Module Fetch.

Definition limit : Z := 100.

(** The loop of [fetchAllArchivedTickets]: [api from] is the batch that the
    helpdesk returns for the offset [from].  [fuel] bounds the number of
    further requests; the loop stops by itself at the offset 4900, so that
    49 are enough. *)
Fixpoint archivedLoop (api : Z -> list Ticket.ticket) (fuel : nat) (from : Z)
         (allTickets : list Ticket.ticket) : list Ticket.ticket :=
  let batch := api from in
  let allTickets := allTickets ++ batch in
  if (Z.of_nat (length batch) <? limit) || (4900 <=? from) then allTickets
  else match fuel with
       | O => allTickets
       | S fuel' => archivedLoop api fuel' (from + limit) allTickets
       end.

Definition fetchAllArchivedTickets (api : Z -> list Ticket.ticket) : list Ticket.ticket :=
  archivedLoop api 49 0 [].

(** The batches of the first [n] requests, in order. *)
Definition batches (api : Z -> list Ticket.ticket) (n : Z) : list Ticket.ticket :=
  concat (List.map (fun i => api (limit * i)) (seqZ 0 n)).

End Fetch.

(** ** Grouping of the pending tickets table *)

Module PendingTable.

(** A row of [pendingTableRows]. *)
Record pendingRow : Type := {
  name : string;
  department : string;
  status : string;
  ticketNumber : string;
  ticketCreated : string;
}.

(** A row of [groupedPendingRows]. *)
Record groupedRow : Type := {
  row : pendingRow;
  totalTickets : nat;
  isFirst : bool;
  rowSpan : nat;
}.

(** [if (!grouped[row.name]) grouped[row.name] = []; grouped[row.name].push(row)]
    on an object whose keys are enumerated in insertion order (agent names
    are not array indices). *)
Fixpoint push (r : pendingRow) (grouped : list (string * list pendingRow))
  : list (string * list pendingRow) :=
  match grouped with
  | [] => [(name r, [r])]
  | (agent, rs) :: rest =>
      if String.eqb agent (name r) then (agent, rs ++ [r]) :: rest
      else (agent, rs) :: push r rest
  end.

Definition group (pendingTableRows : list pendingRow) : list (string * list pendingRow) :=
  foldl (fun grouped r => push r grouped) [] pendingTableRows.

(** The rows pushed for one agent. *)
Definition annotate (rs : list pendingRow) : list groupedRow :=
  imap (fun i r => {| row := r; totalTickets := length rs;
                      isFirst := (i =? 0)%nat; rowSpan := length rs |}) rs.

Definition groupedPendingRows (pendingTableRows : list pendingRow) : list groupedRow :=
  flat_map (fun kv => annotate (snd kv)) (group pendingTableRows).

(** The agent names of the rows in the order of their first occurrence. *)
Definition firstNames (rows : list pendingRow) : list string :=
  foldl (fun seen r => if bool_decide (name r ∈ seen) then seen else seen ++ [name r])
        [] rows.

(** The rows of one agent, in order. *)
Definition rowsOf (agent : string) (rows : list pendingRow) : list pendingRow :=
  List.filter (fun r => String.eqb (name r) agent) rows.

(** The grouped row belongs to the agent. *)
Definition ofAgent (agent : string) (g : groupedRow) : bool :=
  String.eqb (name (row g)) agent.

(** The marks of a block of rows whose first row alone is marked. *)
Definition marks (rs : list pendingRow) : list bool :=
  match rs with
  | [] => []
  | _ :: rest => true :: List.map (fun _ => false) rest
  end.

End PendingTable.

(** ** Further concrete inputs *)

Module MoreSamples.

(** The metrics that the helpdesk returns for a ticket resolved in two
    hours, and for a ticket without any time. *)
Definition twoHours : Metrics.metrics :=
  {| Metrics.firstResponseTime := Some "0:30 hrs"%string;
     Metrics.resolutionTime := Some "2:00 hrs"%string;
     Metrics.responseCount := None; Metrics.threadCount := None |}.

Definition noTimes : Metrics.metrics :=
  {| Metrics.firstResponseTime := None; Metrics.resolutionTime := None;
     Metrics.responseCount := None; Metrics.threadCount := None |}.

(** The metrics fetched for the two closed tickets of agent 7: two hours
    for T1, nothing for T2. *)
Definition fetched : list (Ticket.ticket * Metrics.metrics) :=
  match Samples.closedTickets with
  | [t1; t2] => [(t1, twoHours); (t2, noTimes)]
  | _ => []
  end.

Definition fetchedRows : list AgentPerformance.metricRow :=
  Metrics.rows Samples.agentNames fetched.

(** The bucket and the response row of agent 7 for these inputs. *)
Definition fetchedBucket7 : AgentPerformance.agentBucket :=
  default (AgentPerformance.newBucket "" "")
          (AgentPerformance.withMetrics Samples.closedTickets fetchedRows !! "7"%string).

Definition row7 : AgentPerformance.agentRow := AgentPerformance.finalize fetchedBucket7.

(** The rows of [fetchTicketMetricsForTickets] for the two closed tickets
    without assignee: two hours for U1, nothing for U2. *)
Definition fetchedUnassigned : list AgentPerformance.metricRow :=
  match Samples.unassignedClosed with
  | [u1; u2] => Metrics.rows Samples.agentNames [(u1, twoHours); (u2, noTimes)]
  | _ => []
  end.

(** The rows for the two records of ticket A1, whose metrics are requested
    once per record, and for the ticket with the status "Archived". *)
Definition fetchedTwice : list AgentPerformance.metricRow :=
  Metrics.rows Samples.agentNames
    (List.map (fun t => (t, twoHours)) Samples.perfTickets).

Definition fetchedArchivedStatus : list AgentPerformance.metricRow :=
  Metrics.rows Samples.agentNames
    (List.map (fun t => (t, twoHours)) Samples.archivedStatus).

End MoreSamples.

(** * Properties *)

(** ** Shared lemmas *)

Module Common.

(** A lookup that is present returns its value, whatever the default. *)
Lemma present_default {A} (o : option A) (d : A) :
  match o with Some _ => true | None => false end = true ->
  o = Some (default d o).
Proof. destruct o; [reflexivity | discriminate]. Qed.

Lemma forallb_seqZ (f : Z -> bool) (lo len x : Z) :
  forallb f (seqZ lo len) = true -> lo <= x < lo + len -> f x = true.
Proof.
  intros Hall Hx.
  apply (proj1 (forallb_forall f (seqZ lo len)) Hall).
  apply list_elem_of_In, elem_of_seqZ. lia.
Qed.

Lemma elem_of_filter_bool {A} (f : A -> bool) (l : list A) (x : A) :
  x ∈ List.filter f l <-> x ∈ l /\ f x = true.
Proof. rewrite !list_elem_of_In. apply filter_In. Qed.

End Common.

(** ** Duration normalizer *)

Module DurationFacts.
Import Duration.

Lemma roundTrip_table :
  forallb (fun h => forallb (Samples.roundTripOk h) (seqZ 0 60)) (seqZ 0 24) = true.
Proof. vm_compute. reflexivity. Qed.

(** C9. For all integers [h] in [0,23] and [m] in [0,59], the text that
    [formatHoursToText] prints for [h*60+m] minutes (that is, for
    [(h*60+m)/60] hours) is read back by [toMinutes] as exactly [h*60+m]
    minutes. *)
Theorem format_parse_round_trip (h m : Z) :
  0 <= h <= 23 -> 0 <= m <= 59 ->
  (toMinutes (Some (formatHoursToText (inject_Z (h * 60 + m) / 60)%Q))
   == inject_Z (h * 60 + m))%Q.
Proof.
  intros Hh Hm.
  apply Qeq_bool_iff.
  change (Samples.roundTripOk h m = true).
  apply (Common.forallb_seqZ (Samples.roundTripOk h) 0 60); [|lia].
  apply (Common.forallb_seqZ (fun h => forallb (Samples.roundTripOk h) (seqZ 0 60)) 0 24);
    [apply roundTrip_table | lia].
Qed.

(** On the inputs of the round trip the double precision evaluation of the
    formatter prints the text of the exact evaluation. *)
Lemma binary64_same_text (h m : Z) :
  0 <= h <= 23 -> 0 <= m <= 59 -> Samples.sameText h m = true.
Proof.
  intros Hh Hm.
  apply (Common.forallb_seqZ (Samples.sameText h) 0 60); [|lia].
  apply (Common.forallb_seqZ (fun h => forallb (Samples.sameText h) (seqZ 0 60)) 0 24);
    [vm_compute; reflexivity | lia].
Qed.

Lemma format_parse_round_trip_witness :
  0 <= 5 <= 23 /\ 0 <= 7 <= 59 /\
  (toMinutes (Some (formatHoursToText (inject_Z (5 * 60 + 7) / 60)%Q))
   == inject_Z (5 * 60 + 7))%Q.
Proof.
  split; [lia|]. split; [lia|].
  apply (format_parse_round_trip 5 7); lia.
Defined.

(** The text printed for five hours and seven minutes. *)
Example formatHoursToText_5_07 :
  formatHoursToText (307 # 60) = "5:07"%string.
Proof. reflexivity. Qed.

(** The server's duration parser expects the "hrs" suffix of the helpdesk
    texts: on the bare "H:MM" text it reads the hours only. *)
Example parseZohoDurationToHours_bare_hm :
  (parseZohoDurationToHours (Some "5:07"%string) == 5)%Q
  /\ (parseZohoDurationToHours (Some "5:07 hrs"%string) == 307 # 60)%Q
  /\ (parseZohoDurationToHours (Some "20 days 04:40 hrs"%string) == 29080 # 60)%Q.
Proof. repeat split; vm_compute; reflexivity. Qed.

End DurationFacts.

(** ** Ticket reconciler *)

Module ReconcileFacts.
Import Ticket Reconcile.

Lemma elem_of_ids (i : string) (rows : list row) :
  i ∈ ids rows <-> exists r, r ∈ rows /\ r_id r = i.
Proof.
  unfold ids. rewrite list_elem_of_In, in_map_iff.
  split; intros (r & H1 & H2); exists r.
  - split; [by apply list_elem_of_In | done].
  - split; [done | by apply list_elem_of_In].
Qed.

Lemma ids_app (l1 l2 : list row) : ids (l1 ++ l2) = ids l1 ++ ids l2.
Proof. apply List.map_app. Qed.

(** A kept row is the first row of the input that carries its id. *)
Lemma dedupe_first (rows : list row) :
  forall seen r, r ∈ dedupe seen rows ->
    exists l1 l2, rows = l1 ++ r :: l2 /\ (r_id r ∉ ids l1) /\ (r_id r ∉ seen).
Proof.
  induction rows as [|x rest IH]; intros seen r Hr; simpl in Hr.
  - by apply elem_of_nil in Hr.
  - case_bool_decide as Hseen.
    + destruct (IH _ _ Hr) as (l1 & l2 & -> & Hn & Hs).
      exists (x :: l1), l2. split; [done|]. split; [|done].
      simpl. intros Hin. apply elem_of_cons in Hin as [Heq|Hin]; [|done].
      apply Hs. by rewrite Heq.
    + apply elem_of_cons in Hr as [->|Hr].
      * exists [], rest. repeat split; [|done]. simpl. apply not_elem_of_nil.
      * destruct (IH _ _ Hr) as (l1 & l2 & -> & Hn & Hs).
        exists (x :: l1), l2. split; [done|]. split; [|set_solver].
        simpl. intros Hin. apply elem_of_cons in Hin as [Heq|Hin]; [|done].
        apply Hs. rewrite Heq. set_solver.
Qed.

Lemma dedupe_ids (rows : list row) :
  forall seen i, i ∈ ids (dedupe seen rows) <-> i ∈ ids rows /\ i ∉ seen.
Proof.
  induction rows as [|x rest IH]; intros seen i; simpl.
  - split; [intros H; by apply elem_of_nil in H | intros [H _]; by apply elem_of_nil in H].
  - case_bool_decide as Hseen; simpl.
    + rewrite IH, elem_of_cons. split; [tauto|].
      intros [[->|H] Hn]; [done | tauto].
    + rewrite !elem_of_cons, IH.
      split.
      * intros [->|[H Hn]]; [tauto|]. split; [tauto | set_solver].
      * intros [[->|H] Hn]; [tauto|].
        destruct (decide (i = r_id x)) as [->|Hne]; [tauto|].
        right. split; [done | set_solver].
Qed.

Lemma dedupe_NoDup (rows : list row) :
  forall seen, NoDup (ids (dedupe seen rows)).
Proof.
  induction rows as [|x rest IH]; intros seen; simpl.
  - apply NoDup_nil_2.
  - case_bool_decide as Hseen; simpl; [apply IH|].
    apply NoDup_cons_2; [|apply IH].
    rewrite dedupe_ids. set_solver.
Qed.

Section Merge.
Variable departmentList : list department.
Variable agentIdToName : gmap string string.

Local Abbreviation archivedRows := (Reconcile.archivedRows departmentList agentIdToName).
Local Abbreviation activeClosedRows :=
  (Reconcile.activeClosedRows departmentList agentIdToName).
Local Abbreviation allRows := (Reconcile.allRows departmentList agentIdToName).

Lemma ids_archivedRows (ts : list ticket) : ids (archivedRows ts) = List.map id ts.
Proof. unfold ids, Reconcile.archivedRows. rewrite List.map_map. done. Qed.

Lemma ids_activeClosedRows (ts : list ticket) :
  ids (activeClosedRows ts) = List.map id ts.
Proof. unfold ids, Reconcile.activeClosedRows. rewrite List.map_map. done. Qed.

(** C1. For every pair of inputs, the merged rows carry every ticket id of
    the inputs, no other id, and each of them exactly once; a row whose id
    occurs among the archived tickets is one of the archived rows (source
    ["archived"]), whatever the active-closed list holds for that id. *)
Theorem allRows_unique_archived_first (archivedTickets activeClosedTickets : list ticket) :
  NoDup (ids (allRows archivedTickets activeClosedTickets))
  /\ (forall i, i ∈ ids (allRows archivedTickets activeClosedTickets) <->
                i ∈ List.map id archivedTickets \/ i ∈ List.map id activeClosedTickets)
  /\ (forall i, i ∈ List.map id archivedTickets \/ i ∈ List.map id activeClosedTickets ->
                length (List.filter (fun r => String.eqb (r_id r) i)
                          (allRows archivedTickets activeClosedTickets)) = 1%nat)
  /\ (forall r, r ∈ allRows archivedTickets activeClosedTickets ->
                r_id r ∈ List.map id archivedTickets ->
                r ∈ archivedRows archivedTickets /\ r_source r = archived).
Proof.
  unfold Reconcile.allRows.
  set (A := archivedRows archivedTickets).
  set (B := activeClosedRows activeClosedTickets).
  assert (Hids : forall i, i ∈ ids (dedupe ∅ (A ++ B)) <->
            i ∈ List.map id archivedTickets \/ i ∈ List.map id activeClosedTickets).
  { intros i. rewrite dedupe_ids, ids_app, elem_of_app.
    unfold A, B. rewrite ids_archivedRows, ids_activeClosedRows. set_solver. }
  split; [apply dedupe_NoDup|]. split; [exact Hids|]. split.
  - intros i Hi. apply Hids in Hi.
    pose proof (dedupe_NoDup (A ++ B) ∅) as Hnd.
    revert Hi Hnd. generalize (dedupe ∅ (A ++ B)). intros l.
    induction l as [|x l IH]; simpl; intros Hi Hnd.
    + by apply elem_of_nil in Hi.
    + apply NoDup_cons in Hnd as [Hx Hnd].
      destruct (String.eqb_spec (r_id x) i) as [Heq|Hne]; simpl.
      * f_equal. subst i.
        clear IH Hi Hnd. induction l as [|y l IH]; simpl; [done|].
        destruct (String.eqb_spec (r_id y) (r_id x)) as [Heq|Hne].
        -- exfalso. apply Hx. simpl. rewrite Heq. apply elem_of_cons. by left.
        -- apply IH. intros Hin. apply Hx. simpl. apply elem_of_cons. by right.
      * apply IH; [|done]. apply elem_of_cons in Hi as [Heq|Hi]; [|done].
        by subst i.
  - intros r Hr Hin.
    destruct (dedupe_first _ _ _ Hr) as (l1 & l2 & Hsplit & Hn & _).
    assert (Hmem : r ∈ A).
    { assert (HinA : r_id r ∈ ids A) by (unfold A; by rewrite ids_archivedRows).
      apply elem_of_ids in HinA as (r' & Hr' & Hid).
      apply list_elem_of_split in Hr' as (a1 & a2 & HA).
      (* the first row with this id lies in the archived part *)
      rewrite HA in Hsplit. rewrite <- app_assoc in Hsplit. simpl in Hsplit.
      destruct (decide (length l1 < length a1)%nat) as [Hlt|Hge].
      - rewrite HA. apply elem_of_app. left.
        assert (Hl : (a1 ++ r' :: a2 ++ B) !! length l1 = Some r).
        { rewrite Hsplit. rewrite lookup_app_r by lia.
          by rewrite Nat.sub_diag. }
        rewrite lookup_app_l in Hl by done.
        by apply list_elem_of_lookup_2 in Hl.
      - destruct (decide (length l1 = length a1)) as [Heq|Hne].
        + assert (Hl : (a1 ++ r' :: a2 ++ B) !! length l1 = Some r).
          { rewrite Hsplit. rewrite lookup_app_r by lia.
            by rewrite Nat.sub_diag. }
          rewrite Heq in Hl. rewrite lookup_app_r in Hl by lia.
          rewrite Nat.sub_diag in Hl. simpl in Hl. injection Hl as <-.
          rewrite HA. apply elem_of_app. right. apply elem_of_cons. by left.
        + exfalso. apply Hn.
          assert (Hl : l1 !! length a1 = Some r').
          { assert (Hl' : (l1 ++ r :: l2) !! length a1 = Some r').
            { rewrite <- Hsplit. rewrite lookup_app_r by lia.
              by rewrite Nat.sub_diag. }
            rewrite lookup_app_l in Hl' by lia. done. }
          apply elem_of_ids. exists r'. split; [|done].
          by apply list_elem_of_lookup_2 in Hl. }
    split; [done|].
    unfold A, Reconcile.archivedRows in Hmem.
    apply list_elem_of_In, in_map_iff in Hmem as (t & <- & _). done.
Qed.

End Merge.

(** Ticket A1 is closed in the archive and in the active list, with
    different closing times; the merged rows keep the archived record. *)
Example allRows_mixed_sources :
  Samples.mergedRows
  = [Samples.rowOf archived Samples.archivedA1;
     Samples.rowOf activeClosed Samples.activeB2]
  /\ r_status (Samples.rowOf archived Samples.archivedA1) = "closed"%string
  /\ r_agentName (Samples.rowOf archived Samples.archivedA1) = "Agent Seven"%string
  /\ r_departmentName (Samples.rowOf archived Samples.archivedA1) = "IT"%string
  /\ r_closedTime (Samples.rowOf archived Samples.archivedA1) = At (15 * Samples.day)
  /\ Qred <$> r_resolutionTimeHours (Samples.rowOf archived Samples.archivedA1)
     = Some 120%Q.
Proof. repeat split; vm_compute; reflexivity. Qed.

Lemma allRows_unique_archived_first_witness :
  Samples.rowOf archived Samples.archivedA1 ∈ Samples.mergedRows
  /\ r_id (Samples.rowOf archived Samples.archivedA1)
     ∈ List.map id [Samples.archivedA1]
  /\ Samples.rowOf archived Samples.archivedA1
     ∈ archivedRows Samples.departments Samples.agentNames [Samples.archivedA1]
  /\ r_source (Samples.rowOf archived Samples.archivedA1) = archived.
Proof.
  assert (H1 : Samples.rowOf archived Samples.archivedA1 ∈ Samples.mergedRows)
    by (vm_compute; apply list_elem_of_here).
  assert (H2 : r_id (Samples.rowOf archived Samples.archivedA1)
               ∈ List.map id [Samples.archivedA1])
    by (vm_compute; apply list_elem_of_here).
  split; [exact H1|]. split; [exact H2|].
  exact (proj2 (proj2 (proj2
           (allRows_unique_archived_first Samples.departments Samples.agentNames
              [Samples.archivedA1] [Samples.activeClosedA1; Samples.activeB2])))
           (Samples.rowOf archived Samples.archivedA1) H1 H2).
Defined.

End ReconcileFacts.

(** ** Aging bucketer *)

Module AgingFacts.
Import Ticket Aging.

Ltac in_list H :=
  repeat (apply elem_of_cons in H as [H|H]; [subst|]);
  [.. | by apply elem_of_nil in H].

Ltac str_neq :=
  let E := fresh in
  intros E; apply String.eqb_eq in E; vm_compute in E; discriminate E.

(** The property names of the object literal. *)
Example emptyAgingCounts_keys :
  (st ← statusKeys; b ← coarseNames; [countKey st b])
  = ["openBetweenOneAndFifteenDaysCount"; "openBetweenSixteenAndThirtyDaysCount";
     "openOlderThanThirtyDaysCount"; "holdBetweenOneAndFifteenDaysCount";
     "holdBetweenSixteenAndThirtyDaysCount"; "holdOlderThanThirtyDaysCount";
     "inProgressBetweenOneAndFifteenDaysCount";
     "inProgressBetweenSixteenAndThirtyDaysCount";
     "inProgressOlderThanThirtyDaysCount"; "escalatedBetweenOneAndFifteenDaysCount";
     "escalatedBetweenSixteenAndThirtyDaysCount";
     "escalatedOlderThanThirtyDaysCount"]%string
  /\ (st ← ["open"%string]; b ← coarseNames ++ fineNames; [ticketsKey st b])
     = ["openBetweenOneAndFifteenDaysTickets"; "openBetweenSixteenAndThirtyDaysTickets";
        "openOlderThanThirtyDaysTickets"; "openBetweenOneAndSevenDaysTickets";
        "openBetweenEightAndFifteenDaysTickets";
        "openOlderThanFifteenDaysTickets"]%string.
Proof. split; vm_compute; reflexivity. Qed.

Lemma paired_empty : paired emptyAgingCounts.
Proof.
  intros st b Hst Hb. in_list Hst; in_list Hb;
    exists 0%nat, []; vm_compute; done.
Qed.

Lemma countKey_inj (st b st' b' : string) :
  st ∈ statusKeys -> b ∈ coarseNames -> st' ∈ statusKeys -> b' ∈ coarseNames ->
  countKey st b = countKey st' b' -> st = st' /\ b = b'.
Proof.
  intros H1 H2 H3 H4. in_list H1; in_list H2; in_list H3; in_list H4;
    first [done | str_neq].
Qed.

Lemma ticketsKey_inj (st b st' b' : string) :
  st ∈ statusKeys -> b ∈ coarseNames -> st' ∈ statusKeys -> b' ∈ coarseNames ->
  ticketsKey st b = ticketsKey st' b' -> st = st' /\ b = b'.
Proof.
  intros H1 H2 H3 H4. in_list H1; in_list H2; in_list H3; in_list H4;
    first [done | str_neq].
Qed.

Lemma fine_not_coarse (st f st' b' : string) :
  st ∈ statusKeys -> f ∈ fineNames -> st' ∈ statusKeys -> b' ∈ coarseNames ->
  ticketsKey st f <> ticketsKey st' b'.
Proof.
  intros H1 H2 H3 H4. in_list H1; in_list H2; in_list H3; in_list H4; str_neq.
Qed.

(** Appending to a list outside the coarse buckets leaves the pairs alone. *)
Lemma paired_push_other (k v : string) (ac : agingCounts) :
  (forall st b, st ∈ statusKeys -> b ∈ coarseNames -> k <> ticketsKey st b) ->
  paired ac -> paired (push k v ac).
Proof.
  intros Hk Hp st b Hst Hb.
  destruct (Hp st b Hst Hb) as (n & l & Hn & Hl & Hlen).
  exists n, l. split; [done|]. split; [|done].
  unfold ticketsOf, push; simpl.
  rewrite lookup_alter_ne; [done|]. by apply Hk.
Qed.

(** The counter and the list of one coarse bucket move together. *)
Lemma paired_incr_push (st b v : string) (ac : agingCounts) :
  st ∈ statusKeys -> b ∈ coarseNames ->
  paired ac -> paired (push (ticketsKey st b) v (incr (countKey st b) ac)).
Proof.
  intros Hst Hb Hp st' b' Hst' Hb'.
  destruct (Hp st' b' Hst' Hb') as (n & l & Hn & Hl & Hlen).
  unfold countOf, ticketsOf, push, incr in *; simpl.
  destruct (decide (st = st' /\ b = b')) as [[-> ->]|Hne].
  - exists (S n), (l ++ [v]).
    rewrite !lookup_alter_eq, Hn, Hl; simpl.
    repeat split. rewrite length_app; simpl. lia.
  - exists n, l.
    rewrite !lookup_alter_ne; [done | |].
    + intros Heq. by apply ticketsKey_inj in Heq.
    + intros Heq. by apply countKey_inj in Heq.
Qed.

Lemma paired_fine_step (st : string) (age : Js.num) (tn : string) (ac : agingCounts) :
  st ∈ statusKeys -> paired ac -> paired (fine_step st age tn ac).
Proof.
  intros Hst Hp. unfold fine_step.
  repeat case_match; try done;
    apply paired_push_other; try done;
    intros st' b' Hst' Hb'; apply fine_not_coarse; try done;
    unfold fineNames; set_solver.
Qed.

Lemma paired_coarse_step (st : string) (age : Js.num) (tn : string) (ac : agingCounts) :
  st ∈ statusKeys -> paired ac -> paired (coarse_step st age tn ac).
Proof.
  intros Hst Hp. unfold coarse_step.
  repeat case_match; try done;
    apply paired_incr_push; try done; unfold coarseNames; set_solver.
Qed.

Lemma paired_age_step (ns : string) (age : option Js.num) (tn : string)
      (ac : agingCounts) :
  paired ac -> paired (age_step ns age tn ac).
Proof.
  intros Hp. unfold age_step. destruct age as [a|]; [|done].
  assert (Hp1 : paired (if bool_decide (ns ∈ statusKeys)
                        then fine_step ns a tn ac else ac)).
  { case_bool_decide; [by apply paired_fine_step | done]. }
  repeat case_match; try done;
    apply paired_coarse_step; try done; unfold statusKeys; set_solver.
Qed.

Lemma all_paired_ticket (now : Z) (u : gmap string (gmap string agingCounts))
      (t : ticket) :
  all_paired u -> all_paired (aging_ticket now u t).
Proof.
  intros Hu a byDept d ac. unfold aging_ticket.
  set (a0 := assigneeKey t). set (d0 := Js.or_str (departmentId t) "no_department").
  destruct (decide (a0 = a)) as [<-|Ha].
  - rewrite lookup_insert_eq. intros [= <-].
    destruct (decide (d0 = d)) as [<-|Hd].
    + rewrite lookup_insert_eq. intros [= <-].
      apply paired_age_step.
      destruct (u !! a0) as [bd|] eqn:Hbd; simpl.
      * destruct (bd !! d0) as [ac0|] eqn:Hac; simpl; [|apply paired_empty].
        by eapply Hu.
      * rewrite lookup_empty. simpl. apply paired_empty.
    + rewrite lookup_insert_ne by done.
      destruct (u !! a0) as [bd|] eqn:Hbd; simpl.
      * intros Hac. by eapply Hu.
      * by rewrite lookup_empty.
  - rewrite lookup_insert_ne by done. apply Hu.
Qed.

Lemma all_paired_fold (now : Z) (tickets : list ticket) :
  forall u, all_paired u -> all_paired (foldl (aging_ticket now) u tickets).
Proof.
  induction tickets as [|t ts IH]; intros u Hu; simpl; [done|].
  apply IH. by apply all_paired_ticket.
Qed.

(** C4. In every entry that the accumulation stores for an assignee and a
    department, and for every status and coarse bucket, the stored count is
    the length of the stored list of ticket numbers. *)
Theorem count_is_list_length (now : Z) (tickets : list ticket)
        (a d : string) (byDept : gmap string agingCounts) (ac : agingCounts)
        (st b : string) :
  userDeptAgingCounts now tickets !! a = Some byDept ->
  byDept !! d = Some ac ->
  st ∈ statusKeys -> b ∈ coarseNames ->
  exists n l, countOf ac st b = Some n /\ ticketsOf ac st b = Some l
              /\ n = length l.
Proof.
  intros Ha Hd Hst Hb.
  assert (Hall : all_paired (userDeptAgingCounts now tickets)).
  { apply all_paired_fold. intros ? ? ? ?. by rewrite lookup_empty. }
  by apply (Hall a byDept d ac Ha Hd).
Qed.

Lemma num_cmp (age c : Q) :
  ge (Some age) c = Qle_bool c age
  /\ lt (Some age) c = negb (Qle_bool c age)
  /\ gt (Some age) c = negb (Qle_bool age c).
Proof. done. Qed.

Lemma Qle_bool_true (x y : Q) : (x <= y)%Q -> Qle_bool x y = true.
Proof. apply Qle_bool_iff. Qed.

Lemma Qle_bool_false (x y : Q) : (y < x)%Q -> Qle_bool x y = false.
Proof.
  intros H. destruct (Qle_bool x y) eqn:E; [|done].
  apply Qle_bool_iff in E. exfalso. by apply (Qlt_not_le y x).
Qed.

(** C5 (amended). In the coarse granularity an age with [0 <= age < 16]
    goes to the first bucket, an age with [16 <= age < 31] to the second,
    and an age of 31 days or more to the third: the guard [age > 30] of the
    third bucket is only reached when the second guard has failed.  An age
    of exactly 30 days is counted in the second bucket.  Negative ages
    fall in no bucket. *)
Theorem coarse_bucket_boundaries (st : string) (age : Q) (tn : string)
        (ac : agingCounts) :
  ((0 <= age)%Q -> (age < 16)%Q ->
     coarse_step st (Some age) tn ac
     = push (ticketsKey st "BetweenOneAndFifteenDays") tn
            (incr (countKey st "BetweenOneAndFifteenDays") ac))
  /\ ((16 <= age)%Q -> (age < 31)%Q ->
     coarse_step st (Some age) tn ac
     = push (ticketsKey st "BetweenSixteenAndThirtyDays") tn
            (incr (countKey st "BetweenSixteenAndThirtyDays") ac))
  /\ ((31 <= age)%Q ->
     coarse_step st (Some age) tn ac
     = push (ticketsKey st "OlderThanThirtyDays") tn
            (incr (countKey st "OlderThanThirtyDays") ac))
  /\ ((age < 0)%Q -> coarse_step st (Some age) tn ac = ac)
  /\ ((age == 30)%Q ->
     coarse_step st (Some age) tn ac
     = push (ticketsKey st "BetweenSixteenAndThirtyDays") tn
            (incr (countKey st "BetweenSixteenAndThirtyDays") ac)).
Proof.
  assert (H2 : (16 <= age)%Q -> (age < 31)%Q ->
     coarse_step st (Some age) tn ac
     = push (ticketsKey st "BetweenSixteenAndThirtyDays") tn
            (incr (countKey st "BetweenSixteenAndThirtyDays") ac)).
  { intros Hlo Hhi. unfold coarse_step, ge, lt.
    rewrite (Qle_bool_true 16 age Hlo), (Qle_bool_false 31 age Hhi).
    by rewrite andb_false_r. }
  repeat split.
  - intros Hlo Hhi. unfold coarse_step, ge, lt.
    by rewrite (Qle_bool_true 0 age Hlo), (Qle_bool_false 16 age Hhi).
  - exact H2.
  - intros Hlo. unfold coarse_step, ge, lt, gt.
    assert (H16 : (16 <= age)%Q) by (eapply Qle_trans; [|exact Hlo]; done).
    assert (H30 : (30 < age)%Q) by (eapply Qlt_le_trans; [|exact Hlo]; done).
    rewrite (Qle_bool_true 16 age H16), (Qle_bool_true 31 age Hlo),
      (Qle_bool_false age 30 H30).
    by rewrite andb_false_r.
  - intros Hneg. unfold coarse_step, ge, lt, gt.
    assert (H16 : (age < 16)%Q) by (eapply Qlt_trans; [exact Hneg|]; done).
    assert (H30 : (age <= 30)%Q) by (apply Qlt_le_weak; eapply Qlt_trans; [exact Hneg|]; done).
    by rewrite (Qle_bool_false 0 age Hneg), (Qle_bool_false 16 age H16),
      (Qle_bool_true age 30 H30).
  - intros H30. apply H2.
    + rewrite H30. done.
    + rewrite H30. done.
Qed.

Lemma coarse_bucket_boundaries_witness :
  (16 <= 30)%Q /\ (30 < 31)%Q /\ (30 == 30)%Q /\
  coarse_step "open" (Some 30%Q) "T30" emptyAgingCounts
  = push (ticketsKey "open" "BetweenSixteenAndThirtyDays") "T30"
         (incr (countKey "open" "BetweenSixteenAndThirtyDays") emptyAgingCounts).
Proof.
  split; [done|]. split; [done|]. split; [done|].
  apply (coarse_bucket_boundaries "open" 30 "T30" emptyAgingCounts). done.
Defined.

(** The accumulation of one open ticket created exactly thirty days ago
    counts it in the 16-30 bucket: the ticket is not left out of both the
    second and the third coarse bucket. *)
Lemma thirty_days_counted_in_second :
  ~ (countOf Samples.entry30 "open" "BetweenSixteenAndThirtyDays" = Some 0%nat
     /\ countOf Samples.entry30 "open" "OlderThanThirtyDays" = Some 0%nat).
Proof.
  intros [H _]. vm_compute in H. discriminate H.
Qed.

Example thirty_days_entry :
  countOf Samples.entry30 "open" "BetweenSixteenAndThirtyDays" = Some 1%nat
  /\ ticketsOf Samples.entry30 "open" "BetweenSixteenAndThirtyDays" = Some ["T30"%string]
  /\ countOf Samples.entry30 "open" "OlderThanThirtyDays" = Some 0%nat
  /\ ticketsOf Samples.entry30 "open" "OlderThanFifteenDays" = Some ["T30"%string].
Proof. repeat split; vm_compute; reflexivity. Qed.

Lemma count_is_list_length_witness :
  userDeptAgingCounts Samples.now30 [Samples.thirtyDaysOld] !! "7"%string
    = Some Samples.byDept30
  /\ Samples.byDept30 !! "d1"%string = Some Samples.entry30
  /\ "open"%string ∈ statusKeys /\ "BetweenSixteenAndThirtyDays"%string ∈ coarseNames
  /\ exists n l,
       countOf Samples.entry30 "open" "BetweenSixteenAndThirtyDays" = Some n
       /\ ticketsOf Samples.entry30 "open" "BetweenSixteenAndThirtyDays" = Some l
       /\ n = length l.
Proof.
  assert (H1 : userDeptAgingCounts Samples.now30 [Samples.thirtyDaysOld] !! "7"%string
               = Some Samples.byDept30).
  { apply Common.present_default. vm_compute. reflexivity. }
  assert (H2 : Samples.byDept30 !! "d1"%string = Some Samples.entry30).
  { apply Common.present_default. vm_compute. reflexivity. }
  assert (H3 : "open"%string ∈ statusKeys) by apply list_elem_of_here.
  assert (H4 : "BetweenSixteenAndThirtyDays"%string ∈ coarseNames)
    by apply list_elem_of_further, list_elem_of_here.
  repeat (split; [assumption|]).
  exact (count_is_list_length Samples.now30 [Samples.thirtyDaysOld] "7" "d1"
           Samples.byDept30 Samples.entry30 "open" "BetweenSixteenAndThirtyDays"
           H1 H2 H3 H4).
Defined.

End AgingFacts.

(** ** Status normalizer *)

Module StatusFacts.
Import Status.

Lemma rawStatus_Some (s : string) : rawStatus (Some s) = Js.toLowerCase s.
Proof. unfold rawStatus. by destruct s. Qed.

Lemma statusMap_unknown (k : string) : k ∉ knownKeys -> statusMap !! k = None.
Proof. intros Hk. unfold statusMap. by apply not_elem_of_list_to_map. Qed.

Lemma statusMap_known (k : string) : k ∈ knownKeys -> is_Some (statusMap !! k).
Proof.
  intros Hk. unfold knownKeys in Hk.
  repeat (apply elem_of_cons in Hk as [->|Hk];
          [eexists; vm_compute; reflexivity|]).
  by apply elem_of_nil in Hk.
Qed.

(** C6 (amended). The normalization of the aging accumulation,
    [statusMap[rawStatus] || "unassigned"], is case-insensitive and maps
    "on hold"/"hold" to hold, "in progress" to inProgress, an empty or
    missing status to unassigned, "escalated" to escalated, "closed" to
    closed and "open" to open; every other raw status is collapsed to
    "unassigned".  The variant of the per status age filters,
    [statusMap[rawStatus] || rawStatus], agrees on the known statuses and
    passes every other raw status through lowercased. *)
Theorem normalizedStatus_table :
  (forall s1 s2, Js.toLowerCase s1 = Js.toLowerCase s2 ->
     normalizedStatus (Some s1) = normalizedStatus (Some s2)
     /\ normalized (Some s1) = normalized (Some s2))
  /\ (forall s k v,
        (k, v) ∈ [("on hold", "hold"); ("hold", "hold"); ("in progress", "inProgress");
                  ("", "unassigned"); ("escalated", "escalated");
                  ("closed", "closed"); ("open", "open");
                  ("unassigned", "unassigned")]%string ->
        Js.toLowerCase s = k ->
        normalizedStatus (Some s) = v /\ normalized (Some s) = v)
  /\ normalizedStatus None = "unassigned"%string
  /\ normalized None = "unassigned"%string
  /\ (forall s, Js.toLowerCase s ∉ knownKeys ->
        normalizedStatus (Some s) = "unassigned"%string
        /\ normalized (Some s) = Js.toLowerCase s).
Proof.
  split; [|split; [|split; [|split]]].
  - intros s1 s2 H. unfold normalizedStatus, normalized.
    by rewrite !rawStatus_Some, H.
  - intros s k v Hkv Hs. unfold normalizedStatus, normalized.
    rewrite rawStatus_Some, Hs.
    repeat (apply elem_of_cons in Hkv as [[= -> ->]|Hkv]; [by vm_compute|]).
    by apply elem_of_nil in Hkv.
  - by vm_compute.
  - by vm_compute.
  - intros s Hs. unfold normalizedStatus, normalized.
    rewrite rawStatus_Some, (statusMap_unknown _ Hs). done.
Qed.

Lemma normalizedStatus_table_witness :
  (Js.toLowerCase "Resolved" ∉ knownKeys)
  /\ normalizedStatus (Some "Resolved"%string) = "unassigned"%string
  /\ normalized (Some "Resolved"%string) = Js.toLowerCase "Resolved".
Proof.
  assert (H : Js.toLowerCase "Resolved" ∉ knownKeys).
  { intros Hin. vm_compute in Hin.
    repeat (apply elem_of_cons in Hin as [Hin|Hin]; [discriminate Hin|]).
    by apply elem_of_nil in Hin. }
  split; [exact H|].
  exact (proj2 (proj2 (proj2 (proj2 normalizedStatus_table))) "Resolved"%string H).
Defined.

(** The status "Resolved" is outside the known set, and the aging
    accumulation does not pass it through lowercased. *)
Lemma normalizedStatus_collapses_unknown :
  normalizedStatus (Some "Resolved"%string) <> Js.toLowerCase "Resolved".
Proof. vm_compute. discriminate. Qed.

Example normalizedStatus_examples :
  normalizedStatus (Some "On Hold"%string) = "hold"%string
  /\ normalizedStatus (Some "IN PROGRESS"%string) = "inProgress"%string
  /\ normalizedStatus (Some "Resolved"%string) = "unassigned"%string
  /\ normalized (Some "Resolved"%string) = "resolved"%string.
Proof. repeat split; vm_compute; reflexivity. Qed.

End StatusFacts.

(** ** Yearly trend aggregator *)

Module YearlyFacts.
Import Ticket Yearly.

Lemma createdIn_bump_created (y0 y : Z) (m : gmap Z yearBucket) :
  createdIn (bump addCreated y0 m) y
  = (createdIn m y + if bool_decide (y0 = y) then 1 else 0)%nat.
Proof.
  unfold createdIn, bump. case_bool_decide as H.
  - subst. rewrite lookup_insert_eq. simpl. lia.
  - rewrite lookup_insert_ne by done. lia.
Qed.

Lemma resolvedIn_bump_created (y0 y : Z) (m : gmap Z yearBucket) :
  resolvedIn (bump addCreated y0 m) y = resolvedIn m y.
Proof.
  unfold resolvedIn, bump. destruct (decide (y0 = y)) as [->|H].
  - by rewrite lookup_insert_eq.
  - by rewrite lookup_insert_ne.
Qed.

Lemma resolvedIn_bump_resolved (y0 y : Z) (m : gmap Z yearBucket) :
  resolvedIn (bump addResolved y0 m) y
  = (resolvedIn m y + if bool_decide (y0 = y) then 1 else 0)%nat.
Proof.
  unfold resolvedIn, bump. case_bool_decide as H.
  - subst. rewrite lookup_insert_eq. simpl. lia.
  - rewrite lookup_insert_ne by done. lia.
Qed.

Lemma createdIn_bump_resolved (y0 y : Z) (m : gmap Z yearBucket) :
  createdIn (bump addResolved y0 m) y = createdIn m y.
Proof.
  unfold createdIn, bump. destruct (decide (y0 = y)) as [->|H].
  - by rewrite lookup_insert_eq.
  - by rewrite lookup_insert_ne.
Qed.

Section WithCalendar.
Variable getFullYear : Z -> Z.

Lemma chart_step_created (m : gmap Z yearBucket) (t : item) (y : Z) :
  createdIn (chart_step getFullYear m t) y
  = (createdIn m y + created (increments getFullYear t y))%nat.
Proof.
  unfold chart_step, increments, hit.
  destruct (yearOf getFullYear (createdTime t)) as [yc|] eqn:Hc;
    destruct (Status.isResolvedLike _);
    destruct (yearOf getFullYear (closedTime t)) as [yr|] eqn:Hr; simpl;
    rewrite ?createdIn_bump_resolved, ?createdIn_bump_created;
    repeat case_bool_decide; simplify_eq; lia.
Qed.

Lemma chart_step_resolved (m : gmap Z yearBucket) (t : item) (y : Z) :
  resolvedIn (chart_step getFullYear m t) y
  = (resolvedIn m y + resolved (increments getFullYear t y))%nat.
Proof.
  unfold chart_step, increments, hit.
  destruct (yearOf getFullYear (createdTime t)) as [yc|] eqn:Hc;
    destruct (Status.isResolvedLike _);
    destruct (yearOf getFullYear (closedTime t)) as [yr|] eqn:Hr; simpl;
    rewrite ?resolvedIn_bump_resolved, ?resolvedIn_bump_created;
    repeat case_bool_decide; simplify_eq; lia.
Qed.

Lemma initialSummary_lookup (y : Z) :
  initialSummary !! y
  = if bool_decide (2020 <= y <= 2025) then Some zeroBucket else None.
Proof.
  case_bool_decide as H.
  - assert (Hy : y = 2020 \/ y = 2021 \/ y = 2022 \/ y = 2023 \/ y = 2024 \/ y = 2025)
      by lia.
    destruct Hy as [->|[->|[->|[->|[->| ->]]]]]; by vm_compute.
  - unfold initialSummary. apply not_elem_of_list_to_map.
    intros Hin. apply list_elem_of_fmap in Hin as ([k v] & -> & Hin).
    apply list_elem_of_In, in_map_iff in Hin as (k' & [= <- _] & Hk).
    apply list_elem_of_In, elem_of_seqZ in Hk. simpl in H. lia.
Qed.

(** The summary keeps the six years it starts with. *)
Lemma summary_step_years (s : gmap Z yearBucket) (t : item) (y : Z) :
  is_Some (summary_step getFullYear s t !! y) <-> is_Some (s !! y).
Proof.
  unfold summary_step.
  destruct (yearOf getFullYear (createdTime t)) as [yc|]; [|done].
  destruct (s !! yc) as [b|] eqn:Hb; [|done].
  destruct (Status.isResolvedLike _);
    (destruct (decide (yc = y)) as [->|Hne];
     [rewrite lookup_insert_eq, Hb; split; eauto
     | by rewrite lookup_insert_ne]).
Qed.

Lemma yearlySummary_years (ts : list item) (y : Z) :
  is_Some (yearlySummary getFullYear ts !! y) <-> 2020 <= y <= 2025.
Proof.
  unfold yearlySummary. rewrite <- (rev_involutive ts).
  induction (rev ts) as [|t l IH]; simpl.
  - rewrite initialSummary_lookup. case_bool_decide; split; eauto.
    + by intros [? ?].
    + done.
  - rewrite foldl_app. simpl. by rewrite summary_step_years.
Qed.

Lemma summary_step_created (s : gmap Z yearBucket) (t : item) (y : Z) :
  createdIn (summary_step getFullYear s t) y
  = (createdIn s y
     + if bool_decide (is_Some (s !! y))
       then created (creationYearIncrements getFullYear t y) else 0)%nat.
Proof.
  unfold summary_step, creationYearIncrements, hit, createdIn.
  destruct (yearOf getFullYear (createdTime t)) as [yc|] eqn:Hc; simpl.
  2:{ case_bool_decide; lia. }
  destruct (s !! yc) as [b|] eqn:Hb;
    destruct (Status.isResolvedLike (Js.toLowerCase (Js.or_str (status t) "")));
    destruct (decide (yc = y)) as [->|Hne];
    rewrite ?lookup_insert_eq, ?lookup_insert_ne by done;
    rewrite ?Hb; simpl;
    repeat case_bool_decide; simplify_eq; simpl; lia.
Qed.

Lemma summary_step_resolved (s : gmap Z yearBucket) (t : item) (y : Z) :
  resolvedIn (summary_step getFullYear s t) y
  = (resolvedIn s y
     + if bool_decide (is_Some (s !! y))
       then resolved (creationYearIncrements getFullYear t y) else 0)%nat.
Proof.
  unfold summary_step, creationYearIncrements, hit, resolvedIn.
  destruct (yearOf getFullYear (createdTime t)) as [yc|] eqn:Hc; simpl.
  2:{ destruct (Status.isResolvedLike _); case_bool_decide; simpl; lia. }
  destruct (s !! yc) as [b|] eqn:Hb;
    destruct (Status.isResolvedLike (Js.toLowerCase (Js.or_str (status t) "")));
    destruct (decide (yc = y)) as [->|Hne];
    rewrite ?lookup_insert_eq, ?lookup_insert_ne by done;
    rewrite ?Hb; simpl;
    repeat case_bool_decide; simplify_eq; simpl; lia.
Qed.

End WithCalendar.

(** C3 (amended). In the yearly aggregation of the charts ([yearlyData])
    every processed ticket adds one to [created] of its creation year when
    its createdTime parses and, independently, one to [resolved] of its
    closure year when its status is resolved-like and its closedTime
    parses; no other counter changes.  The server summary
    ([/api/tickets-yearly-summary]) only counts tickets whose createdTime
    parses to a year from 2020 to 2025 and adds both [created] and, for a
    resolved-like status, [resolved] to the creation year; it does not read
    closedTime. *)
Theorem yearly_increments (getFullYear : Z -> Z) (rows : list item) (t : item) (y : Z) :
  createdIn (yearlyData getFullYear (rows ++ [t])) y
  = (createdIn (yearlyData getFullYear rows) y
     + created (increments getFullYear t y))%nat
  /\ resolvedIn (yearlyData getFullYear (rows ++ [t])) y
     = (resolvedIn (yearlyData getFullYear rows) y
        + resolved (increments getFullYear t y))%nat
  /\ createdIn (yearlySummary getFullYear (rows ++ [t])) y
     = (createdIn (yearlySummary getFullYear rows) y
        + if bool_decide (2020 <= y <= 2025)%Z
          then created (creationYearIncrements getFullYear t y) else 0)%nat
  /\ resolvedIn (yearlySummary getFullYear (rows ++ [t])) y
     = (resolvedIn (yearlySummary getFullYear rows) y
        + if bool_decide (2020 <= y <= 2025)%Z
          then resolved (creationYearIncrements getFullYear t y) else 0)%nat.
Proof.
  unfold yearlyData, yearlySummary. rewrite !foldl_app. simpl.
  split; [apply chart_step_created|]. split; [apply chart_step_resolved|].
  pose proof (yearlySummary_years getFullYear rows y) as Hy.
  unfold yearlySummary in Hy.
  split.
  - rewrite summary_step_created.
    by rewrite (bool_decide_ext _ _ Hy).
  - rewrite summary_step_resolved.
    by rewrite (bool_decide_ext _ _ Hy).
Qed.

(** The cross-year ticket of the specification in the chart aggregation. *)
Example yearlyData_cross_year :
  createdIn (yearlyData utcFullYear [Samples.crossYear]) 2023 = 1%nat
  /\ resolvedIn (yearlyData utcFullYear [Samples.crossYear]) 2024 = 1%nat
  /\ resolvedIn (yearlyData utcFullYear [Samples.crossYear]) 2023 = 0%nat
  /\ createdIn (yearlyData utcFullYear [Samples.crossYear]) 2024 = 0%nat.
Proof. repeat split; vm_compute; reflexivity. Qed.

(** The same ticket in the server summary: [resolved] goes to 2023, the
    creation year, and 2024 gets nothing. *)
Lemma yearlySummary_cross_year :
  ~ (resolvedIn (yearlySummary utcFullYear [Samples.crossYear]) 2024 = 1%nat
     /\ resolvedIn (yearlySummary utcFullYear [Samples.crossYear]) 2023 = 0%nat).
Proof. intros [H _]. vm_compute in H. discriminate H. Qed.

Example yearlySummary_cross_year_values :
  createdIn (yearlySummary utcFullYear [Samples.crossYear]) 2023 = 1%nat
  /\ resolvedIn (yearlySummary utcFullYear [Samples.crossYear]) 2023 = 1%nat
  /\ resolvedIn (yearlySummary utcFullYear [Samples.crossYear]) 2024 = 0%nat.
Proof. repeat split; vm_compute; reflexivity. Qed.

End YearlyFacts.

(** ** Views: free-text search *)

Module SearchFacts.
Import Ticket View.

Local Open Scope string_scope.

Lemma append_nil (s : string) : "" ++ s = s.
Proof. reflexivity. Qed.

Lemma append_cons (a : ascii) (p s : string) : String a p ++ s = String a (p ++ s).
Proof. reflexivity. Qed.

(** [startsWith] is the prefix relation. *)
Lemma startsWith_spec (s p : string) :
  Js.startsWith s p = true <-> exists rest, s = p ++ rest.
Proof.
  revert s. induction p as [|a p IH]; intros s.
  - split; [intros _; by exists s | by destruct s].
  - destruct s as [|b s]; simpl.
    + split; [done | intros [rest H]; discriminate H].
    + destruct (Ascii.eqb_spec a b) as [->|Hne].
      * rewrite IH. split; intros [rest H]; exists rest.
        -- by rewrite append_cons, H.
        -- rewrite append_cons in H. by injection H.
      * split; [done | intros [rest H]; rewrite append_cons in H; by injection H].
Qed.

Lemma includes_nil (p : string) : Js.includes "" p = Js.startsWith "" p || false.
Proof. reflexivity. Qed.

Lemma includes_cons (c : ascii) (s p : string) :
  Js.includes (String c s) p = Js.startsWith (String c s) p || Js.includes s p.
Proof. reflexivity. Qed.

(** [includes] is the substring relation. *)
Lemma includes_spec (s p : string) :
  Js.includes s p = true <-> exists a b, s = a ++ p ++ b.
Proof.
  induction s as [|c s IH].
  - rewrite includes_nil, orb_false_r, startsWith_spec. split.
    + intros [rest H]. by exists "", rest.
    + intros (a & b & H). destruct a; [by exists b | discriminate H].
  - rewrite includes_cons, orb_true_iff, startsWith_spec, IH. split.
    + intros [[rest H]|(a & b & H)].
      * by exists "", rest.
      * exists (String c a), b. by rewrite append_cons, H.
    + intros (a & b & H). destruct a as [|c' a].
      * left. by exists b.
      * right. rewrite append_cons in H. injection H as _ H. by exists a, b.
Qed.

Lemma is_digit_lower (c : ascii) :
  Js.is_digit (Js.lower_char c) = Js.is_digit c
  /\ (Js.is_digit c = true -> Js.lower_char c = c).
Proof. destruct c as [[] [] [] [] [] [] [] []]; by vm_compute. Qed.

Lemma all_digits_lower (s : string) :
  all_digits (Js.toLowerCase s) = all_digits s
  /\ (all_digits s = true -> Js.toLowerCase s = s).
Proof.
  induction s as [|c s [IH1 IH2]]; simpl; [done|].
  destruct (is_digit_lower c) as [H1 H2]. rewrite H1, IH1. split; [done|].
  intros [Hc Hs]%andb_true_iff. by rewrite H2, IH2.
Qed.

Lemma truthy_lower (s : string) : Js.truthy (Js.toLowerCase s) = Js.truthy s.
Proof. by destruct s. Qed.

Lemma truthy_ne (s : string) : Js.truthy s = true <-> s <> "".
Proof. destruct s; simpl; split; done. Qed.

(** A purely numeric query is its own lowercase form. *)
Lemma isNumeric_lower (s : string) :
  isNumeric (Js.toLowerCase s) = isNumeric s
  /\ (isNumeric s = true -> Js.toLowerCase s = s).
Proof.
  unfold isNumeric. destruct (all_digits_lower s) as [H1 H2].
  rewrite truthy_lower, H1. split; [done|].
  intros [_ H]%andb_true_iff. by apply H2.
Qed.

Lemma all_chars_rev_acc (p : ascii -> bool) (s acc : string) :
  Js.all_chars p (Js.rev_acc s acc) = Js.all_chars p s && Js.all_chars p acc.
Proof.
  revert acc. induction s as [|c s IH]; intros acc; simpl; [done|].
  rewrite IH. simpl. destruct (p c), (Js.all_chars p s); done.
Qed.

Lemma split_ws_go_tokens (s : string) :
  forall cur gap w,
    Js.all_chars Js.not_space cur = true ->
    w ∈ Js.split_ws_go s cur gap ->
    Js.all_chars Js.not_space w = true.
Proof.
  induction s as [|c s IH]; intros cur gap w Hcur Hw; simpl in Hw.
  - apply list_elem_of_singleton in Hw as ->.
    unfold Js.rev. by rewrite all_chars_rev_acc, Hcur.
  - destruct (Js.is_space c) eqn:Hc.
    + destruct gap.
      * by apply (IH cur true).
      * apply elem_of_cons in Hw as [->|Hw].
        -- unfold Js.rev. by rewrite all_chars_rev_acc, Hcur.
        -- by apply (IH "" true).
    + apply (IH (String c cur) false); [|done].
      simpl. unfold Js.not_space at 1. by rewrite Hc.
Qed.

(** The words of an agent name are non-empty and free of white space. *)
Lemma words_tokens (agent w : string) :
  w ∈ words agent -> w <> "" /\ Js.all_chars Js.not_space w = true.
Proof.
  unfold words. rewrite Common.elem_of_filter_bool. intros [Hw Ht].
  split; [by apply truthy_ne|].
  destruct agent as [|c agent].
  - apply list_elem_of_singleton in Hw as ->. done.
  - by apply (split_ws_go_tokens (String c agent) "" false).
Qed.

(** C7 (amended). The archived table keeps a row (inside the date range,
    when one is set) exactly when the trimmed query is empty or: for a
    purely numeric query, the trimmed ticket number of the row equals the
    query; for any other query, some white-space delimited word of its
    agent name starts with the query, letter case ignored.  The metrics
    table instead keeps a row exactly when the query occurs anywhere in the
    lowercased text "agent ticket status department created" of the row. *)
Theorem search_policy (searchTerm : string) (start stop : option Z)
        (archivedRows : list archivedRow) (filteredMetricsRows : list metricsRow) :
  (forall row,
     row ∈ filteredArchivedRows searchTerm start stop archivedRows <->
     row ∈ archivedRows
     /\ ((start = None /\ stop = None) \/ inRange start stop row = true)
     /\ (Js.trim searchTerm = ""
         \/ if isNumeric (Js.trim searchTerm)
            then Js.toLowerCase (Js.trim (Js.or_str (ar_ticketNumber row) ""))
                 = Js.trim searchTerm
            else exists w rest,
                   w ∈ words (Js.toLowerCase (Js.or_str (ar_agentName row) ""))
                   /\ w = Js.toLowerCase (Js.trim searchTerm) ++ rest))
  /\ (forall r,
        r ∈ searchedMetricsRows searchTerm filteredMetricsRows <->
        r ∈ filteredMetricsRows
        /\ exists a b, combined r = a ++ Js.toLowerCase (Js.trim searchTerm) ++ b)
  /\ (forall agent w,
        w ∈ words agent -> w <> "" /\ Js.all_chars Js.not_space w = true).
Proof.
  split; [|split; [|apply words_tokens]].
  - intros row. unfold filteredArchivedRows.
    assert (Hrange :
      row ∈ match start, stop with
            | None, None => archivedRows
            | _, _ => List.filter (inRange start stop) archivedRows
            end
      <-> row ∈ archivedRows
          /\ ((start = None /\ stop = None) \/ inRange start stop row = true)).
    { destruct start, stop; rewrite ?Common.elem_of_filter_bool; naive_solver. }
    destruct (Js.truthy (Js.trim searchTerm)) eqn:Hq; simpl.
    + apply truthy_ne in Hq as Hne.
      rewrite Common.elem_of_filter_bool, Hrange. unfold searchMatch.
      destruct (isNumeric_lower (Js.trim searchTerm)) as [Hn1 Hn2]. rewrite Hn1.
      destruct (isNumeric (Js.trim searchTerm)) eqn:Hnum.
      * rewrite (Hn2 eq_refl), String.eqb_eq. tauto.
      * rewrite existsb_exists. split.
        -- intros [[H1 H2] (w & Hw & Hs)]. split; [done|]. split; [done|]. right.
           apply startsWith_spec in Hs as [rest Hs].
           exists w, rest. split; [by apply list_elem_of_In | done].
        -- intros (H1 & H2 & [Hempty|(w & rest & Hw & Hs)]); [done|].
           split; [done|].
           exists w. split; [by apply list_elem_of_In|].
           apply startsWith_spec. by exists rest.
    + rewrite Hrange.
      assert (Hempty : Js.trim searchTerm = "") by (by destruct (Js.trim searchTerm)).
      tauto.
  - intros r. unfold searchedMetricsRows. rewrite truthy_lower.
    destruct (Js.truthy (Js.trim searchTerm)) eqn:Hq.
    + by rewrite Common.elem_of_filter_bool, includes_spec.
    + assert (Hempty : Js.trim searchTerm = "") by (by destruct (Js.trim searchTerm)).
      rewrite Hempty. split; [|tauto].
      intros Hr. split; [done|]. by exists "", (combined r).
Qed.

Lemma search_policy_witness :
  Samples.archived123 ∈ filteredArchivedRows " 123 " None None
                          [Samples.archived123; Samples.archived1234]
  /\ Js.trim " 123 " <> ""
  /\ isNumeric (Js.trim " 123 ") = true
  /\ Js.toLowerCase (Js.trim (Js.or_str (ar_ticketNumber Samples.archived123) ""))
     = Js.trim " 123 ".
Proof.
  assert (Hin : Samples.archived123
                ∈ filteredArchivedRows " 123 " None None
                    [Samples.archived123; Samples.archived1234])
    by (vm_compute; apply list_elem_of_here).
  assert (Hne : Js.trim " 123 " <> "") by (vm_compute; discriminate).
  assert (Hnum : isNumeric (Js.trim " 123 ") = true) by (vm_compute; reflexivity).
  split; [exact Hin|]. split; [exact Hne|]. split; [exact Hnum|].
  destruct (proj1 (proj1 (search_policy " 123 " None None
                            [Samples.archived123; Samples.archived1234] [])
                         Samples.archived123) Hin)
    as (_ & _ & [Hempty|Hmatch]).
  - destruct (Hne Hempty).
  - rewrite Hnum in Hmatch. exact Hmatch.
Defined.

(** Archived table: the numeric query "123" keeps ticket 123 only, and the
    text query "sm" finds the agent whose second name starts with it but
    not the one that merely contains it. *)
Example archived_search_examples :
  filteredArchivedRows "123" None None [Samples.archived123; Samples.archived1234]
  = [Samples.archived123]
  /\ filteredArchivedRows " SM" None None [Samples.archived123; Samples.archived1234]
     = [Samples.archived123].
Proof. split; vm_compute; reflexivity. Qed.

(** Metrics table: with ticket numbers 123 and 1234 the query "123" keeps
    both rows, so a kept row need not carry the queried ticket number. *)
Lemma metrics_search_is_substring :
  ~ (forall r, r ∈ searchedMetricsRows "123" [Samples.metrics123; Samples.metrics1234] ->
               ticketNumber r = Some "123").
Proof.
  intros H.
  assert (Hin : Samples.metrics1234
                ∈ searchedMetricsRows "123" [Samples.metrics123; Samples.metrics1234]).
  { vm_compute. apply list_elem_of_further, list_elem_of_here. }
  specialize (H _ Hin). vm_compute in H. discriminate H.
Qed.

End SearchFacts.

(** ** Views: pages *)

Module PageFacts.
Import View.

(** The ceiling of a quotient of integers. *)
Lemma ceil_div (n size : Z) :
  0 < size ->
  Js.ceil (inject_Z n / inject_Z size)%Q = - ((- n) / size).
Proof.
  intros Hs. unfold Js.ceil.
  destruct size as [|p|p]; try lia.
  rewrite <- (Qceiling_comp _ _ (Qmake_Qdiv n p)).
  reflexivity.
Qed.

(** [totalPages] is the least number of pages, at least one, whose
    capacity covers the rows. *)
Lemma totalPages_least (n : nat) (size : Z) :
  0 < size ->
  1 <= totalPages n size
  /\ Z.of_nat n <= totalPages n size * size
  /\ (forall p, 1 <= p -> Z.of_nat n <= p * size -> totalPages n size <= p).
Proof.
  intros Hs. unfold totalPages. rewrite ceil_div by done.
  pose proof (Z.div_mod (- Z.of_nat n) size ltac:(lia)) as Hdm.
  pose proof (Z.mod_pos_bound (- Z.of_nat n) size Hs) as Hmod.
  set (q := (- Z.of_nat n) / size) in *.
  set (r := (- Z.of_nat n) mod size) in *.
  repeat split.
  - lia.
  - nia.
  - intros p Hp Hcap. nia.
Qed.

(** The slice of a page, for a page number from one on. *)
Lemma pagedRows_firstn_skipn {A} (rows : list A) (page size : Z) :
  0 < size -> 1 <= page ->
  pagedRows rows page size
  = firstn (Z.to_nat size) (skipn (Z.to_nat ((page - 1) * size)) rows).
Proof.
  intros Hs Hp. unfold pagedRows, slice.
  set (len := Z.of_nat (length rows)).
  set (start := (page - 1) * size).
  assert (Hstart : 0 <= start) by (unfold start; nia).
  rewrite (proj2 (Z.ltb_ge start 0)) by done.
  rewrite (proj2 (Z.ltb_ge (start + size) 0)) by lia.
  destruct (Z_le_gt_dec len start) as [Hle|Hgt].
  - rewrite !skipn_all2 by (unfold len in *; lia).
    by rewrite !firstn_nil.
  - rewrite (Z.min_l start len) by lia.
    destruct (Z_le_gt_dec (start + size) len) as [Hle2|Hgt2].
    + rewrite (Z.min_l (start + size) len) by lia.
      f_equal. lia.
    + rewrite (Z.min_r (start + size) len) by lia.
      rewrite !firstn_all2; [done | |];
        rewrite length_skipn; unfold len in *; lia.
Qed.

Lemma pagedRows_length {A} (rows : list A) (page size : Z) :
  0 < size -> 1 <= page ->
  Z.of_nat (length (pagedRows rows page size))
  = Z.max 0 (Z.min size (Z.of_nat (length rows) - (page - 1) * size)).
Proof.
  intros Hs Hp. rewrite pagedRows_firstn_skipn by done.
  rewrite length_firstn, length_skipn. nia.
Qed.

(** C8 (amended). [totalPages] is [max(1, ceil(rows.length / pageSize))],
    the least page count from one on that covers the rows.  The page slice
    is [rows.slice((page-1)*pageSize, (page-1)*pageSize + pageSize)] with
    no clamping of the page number: every page from 1 to [totalPages] of a
    non-empty list is non-empty, and a page beyond [totalPages] is empty.
    The page number is kept valid by the buttons: from a page within
    [1, totalPages] Prev and Next stay within it, and Next brings any page
    at or beyond [totalPages] to [totalPages]. *)
Theorem pagination_without_clamp {A} (rows : list A) (page size : Z) :
  0 < size -> 1 <= page ->
  (1 <= totalPages (length rows) size
   /\ Z.of_nat (length rows) <= totalPages (length rows) size * size
   /\ (forall p, 1 <= p -> Z.of_nat (length rows) <= p * size ->
                 totalPages (length rows) size <= p))
  /\ pagedRows rows page size
     = firstn (Z.to_nat size) (skipn (Z.to_nat ((page - 1) * size)) rows)
  /\ (page <= totalPages (length rows) size -> rows <> [] ->
      pagedRows rows page size <> [])
  /\ (totalPages (length rows) size < page -> pagedRows rows page size = [])
  /\ (page <= totalPages (length rows) size ->
      1 <= nextPage (totalPages (length rows) size) page
        <= totalPages (length rows) size
      /\ 1 <= prevPage page <= totalPages (length rows) size)
  /\ (totalPages (length rows) size <= page ->
      nextPage (totalPages (length rows) size) page
      = totalPages (length rows) size).
Proof.
  intros Hs Hp.
  pose proof (totalPages_least (length rows) size Hs) as (H1 & Hcap & Hleast).
  pose proof (pagedRows_length rows page size Hs Hp) as Hlen.
  split; [done|]. split; [by apply pagedRows_firstn_skipn|].
  split; [|split; [|split]].
  - intros Hle Hne Hnil. rewrite Hnil in Hlen. simpl in Hlen.
    assert (Hpos : (0 < length rows)%nat) by (destruct rows; [done | simpl; lia]).
    destruct (Z.eq_dec page 1) as [->|Hne1]; [lia|].
    specialize (Hleast (page - 1) ltac:(lia)). nia.
  - intros Hgt. apply length_zero_iff_nil. nia.
  - intros Hle. unfold nextPage, prevPage. lia.
  - intros Hge. unfold nextPage. lia.
Qed.

Lemma pagination_without_clamp_witness :
  0 < 20 /\ 1 <= 99
  /\ totalPages (length (seqZ 1 45)) 20 < 99
  /\ pagedRows (seqZ 1 45) 99 20 = [].
Proof.
  assert (H : totalPages (length (seqZ 1 45)) 20 < 99) by (vm_compute; reflexivity).
  split; [lia|]. split; [lia|]. split; [exact H|].
  exact (proj1 (proj2 (proj2 (proj2
           (pagination_without_clamp (seqZ 1 45) 99 20 ltac:(lia) ltac:(lia)))))
           H).
Defined.

(** Rows 1 to 45 in pages of 20: three pages; page 3 holds 41 to 45 and
    the slice of page 99 is empty, not the slice of page 3. *)
Lemma page_99_is_not_clamped :
  pagedRows (seqZ 1 45) 99 20 <> pagedRows (seqZ 1 45) 3 20.
Proof. vm_compute. discriminate. Qed.

(** The archived table with two rows: one page, and nothing on page 2. *)
Example archived_pages :
  archivedTotalPages [Samples.archived123; Samples.archived1234] = 1
  /\ pagedArchivedRows [Samples.archived123; Samples.archived1234] 1
     = [Samples.archived123; Samples.archived1234]
  /\ pagedArchivedRows [Samples.archived123; Samples.archived1234] 2 = []
  /\ metricsTotalPages [] = 1.
Proof. repeat split; vm_compute; reflexivity. Qed.

Example page_examples :
  totalPages (length (seqZ 1 45)) 20 = 3
  /\ pagedRows (seqZ 1 45) 3 20 = [41; 42; 43; 44; 45]
  /\ pagedRows (seqZ 1 45) 99 20 = []
  /\ nextPage 3 99 = 3
  /\ totalPages 0 metricsPageSize = 1.
Proof. repeat split; vm_compute; reflexivity. Qed.

End PageFacts.

(** ** Performance aggregator: created, resolved and pending tickets *)

Module AgentFacts.
Import Ticket.

Lemma size_union_le (X Y : gset string) : (size (X ∪ Y) <= size X + size Y)%nat.
Proof.
  rewrite size_union_alt.
  assert (size (Y ∖ X) <= size Y)%nat by (apply subseteq_size; set_solver).
  lia.
Qed.

(** *** The route of [agentPerformanceRoutes.js] *)

Section Routes.
Import AgentPerformance AgentPerformanceRoutes.
Variable statuses : gmap string string.

Lemma split_by_status_new (name : string) : split_by_status statuses (newBucket name).
Proof. repeat split; simpl; set_solver. Qed.

Lemma split_by_status_update (i : string) (row : metricRow) (b : bucket) :
  split_by_status statuses b ->
  split_by_status statuses (update i (Js.or_str (statuses !! i) "") row b).
Proof.
  intros (H1 & H2 & H3). unfold update, split_by_status; simpl.
  fold (resolvedAt statuses i). destruct (resolvedAt statuses i) eqn:Hr.
  - split; [rewrite H1; set_solver|]. split; [|done].
    intros j [->%elem_of_singleton|Hj]%elem_of_union; [done | by apply H2].
  - split; [rewrite H1; set_solver|]. split; [done|].
    intros j [->%elem_of_singleton|Hj]%elem_of_union; [done | by apply H3].
Qed.

Lemma split_by_status_step (m : gmap string bucket) (row : metricRow) :
  map_Forall (fun _ b => split_by_status statuses b) m ->
  map_Forall (fun _ b => split_by_status statuses b)
             (AgentPerformanceRoutes.metric_step statuses m row).
Proof.
  intros Hm. unfold AgentPerformanceRoutes.metric_step.
  destruct (negb (Js.truthy (metricKey row))); [done|].
  set (name := Js.or_str (m_agentName row) "Unassigned").
  assert (Hm' : map_Forall (fun _ b => split_by_status statuses b)
                  (match m !! name with
                   | Some _ => m
                   | None => <[ name := newBucket name ]> m
                   end)).
  { destruct (m !! name); [done|].
    apply map_Forall_insert_2; [apply split_by_status_new | done]. }
  revert Hm'. generalize (match m !! name with
                          | Some _ => m
                          | None => <[ name := newBucket name ]> m
                          end).
  intros m1 Hm1 k b. rewrite lookup_alter.
  case_decide as Hk; [|apply Hm1].
  destruct (m1 !! name) as [b0|] eqn:Hb0; simpl; [|done].
  intros [= <-]. apply split_by_status_update. by apply (Hm1 name).
Qed.

Lemma split_by_status_size (b : bucket) :
  split_by_status statuses b ->
  size (ticketIds b) = (size (resolvedIds b) + size (pendingIds b))%nat
  /\ resolvedIds b ## pendingIds b.
Proof.
  intros (H1 & H2 & H3).
  assert (Hd : resolvedIds b ## pendingIds b).
  { intros i Hr Hp. apply H2 in Hr. apply H3 in Hp. congruence. }
  split; [|done]. rewrite H1. by apply size_union.
Qed.

End Routes.

Lemma routes_split (allTickets : list ticket)
      (metricRows : list AgentPerformance.metricRow) :
  map_Forall
    (fun _ b => AgentPerformanceRoutes.split_by_status
                (AgentPerformanceRoutes.ticketStatusMap allTickets) b)
    (AgentPerformanceRoutes.agentsMap allTickets metricRows).
Proof.
  unfold AgentPerformanceRoutes.agentsMap.
  generalize (AgentPerformanceRoutes.ticketStatusMap allTickets). intros statuses.
  rewrite <- (rev_involutive metricRows).
  induction (rev metricRows) as [|row l IH]; simpl.
  - apply map_Forall_empty.
  - rewrite foldl_app. simpl. by apply split_by_status_step.
Qed.

(** *** The route of the server file *)

Section Server.
Import AgentPerformance.

Lemma traced_mono (seen : list ticket) (t : ticket) (b : agentBucket) :
  traced seen b -> traced (seen ++ [t]) b.
Proof.
  intros [H1 H2]. split; intros i Hi.
  - destruct (H1 i Hi) as (t0 & Hin & Hk). exists t0. split; [set_solver | done].
  - destruct (H2 i Hi) as (t0 & Hin & Hk). exists t0. split; [set_solver | done].
Qed.

Lemma classify_covered (i status : string) (b : agentBucket) :
  covered b -> covered (classify i status b).
Proof.
  unfold covered, classify. intros H.
  destruct (Status.isResolvedLike status); simpl; rewrite H; set_solver.
Qed.

Lemma ticket_step_inv (seen : list ticket) (st : state) (t : ticket) :
  map_Forall (fun _ b => covered b /\ traced seen b) (snd st) ->
  map_Forall (fun _ b => covered b /\ traced (seen ++ [t]) b)
             (snd (ticket_step st t)).
Proof.
  destruct st as [sm bm]. simpl. intros Hm. unfold ticket_step.
  set (agentKey := Js.or_str (assigneeId t) "unassigned").
  assert (Hm' : map_Forall (fun _ b => covered b /\ traced (seen ++ [t]) b)
                  (match bm !! agentKey with
                   | Some _ => bm
                   | None => <[ agentKey := newBucket agentKey (nameFromTicket t) ]> bm
                   end)).
  { assert (Hbm : map_Forall (fun _ b => covered b /\ traced (seen ++ [t]) b) bm).
    { intros k b Hb. destruct (Hm k b Hb). split; [done | by apply traced_mono]. }
    destruct (bm !! agentKey); [done|].
    apply map_Forall_insert_2; [|done].
    split; [unfold covered; simpl; set_solver|].
    split; intros i Hi; simpl in Hi; set_solver. }
  destruct (Js.truthy (ticketKey t)) eqn:Hkey; simpl; [|done].
  rewrite lookup_insert_eq. simpl.
  assert (Hown : (if Js.truthy (Js.toLowerCase (Js.or_str (status t) ""))
                  then Js.toLowerCase (Js.or_str (status t) "") else ""%string)
                 = Js.toLowerCase (Js.or_str (status t) "")).
  { by destruct (Js.toLowerCase (Js.or_str (status t) "")). }
  rewrite Hown.
  revert Hm'. generalize (match bm !! agentKey with
                          | Some _ => bm
                          | None => <[ agentKey := newBucket agentKey (nameFromTicket t) ]> bm
                          end).
  intros m1 Hm1 k b. rewrite lookup_alter. case_decide as Hk; [|apply Hm1].
  destruct (m1 !! agentKey) as [b0|] eqn:Hb0; simpl; [|done].
  intros [= <-]. destruct (Hm1 agentKey b0 Hb0) as [Hc [Ht1 Ht2]].
  split; [by apply classify_covered|].
  unfold classify.
  destruct (Status.isResolvedLike (Js.toLowerCase (Js.or_str (status t) ""))) eqn:Hr;
    split; simpl; intros i Hi; try (by auto).
  - apply elem_of_union in Hi as [->%elem_of_singleton|Hi]; [|by auto].
    exists t. split; [set_solver | done].
  - apply elem_of_union in Hi as [->%elem_of_singleton|Hi]; [|by auto].
    exists t. split; [set_solver | done].
Qed.

Lemma baseAgents_inv (allTickets : list ticket) :
  map_Forall (fun _ b => covered b /\ traced allTickets b)
             (snd (baseAgents allTickets)).
Proof.
  unfold baseAgents. rewrite <- (rev_involutive allTickets).
  induction (rev allTickets) as [|t l IH]; simpl.
  - apply map_Forall_empty.
  - rewrite foldl_app. simpl. by apply ticket_step_inv.
Qed.

Lemma metric_step_inv (seen : list ticket) (sm : gmap string string)
      (bm : gmap string agentBucket) (row : metricRow) :
  map_Forall (fun _ b => covered b /\ traced seen b) bm ->
  map_Forall (fun _ b => covered b /\ traced seen b) (metric_step sm bm row).
Proof.
  intros Hm. unfold metric_step.
  destruct (negb (Js.truthy (metricKey row))); [done|].
  set (agentKey := Js.or_str (Js.or_opt (m_agentId row) (m_assigneeId row)) "unassigned").
  assert (Hm' : map_Forall (fun _ b => covered b /\ traced seen b)
                  (match bm !! agentKey with
                   | Some _ => bm
                   | None =>
                       <[ agentKey := newBucket agentKey
                                        (Js.or_str (m_agentName row) "Unassigned") ]> bm
                   end)).
  { destruct (bm !! agentKey); [done|].
    apply map_Forall_insert_2; [|done].
    split; [unfold covered; simpl; set_solver|].
    split; intros i Hi; simpl in Hi; set_solver. }
  revert Hm'. generalize (match bm !! agentKey with
                          | Some _ => bm
                          | None =>
                              <[ agentKey := newBucket agentKey
                                               (Js.or_str (m_agentName row) "Unassigned") ]> bm
                          end).
  intros m1 Hm1.
  destruct (Status.isResolvedLike _); [|done].
  destruct (Qle_bool 0 _); [|done].
  intros k b. rewrite lookup_alter. case_decide as Hk; [|apply Hm1].
  destruct (m1 !! agentKey) as [b0|] eqn:Hb0; simpl; [|done].
  intros [= <-]. by apply (Hm1 agentKey b0).
Qed.

Lemma withMetrics_inv (allTickets : list ticket) (metricRows : list metricRow) :
  map_Forall (fun _ b => covered b /\ traced allTickets b)
             (withMetrics allTickets metricRows).
Proof.
  unfold withMetrics. pose proof (baseAgents_inv allTickets) as H.
  destruct (baseAgents allTickets) as [sm bm]. simpl in H.
  rewrite <- (rev_involutive metricRows).
  induction (rev metricRows) as [|row l IH]; simpl; [done|].
  rewrite foldl_app. simpl. by apply metric_step_inv.
Qed.

End Server.

Import AgentPerformance (consistent, covered).

(** What the two routes keep.  In the route of [agentPerformanceRoutes.js],
    where the status map is complete before the rows are classified, every
    ticket id of an agent is in exactly one of resolvedIds and pendingIds:
    in resolvedIds when the status recorded for it is "closed" or
    "resolved", in pendingIds otherwise.  In the route of the server file,
    which classifies every ticket by its own status while the list is
    traversed, an id is in resolvedIds when some ticket with that key has
    one of the four resolved statuses and in pendingIds when some ticket
    with that key has another status; every id is in one of the two sets at
    least, and in one only when no key occurs with statuses of both
    kinds. *)
Lemma classification_invariants (allTickets : list ticket)
      (metricRows : list AgentPerformance.metricRow) :
  (forall name b,
     AgentPerformanceRoutes.agentsMap allTickets metricRows !! name = Some b ->
     AgentPerformanceRoutes.ticketIds b
       = AgentPerformanceRoutes.resolvedIds b ∪ AgentPerformanceRoutes.pendingIds b
     /\ (forall i, i ∈ AgentPerformanceRoutes.resolvedIds b ->
           AgentPerformanceRoutes.resolvedAt
             (AgentPerformanceRoutes.ticketStatusMap allTickets) i = true)
     /\ (forall i, i ∈ AgentPerformanceRoutes.pendingIds b ->
           AgentPerformanceRoutes.resolvedAt
             (AgentPerformanceRoutes.ticketStatusMap allTickets) i = false)
     /\ AgentPerformanceRoutes.resolvedIds b ## AgentPerformanceRoutes.pendingIds b
     /\ AgentPerformanceRoutes.ticketsCreated (AgentPerformanceRoutes.finalize b)
        = (AgentPerformanceRoutes.ticketsResolved (AgentPerformanceRoutes.finalize b)
           + AgentPerformanceRoutes.pendingTickets (AgentPerformanceRoutes.finalize b))%nat)
  /\ (forall key b,
        AgentPerformance.withMetrics allTickets metricRows !! key = Some b ->
        AgentPerformance.ticketIds b
          = AgentPerformance.resolvedIds b ∪ AgentPerformance.pendingIds b
        /\ AgentPerformance.traced allTickets b
        /\ (AgentPerformance.ticketsCreated (AgentPerformance.finalize b)
            <= AgentPerformance.ticketsResolved (AgentPerformance.finalize b)
               + AgentPerformance.pendingCount (AgentPerformance.finalize b))%nat
        /\ (consistent allTickets ->
            AgentPerformance.resolvedIds b ## AgentPerformance.pendingIds b
            /\ AgentPerformance.ticketsCreated (AgentPerformance.finalize b)
               = (AgentPerformance.ticketsResolved (AgentPerformance.finalize b)
                  + AgentPerformance.pendingCount (AgentPerformance.finalize b))%nat)).
Proof.
  split.
  - intros name b Hb.
    pose proof (routes_split allTickets metricRows name b Hb) as Hs.
    destruct (split_by_status_size _ b Hs) as [Hsize Hdisj].
    destruct Hs as (H1 & H2 & H3). done.
  - intros key b Hb.
    destruct (withMetrics_inv allTickets metricRows key b Hb) as [Hc [Ht1 Ht2]].
    unfold covered in Hc. split; [done|]. split; [done|]. simpl. split.
    + rewrite Hc. apply size_union_le.
    + intros Hcons.
      assert (Hd : AgentPerformance.resolvedIds b ## AgentPerformance.pendingIds b).
      { intros i Hr Hp.
        destruct (Ht1 i Hr) as (t1 & Hin1 & Hk1 & Hr1).
        destruct (Ht2 i Hp) as (t2 & Hin2 & Hk2 & Hr2).
        pose proof (Hcons t1 t2 Hin1 Hin2 ltac:(congruence)). congruence. }
      split; [done|]. rewrite Hc. by apply size_union.
Qed.

(** C10. The classification of the two routes at two inputs, with the
    metric rows that [fetchTicketMetricsForTickets] builds for them.
    Ticket A1 is listed as open among the active tickets and as closed in
    the archive: the server route, which looks the status up while the
    status map is being filled, files the id under resolvedIds and under
    pendingIds of agent 7, and the row has one ticket created, one resolved
    and one pending; the route of [agentPerformanceRoutes.js], which
    completes the status map first, files the id once.  A ticket with the
    status "Archived" is resolved for the server route, whose set of
    resolved statuses has four members, and pending for the route of
    [agentPerformanceRoutes.js], which tests "closed" and "resolved"
    only. *)
Theorem classification_diverges :
  AgentPerformance.filing "A1" <$> (AgentPerformance.withMetrics Samples.perfTickets
                     MoreSamples.fetchedTwice !! "7"%string)
  = Some (["A1"%string], true, true)
  /\ AgentPerformance.counts <$> AgentPerformance.agentOf Samples.perfTickets MoreSamples.fetchedTwice "7"
     = Some (1, 1, 1)%nat
  /\ AgentPerformanceRoutes.counts <$> AgentPerformanceRoutes.agentOf Samples.perfTickets
                        MoreSamples.fetchedTwice "Agent Seven"
     = Some (1, 1, 0)%nat
  /\ AgentPerformance.counts <$> AgentPerformance.agentOf Samples.archivedStatus
                  MoreSamples.fetchedArchivedStatus "7"
     = Some (1, 1, 0)%nat
  /\ AgentPerformanceRoutes.counts <$> AgentPerformanceRoutes.agentOf Samples.archivedStatus
                        MoreSamples.fetchedArchivedStatus "Agent Seven"
     = Some (1, 0, 1)%nat.
Proof. repeat split; vm_compute; reflexivity. Qed.

(** With ticket A1 in two records the summary of the server route reports
    two tickets created, the sum of the resolved and the pending ones,
    where the row of the only agent reports one. *)
Example server_summary_adds_up :
  AgentPerformance.totalCreated
    <$> AgentPerformance.summaryOf Samples.perfTickets MoreSamples.fetchedTwice
  = Some 2%nat
  /\ AgentPerformance.ticketsCreated
       <$> AgentPerformance.agentOf Samples.perfTickets MoreSamples.fetchedTwice "7"
     = Some 1%nat.
Proof. split; vm_compute; reflexivity. Qed.

(** *** Averages *)

(** C2. The resolution overlay of the server route at two closed tickets
    without assignee, with the metric rows that
    [fetchTicketMetricsForTickets] builds for them: U1 was resolved in two
    hours and the metrics of U2 carry no resolution time.  The row without
    a duration is counted, with zero hours: the count is two, the sum two
    hours and the average one hour, shown as "1:00", where the mean of the
    present durations is two hours; the binary64 evaluation of this sum and
    quotient prints the same text.  The route of
    [agentPerformanceRoutes.js] counts one duration and averages two hours
    on the same input.  For the two closed tickets of agent 7 the same
    count and average appear under the key "unassigned", to which the
    overlay credits every fetched row. *)
Theorem overlay_counts_missing_duration :
  AgentPerformance.resolutionCount
    <$> (AgentPerformance.withMetrics Samples.unassignedClosed
           MoreSamples.fetchedUnassigned !! "unassigned"%string) = Some 2%nat
  /\ Qred <$> (AgentPerformance.totalResolutionHours
                 <$> (AgentPerformance.withMetrics Samples.unassignedClosed
                        MoreSamples.fetchedUnassigned !! "unassigned"%string))
     = Some 2%Q
  /\ AgentPerformance.avgResolutionText
       <$> AgentPerformance.agentOf Samples.unassignedClosed
             MoreSamples.fetchedUnassigned "unassigned"
     = Some "1:00"%string
  /\ Binary64.formatHoursToText
       (PrimFloat.div (PrimFloat.add (Binary64.of_Z 2) (Binary64.of_Z 0))
                      (Binary64.of_Z 2))
     = "1:00"%string
  /\ AgentPerformanceRoutes.resolutionCount
       <$> (AgentPerformanceRoutes.agentsMap Samples.unassignedClosed
              MoreSamples.fetchedUnassigned !! "Unassigned"%string) = Some 1%nat
  /\ Duration.formatHoursToText
       <$> (AgentPerformanceRoutes.avgResolutionHours
              <$> AgentPerformanceRoutes.agentOf Samples.unassignedClosed
                    MoreSamples.fetchedUnassigned "Unassigned")
     = Some "2:00"%string
  /\ AgentPerformance.resolutionCount
       <$> (AgentPerformance.withMetrics Samples.closedTickets
              MoreSamples.fetchedRows !! "unassigned"%string) = Some 2%nat
  /\ AgentPerformance.avgResolutionText
       <$> AgentPerformance.agentOf Samples.closedTickets
             MoreSamples.fetchedRows "unassigned"
     = Some "1:00"%string.
Proof. repeat split; vm_compute; reflexivity. Qed.

(** The guard [resHrs >= 0] of the overlay holds for a missing duration,
    which reaches the overlay as the empty text and which the parser turns
    into zero hours: such a row raises the count and leaves the sum. *)
Lemma overlay_missing_is_zero (sm : gmap string string)
      (bm : gmap string AgentPerformance.agentBucket)
      (row : AgentPerformance.metricRow) (b : AgentPerformance.agentBucket) :
  Js.truthy (AgentPerformance.metricKey row) = true ->
  Status.isResolvedLike (Js.or_str (sm !! AgentPerformance.metricKey row) "") = true ->
  AgentPerformance.m_resolutionTime row = None
  \/ AgentPerformance.m_resolutionTime row = Some ""%string ->
  bm !! Js.or_str (Js.or_opt (AgentPerformance.m_agentId row)
                             (AgentPerformance.m_assigneeId row)) "unassigned"
    = Some b ->
  exists b',
    AgentPerformance.metric_step sm bm row
      !! Js.or_str (Js.or_opt (AgentPerformance.m_agentId row)
                              (AgentPerformance.m_assigneeId row)) "unassigned"
    = Some b'
    /\ AgentPerformance.resolutionCount b' = S (AgentPerformance.resolutionCount b)
    /\ (AgentPerformance.totalResolutionHours b'
        == AgentPerformance.totalResolutionHours b)%Q.
Proof.
  intros Hk Hr Hnone Hb. unfold AgentPerformance.metric_step.
  rewrite Hk, Hb, Hr.
  assert (H0 : Duration.parseZohoDurationToHours (AgentPerformance.m_resolutionTime row)
               = 0%Q) by (by destruct Hnone as [-> | ->]).
  rewrite H0. simpl.
  rewrite lookup_alter_eq, Hb. simpl. eexists. split; [reflexivity|].
  simpl. split; [done|]. ring.
Qed.

(** The sibling route tests [resHrs > 0]: a missing duration changes
    neither the sum nor the count. *)
Lemma routes_skip_missing (i status : string) (row : AgentPerformance.metricRow)
      (b : AgentPerformanceRoutes.bucket) :
  AgentPerformance.m_resolutionTime row = None
  \/ AgentPerformance.m_resolutionTime row = Some ""%string ->
  AgentPerformanceRoutes.resolutionCount (AgentPerformanceRoutes.update i status row b)
  = AgentPerformanceRoutes.resolutionCount b
  /\ AgentPerformanceRoutes.totalResolutionHours
       (AgentPerformanceRoutes.update i status row b)
     = AgentPerformanceRoutes.totalResolutionHours b.
Proof. intros [H|H]; unfold AgentPerformanceRoutes.update; rewrite H; done. Qed.

Section AgentAverageMap.
Import View.
Variable zohoHrsToMinutes : option string -> option Q.

Lemma presentValues_snoc (field : metricsRow -> option string) (name : string)
      (rows : list metricsRow) (row : metricsRow) :
  presentValues zohoHrsToMinutes field name (rows ++ [row])
  = presentValues zohoHrsToMinutes field name rows
    ++ (if String.eqb (Js.or_str (agentName row) "Unknown") name
        then match zohoHrsToMinutes (field row) with
             | Some v => [v]
             | None => []
             end
        else []).
Proof.
  unfold presentValues. rewrite omap_app. simpl.
  destruct (String.eqb _ name); [|done].
  by destruct (zohoHrsToMinutes (field row)).
Qed.

(** The accumulator of an agent holds the sum and the number of the
    durations that are present in the agent's rows; a row without a
    duration adds to neither. *)
Lemma add_row_sums (rows : list metricsRow) (name : string) :
  let acc := foldl (add_row zohoHrsToMinutes) ∅ rows in
  let fr := presentValues zohoHrsToMinutes firstResponseTime name rows in
  let res := presentValues zohoHrsToMinutes resolutionTime name rows in
  match acc !! name with
  | Some v =>
      frSum v = foldl Qplus 0%Q fr /\ frCount v = length fr
      /\ resSum v = foldl Qplus 0%Q res /\ resCount v = length res
  | None => fr = [] /\ res = []
  end.
Proof.
  rewrite <- (rev_involutive rows).
  induction (rev rows) as [|row l IH]; simpl; [by rewrite lookup_empty|].
  rewrite foldl_app. simpl in *.
  rewrite !presentValues_snoc.
  set (acc := foldl (add_row zohoHrsToMinutes) ∅ (rev l)) in *.
  unfold add_row at 1.
  destruct (String.eqb_spec (Js.or_str (agentName row) "Unknown") name) as [->|Hne].
  - rewrite lookup_insert_eq.
    destruct (acc !! name) as [v|]; simpl.
    + destruct IH as (H1 & H2 & H3 & H4).
      destruct (zohoHrsToMinutes (firstResponseTime row));
        destruct (zohoHrsToMinutes (resolutionTime row)); simpl;
        rewrite ?foldl_app, ?length_app, ?app_nil_r; simpl;
        rewrite ?H1, ?H2, ?H3, ?H4; repeat split; lia.
    + destruct IH as (-> & ->).
      destruct (zohoHrsToMinutes (firstResponseTime row));
        destruct (zohoHrsToMinutes (resolutionTime row)); simpl; done.
  - rewrite lookup_insert_ne by done. by rewrite !app_nil_r.
Qed.

(** The averages shown for an agent: the rounded mean of the present
    durations, or no value when none is present. *)
Lemma agentAverageMap_mean (minutesToHM : Z -> string)
      (rows : list metricsRow) (name : string) (out : averageText) :
  agentAverageMap zohoHrsToMinutes minutesToHM rows !! name = Some out ->
  avgFirstResponseMin out
  = roundedMean
      (foldl Qplus 0%Q (presentValues zohoHrsToMinutes firstResponseTime name rows))
      (length (presentValues zohoHrsToMinutes firstResponseTime name rows))
  /\ avgResolutionMin out
     = roundedMean
         (foldl Qplus 0%Q (presentValues zohoHrsToMinutes resolutionTime name rows))
         (length (presentValues zohoHrsToMinutes resolutionTime name rows)).
Proof.
  unfold agentAverageMap. rewrite lookup_fmap.
  pose proof (add_row_sums rows name) as H. simpl in H.
  destruct (foldl (add_row zohoHrsToMinutes) ∅ rows !! name) as [v|]; [|done].
  simpl. intros [= <-]. destruct H as (H1 & H2 & H3 & H4).
  unfold format; simpl. by rewrite H1, H2, H3, H4.
Qed.

End AgentAverageMap.

(** The example of the specification, with the chart parser for "H:MM"
    texts standing for the utility of the component: durations 1:00,
    missing and 3:00 average to 120 minutes, not 80. *)
Example average_exclusion :
  View.avgFirstResponseMin
    <$> (View.agentAverageMap Samples.hmMinutes Js.string_of_Z
           Samples.threeRows !! "Ann"%string)
  = Some (Some 120).
Proof. vm_compute. reflexivity. Qed.

End AgentFacts.

(** * Further properties of the routes and views *)

(** ** Soundness of the backtracking matcher *)

Module RegexFacts.
Import Regex RegexSpec.

Lemma try_down_sound {A} (lo extra : nat) (k : nat -> option A) (x : A) :
  try_down lo extra k = Some x ->
  exists j, (lo <= j <= lo + extra)%nat /\ k j = Some x.
Proof.
  induction extra as [|e IH]; simpl.
  - destruct (k (lo + 0)%nat) eqn:E; [|discriminate].
    intros [= <-]. exists (lo + 0)%nat. split; [lia|done].
  - destruct (k (lo + S e)%nat) eqn:E.
    + intros [= <-]. exists (lo + S e)%nat. split; [lia|done].
    + intros H. destruct (IH H) as (j & Hj & Hk). exists j. split; [lia|done].
Qed.

(** Whatever [exec] returns was returned by its continuation on a state
    that the expression can reach. *)
Lemma exec_sound {A} (r : re) :
  forall (s : string) (cs : caps) (k : string -> caps -> option A) (x : A),
    exec r s cs k = Some x ->
    exists s' cs', post r s cs s' cs' /\ k s' cs' = Some x.
Proof.
  induction r as [|p lo hi|r1 IH1 r2 IH2|r1 IH1|i r1 IH1]; intros s cs k x; simpl.
  - intros H. exists s, cs. done.
  - destruct (run_length p s hi <? lo)%nat eqn:E; [discriminate|].
    apply Nat.ltb_ge in E. intros H.
    destruct (try_down_sound _ _ _ _ H) as (j & Hj & Hk).
    exists (drop j s), cs. split; [|done]. split; [done|].
    exists j. split; [lia|done].
  - intros H. destruct (IH1 _ _ _ _ H) as (s1 & cs1 & H1 & Hk1).
    destruct (IH2 _ _ _ _ Hk1) as (s2 & cs2 & H2 & Hk2).
    exists s2, cs2. split; [|done]. exists s1, cs1. done.
  - destruct (exec r1 s cs k) eqn:E.
    + intros [= <-]. destruct (IH1 _ _ _ _ E) as (s1 & cs1 & H1 & Hk1).
      exists s1, cs1. split; [by left|done].
    + intros H. exists s, cs. split; [by right|done].
  - intros H. destruct (IH1 _ _ _ _ H) as (s1 & cs1 & H1 & Hk1).
    eexists s1, _. split; [|exact Hk1]. exists cs1. done.
Qed.

Lemma search_sound (r : re) (s : string) (m : caps) :
  search r s = Some m -> exists t s', post r t [] s' m.
Proof.
  induction s as [|c s IH]; simpl.
  - unfold match_here. destruct (exec r "" [] _) eqn:E; [|discriminate].
    intros [= <-]. destruct (exec_sound _ _ _ _ _ E) as (s' & cs' & H & [= <-]).
    by exists ""%string, s'.
  - unfold match_here. destruct (exec r (String c s) [] _) eqn:E.
    + intros [= <-]. destruct (exec_sound _ _ _ _ _ E) as (s' & cs' & H & [= <-]).
      by exists (String c s), s'.
    + apply IH.
Qed.

Lemma run_length_le (p : ascii -> bool) (s : string) (hi : option nat) :
  (run_length p s hi <= String.length s)%nat.
Proof.
  revert hi. induction s as [|c s IH]; intros hi.
  - destruct hi as [[|b]|]; simpl; lia.
  - destruct hi as [[|b]|]; simpl; [lia| |]; destruct (p c); simpl; try lia.
    + specialize (IH (Some b)). lia.
    + specialize (IH None). lia.
Qed.

Lemma length_drop (j : nat) (s : string) :
  (j <= String.length s)%nat ->
  String.length (drop j s) = (String.length s - j)%nat.
Proof.
  revert s. induction j as [|j IH]; intros [|c s]; simpl; try lia.
  intros H. apply IH. lia.
Qed.

(** A prefix inside a run of [p] characters is made of [p] characters. *)
Lemma take_run_all (p : ascii -> bool) (j : nat) :
  forall (s : string) (hi : option nat),
    (j <= run_length p s hi)%nat -> Js.all_chars p (take j s) = true.
Proof.
  induction j as [|j IH]; intros s hi H.
  - by destruct s.
  - destruct s as [|c s]; [by destruct hi as [[|b]|]; simpl in H; lia|].
    destruct hi as [[|b]|]; simpl in H; [lia| |];
      destruct (p c) eqn:Ep; try lia; simpl; rewrite Ep; simpl;
      eapply IH; apply le_S_n, H.
Qed.

Lemma take_run_head (p : ascii -> bool) (j : nat) (s : string) (hi : option nat) :
  (1 <= j <= run_length p s hi)%nat -> head_is p (take j s) = true.
Proof.
  intros [H1 H2]. destruct j as [|j]; [lia|].
  destruct s as [|c s]; [by destruct hi as [[|b]|]; simpl in H2; lia|].
  destruct hi as [[|b]|]; simpl in H2; [lia| |]; destruct (p c) eqn:Ep; try lia; done.
Qed.

(** What [Grp i (Cls p lo hi)] captures. *)
Lemma post_group_class (i : nat) (p : ascii -> bool) (lo : nat) (hi : option nat)
      (s : string) (cs : caps) (s' : string) (cs' : caps) :
  post (Grp i (Cls p lo hi)) s cs s' cs' ->
  exists j, (lo <= j <= run_length p s hi)%nat /\ s' = drop j s
            /\ cs' = (i, take j s) :: cs.
Proof.
  simpl. intros (cs1 & (-> & j & Hj & ->) & ->).
  exists j. split; [done|]. split; [done|].
  rewrite length_drop by (pose proof (run_length_le p s hi); lia).
  f_equal. f_equal. f_equal. pose proof (run_length_le p s hi). lia.
Qed.

(** The text left by a match is not longer than the text matched. *)
Lemma post_length (r : re) :
  forall s cs s' cs', post r s cs s' cs' -> (String.length s' <= String.length s)%nat.
Proof.
  induction r as [|p lo hi|r1 IH1 r2 IH2|r1 IH1|i r1 IH1]; intros s cs s' cs'; simpl.
  - by intros [-> _].
  - intros (_ & j & Hj & ->). pose proof (run_length_le p s hi).
    rewrite length_drop; lia.
  - intros (s1 & cs1 & H1 & H2). apply IH1 in H1. apply IH2 in H2. lia.
  - intros [H|[-> _]]; [by eapply IH1|done].
  - intros (cs1 & H & _). by eapply IH1.
Qed.

End RegexFacts.

(** ** Numbers read from digit runs *)

Module NumberFacts.
Import Regex RegexSpec.
Local Open Scope Q_scope.

Lemma digit_not_space (c : ascii) : Js.is_digit c = true -> Js.is_space c = false.
Proof. destruct c as [[] [] [] [] [] [] [] []]; (discriminate || reflexivity). Qed.

Lemma digit_val_nonneg (c : ascii) : Js.is_digit c = true -> (0 <= Js.digit_val c)%Z.
Proof. destruct c as [[] [] [] [] [] [] [] []]; (discriminate || (intros _; vm_compute; discriminate)). Qed.

Lemma digits_acc_nonneg (s : string) :
  forall acc, Js.all_chars Js.is_digit s = true -> (0 <= acc)%Z ->
              (0 <= Js.digits_acc s acc)%Z.
Proof.
  induction s as [|c s IH]; intros acc; simpl; [done|].
  intros [Hc Hs]%andb_prop Hacc. apply IH; [done|].
  pose proof (digit_val_nonneg c Hc). lia.
Qed.

Lemma digits_val_nonneg (s : string) :
  Js.all_chars Js.is_digit s = true -> (0 <= Js.digits_val s)%Z.
Proof. intros H. by apply digits_acc_nonneg. Qed.

Lemma span_all (p : ascii -> bool) (s a b : string) :
  Js.span p s = (a, b) -> Js.all_chars p a = true.
Proof.
  revert a b. induction s as [|c s IH]; intros a b; simpl.
  - by intros [= <- <-].
  - destruct (p c) eqn:Ep.
    + destruct (Js.span p s) as [a' b'] eqn:E. intros [= <- <-]. simpl.
      rewrite Ep. simpl. by eapply IH.
    + by intros [= <- <-].
Qed.

Lemma pow10_pos (e : Z) : 0 < Js.pow10 e.
Proof.
  unfold Js.pow10. destruct (Z.leb_spec 0 e).
  - change 0 with (inject_Z 0). rewrite <- Zlt_Qlt. apply Z.pow_pos_nonneg; lia.
  - apply Qinv_lt_0_compat. change 0 with (inject_Z 0). rewrite <- Zlt_Qlt.
    apply Z.pow_pos_nonneg; lia.
Qed.

Lemma inject_nonneg (z : Z) : (0 <= z)%Z -> 0 <= inject_Z z.
Proof. intros H. change 0 with (inject_Z 0). by rewrite <- Zle_Qle. Qed.

(** An unsigned decimal literal is never negative. *)
Lemma decimal_prefix_nonneg (s : string) (q : Q) (r : string) :
  Js.decimal_prefix s = Some (q, r) -> 0 <= q.
Proof.
  unfold Js.decimal_prefix.
  destruct (Js.span Js.is_digit s) as [ip r1] eqn:E1.
  set (fr := match r1 with
             | String "." r0 => let '(f, r') := Js.span Js.is_digit r0 in (f, r')
             | _ => (EmptyString, r1)
             end).
  assert (Hfp : Js.all_chars Js.is_digit fr.1 = true).
  { subst fr. destruct r1 as [|c r0]; [done|].
    destruct (Ascii.eqb_spec c "."%char) as [->|Hne].
    - destruct (Js.span Js.is_digit r0) as [f r'] eqn:E2. simpl. by eapply span_all.
    - destruct c as [[] [] [] [] [] [] [] []]; try done. }
  destruct fr as [fp r2]. simpl in Hfp.
  destruct (Js.truthy ip || Js.truthy fp); [|discriminate].
  set (mant := inject_Z (Js.digits_val ip)
               + inject_Z (Js.digits_val fp) * Js.pow10 (- Js.slen fp)).
  assert (Hm : 0 <= mant).
  { subst mant. pose proof (inject_nonneg _ (digits_val_nonneg ip (span_all _ _ _ _ E1))).
    pose proof (inject_nonneg _ (digits_val_nonneg fp Hfp)).
    pose proof (pow10_pos (- Js.slen fp)).
    assert (0 <= inject_Z (Js.digits_val fp) * Js.pow10 (- Js.slen fp)).
    { apply Qmult_le_0_compat; [done|by apply Qlt_le_weak]. }
    lra. }
  assert (Hexp : forall (neg : bool) (r0 : string) (q0 : Q) (r5 : string),
             (let '(ds, r3) := Js.span Js.is_digit r0 in
              if Js.truthy ds
              then Some (mant * Js.pow10 (if neg then (- Js.digits_val ds)%Z
                                          else Js.digits_val ds), r3)
              else Some (mant, r2)) = Some (q0, r5) -> 0 <= q0).
  { intros neg r0 q0 r5. destruct (Js.span Js.is_digit r0) as [ds r4].
    destruct (Js.truthy ds); intros [= <- <-]; [|done].
    apply Qmult_le_0_compat; [done|]. apply Qlt_le_weak, pow10_pos. }
  destruct r2 as [|e r0]; [by intros [= <- <-]|].
  destruct (Ascii.eqb e "e" || Ascii.eqb e "E"); [|by intros [= <- <-]].
  destruct r0 as [|c r0]; [apply (Hexp false)|].
  destruct (Ascii.eqb_spec c "+"%char) as [->|H1]; [apply (Hexp false)|].
  destruct (Ascii.eqb_spec c "-"%char) as [->|H2]; [apply (Hexp true)|].
  intros H. apply (Hexp false (String c r0) q r).
  revert H. clear -H1 H2.
  destruct c as [[] [] [] [] [] [] [] []]; try done.
Qed.

Lemma signed_prefix_digit (s : string) :
  head_is Js.is_digit s = true -> Js.signed_prefix s = Js.decimal_prefix s.
Proof.
  destruct s as [|c s]; [done|]. simpl.
  destruct c as [[] [] [] [] [] [] [] []]; (discriminate || reflexivity).
Qed.

Lemma trimStart_head (s : string) :
  head_is Js.is_digit s = true -> Js.trimStart s = s.
Proof.
  destruct s as [|c s]; [done|]. simpl. intros H.
  by rewrite (digit_not_space c H).
Qed.

(** [parseFloat(v) || 0] of a text that starts with a digit. *)
Lemma parseFloat_head_nonneg (v : string) :
  head_is Js.is_digit v = true -> 0 <= Js.or0 (Js.parseFloat v).
Proof.
  intros H. unfold Js.parseFloat. rewrite (trimStart_head v H), (signed_prefix_digit v H).
  destruct (Js.decimal_prefix v) as [[q r]|] eqn:E; simpl; [|done].
  by eapply decimal_prefix_nonneg.
Qed.

Lemma rev_acc_rev_acc (s a b : string) :
  Js.rev_acc (Js.rev_acc s a) b = Js.rev_acc a (String.append s b).
Proof.
  revert a b. induction s as [|c s IH]; intros a b; simpl; [done|].
  by rewrite IH.
Qed.

Lemma rev_rev (s : string) : Js.rev (Js.rev s) = s.
Proof.
  unfold Js.rev. rewrite rev_acc_rev_acc. simpl.
  induction s as [|c s IH]; [done|].
  by rewrite SearchFacts.append_cons, IH.
Qed.

Lemma trimStart_no_space (s : string) :
  Js.all_chars Js.not_space s = true -> Js.trimStart s = s.
Proof.
  destruct s as [|c s]; [done|]. simpl. unfold Js.not_space at 1.
  by destruct (Js.is_space c).
Qed.

Lemma trim_no_space (s : string) :
  Js.all_chars Js.not_space s = true -> Js.trim s = s.
Proof.
  intros H. unfold Js.trim. rewrite (trimStart_no_space s H).
  rewrite trimStart_no_space; [apply rev_rev|].
  unfold Js.rev. by rewrite SearchFacts.all_chars_rev_acc, H.
Qed.

Lemma all_digits_no_space (s : string) :
  Js.all_chars Js.is_digit s = true -> Js.all_chars Js.not_space s = true.
Proof.
  induction s as [|c s IH]; simpl; [done|].
  intros [Hc Hs]%andb_prop. unfold Js.not_space at 1.
  by rewrite (digit_not_space c Hc), IH.
Qed.

(** [+v || 0] of a run of digits. *)
Lemma Number_digits_nonneg (v : string) :
  Js.all_chars Js.is_digit v = true -> 0 <= Js.or0 (Js.Number v).
Proof.
  intros H. unfold Js.Number. rewrite (trim_no_space v (all_digits_no_space v H)).
  assert (Hd : 0 <= Js.or0 match Js.signed_prefix v with
                           | Some (q, EmptyString) => Some q
                           | _ => None
                           end).
  { destruct v as [|c r]; [done|]. simpl in H. apply andb_prop in H as [Hc _].
    rewrite signed_prefix_digit by done.
    destruct (Js.decimal_prefix (String c r)) as [[q [|c' r']]|] eqn:E; simpl; try done.
    by eapply decimal_prefix_nonneg. }
  destruct v as [|c [|x r]]; [done| |].
  - destruct c as [[] [] [] [] [] [] [] []]; try discriminate; exact Hd.
  - simpl in H. apply andb_prop in H as [Hc [Hx _]%andb_prop].
    assert (Hx' : (Ascii.eqb x "x" || Ascii.eqb x "X")%char = false
                  /\ (Ascii.eqb x "o" || Ascii.eqb x "O")%char = false
                  /\ (Ascii.eqb x "b" || Ascii.eqb x "B")%char = false).
    { clear -Hx. destruct x as [[] [] [] [] [] [] [] []]; (discriminate || done). }
    destruct Hx' as (H1 & H2 & H3).
    destruct c as [[] [] [] [] [] [] [] []]; try discriminate Hc;
      try exact Hd.
    rewrite H1, H2, H3. exact Hd.
Qed.

End NumberFacts.

(** ** Bounds of the duration parser and formatter *)

Module DurationBounds.
Import Regex RegexSpec RegexFacts NumberFacts Duration.
Local Open Scope Q_scope.

Lemma post_plain (r : re) :
  forall s cs s' cs', plain r = true -> post r s cs s' cs' -> cs' = cs.
Proof.
  induction r as [|p lo hi|r1 IH1 r2 IH2|r1 IH1|i r1 IH1]; intros s cs s' cs'; simpl.
  - by intros _ [_ ->].
  - by intros _ [-> _].
  - intros [H1 H2]%andb_prop (s1 & cs1 & P1 & P2).
    apply IH1 in P1; [|done]. apply IH2 in P2; [|done]. congruence.
  - intros H [P|[_ ->]]; [by eapply IH1|done].
  - discriminate.
Qed.

Lemma cap_num_nonneg (i : nat) (cs : caps) (v : string) :
  group i cs = Some v -> Js.all_chars Js.is_digit v = true -> 0 <= cap_num i cs.
Proof.
  intros Hg Hv. unfold cap_num. rewrite Hg. by apply Number_digits_nonneg.
Qed.

Ltac group_step H j Hj :=
  let s1 := fresh "s" in let c1 := fresh "c" in let H1 := fresh "G" in
  destruct H as (s1 & c1 & H1 & H);
  apply post_group_class in H1 as (j & Hj & -> & ->).

Ltac plain_step H :=
  let s1 := fresh "s" in let c1 := fresh "c" in let H1 := fresh "P" in
  destruct H as (s1 & c1 & H1 & H);
  apply post_plain in H1; [subst c1|reflexivity].

Lemma re_days_caps (t s' : string) (m : caps) :
  post re_days t [] s' m ->
  0 <= cap_num 1 m /\ 0 <= cap_num 2 m /\ 0 <= cap_num 3 m.
Proof.
  unfold re_days. cbn [seq]. intros H.
  group_step H j1 Hj1. plain_step H. plain_step H. plain_step H. plain_step H.
  group_step H j2 Hj2. plain_step H. group_step H j3 Hj3.
  apply post_plain in H; [subst m|reflexivity].
  split; [|split]; eapply cap_num_nonneg; try reflexivity;
    eapply take_run_all; apply Hj1 || apply Hj2 || apply Hj3.
Qed.

Lemma re_hm_caps (t s' : string) (m : caps) :
  post re_hm t [] s' m -> 0 <= cap_num 1 m /\ 0 <= cap_num 2 m.
Proof.
  unfold re_hm. cbn [seq]. intros H.
  group_step H j1 Hj1. plain_step H. group_step H j2 Hj2.
  apply post_plain in H; [subst m|reflexivity].
  split; eapply cap_num_nonneg; try reflexivity;
    eapply take_run_all; apply Hj1 || apply Hj2.
Qed.

Lemma take_head (p : ascii -> bool) (n : nat) (s : string) :
  (1 <= n)%nat -> head_is p s = true -> head_is p (take n s) = true.
Proof. destruct n as [|n]; [lia|]. by destruct s. Qed.

Lemma run_head (p : ascii -> bool) (s : string) (hi : option nat) :
  (1 <= run_length p s hi)%nat -> head_is p s = true.
Proof.
  destruct s as [|c s]; [destruct hi as [[|b]|]; simpl; lia|].
  destruct hi as [[|b]|]; simpl; [lia| |]; destruct (p c); (done || lia).
Qed.

Lemma re_number_caps (t s' : string) (m : caps) :
  post re_number t [] s' m ->
  exists v, group 1 m = Some v /\ head_is Js.is_digit v = true.
Proof.
  unfold re_number. intros (cs1 & (s1 & c1 & H1 & H2) & ->).
  eexists. split; [reflexivity|].
  destruct H1 as (-> & j & Hj & ->).
  apply post_length in H2.
  pose proof (run_length_le Js.is_digit t None).
  rewrite length_drop in H2 by lia.
  apply take_head; [lia|]. eapply run_head with (hi := None). lia.
Qed.

Lemma div60_nonneg (x : Q) : 0 <= x -> 0 <= x / 60.
Proof. intros H. apply Qle_shift_div_l; [reflexivity|lra]. Qed.

(** X1. Whatever text it is given, [parseZohoDurationToHours] never returns
    a negative number of hours. *)
Theorem parseZohoDurationToHours_nonneg (str : option string) :
  0 <= parseZohoDurationToHours str.
Proof.
  destruct str as [[|c0 r0]|]; [done| |done].
  unfold parseZohoDurationToHours.
  set (s := Js.toLowerCase (Js.trim (String c0 r0))).
  destruct (search re_days s) as [m|] eqn:E1.
  { apply search_sound in E1 as (t & s' & H).
    destruct (re_days_caps _ _ _ H) as (H1 & H2 & H3).
    apply div60_nonneg in H3. revert H3. generalize (cap_num 3 m / 60). intros. lra. }
  destruct (search re_hm s) as [m|] eqn:E2.
  { apply search_sound in E2 as (t & s' & H).
    destruct (re_hm_caps _ _ _ H) as (H1 & H2).
    apply div60_nonneg in H2. revert H2. generalize (cap_num 2 m / 60). intros. lra. }
  destruct (search re_number s) as [m|] eqn:E3; [|done].
  apply search_sound in E3 as (t & s' & H).
  destruct (re_number_caps _ _ _ H) as (v & -> & Hv).
  by apply parseFloat_head_nonneg.
Qed.

Lemma Qfloor_unique (q : Q) (z : Z) :
  inject_Z z <= q -> q < inject_Z z + 1 -> Qfloor q = z.
Proof.
  intros H1 H2. pose proof (Qfloor_le q). pose proof (Qlt_floor q).
  rewrite inject_Z_plus in H0. change (inject_Z 1) with 1 in H0.
  assert (Qfloor q < z + 1)%Z.
  { rewrite Zlt_Qlt, inject_Z_plus. change (inject_Z 1) with 1. lra. }
  assert (z < Qfloor q + 1)%Z.
  { rewrite Zlt_Qlt, inject_Z_plus. change (inject_Z 1) with 1. lra. }
  lia.
Qed.

(** X2. [formatHoursToText] never carries the rounded minutes into the
    hours: for a positive number of hours whose fraction is at least 59.5
    minutes, the text shows the unrounded hour followed by sixty minutes. *)
Theorem formatHoursToText_sixty_minutes (hrs : Q) :
  0 < hrs -> 119 # 120 <= hrs - inject_Z (Js.floor hrs) ->
  formatHoursToText hrs
  = String.append (Js.string_of_Z (Js.floor hrs)) ":60"%string.
Proof.
  intros Hpos Hfrac. unfold formatHoursToText.
  rewrite (AgingFacts.Qle_bool_false hrs 0 Hpos).
  assert (Hr : Js.round ((hrs - inject_Z (Js.floor hrs)) * 60) = 60%Z).
  { unfold Js.round. apply Qfloor_unique.
    - change (inject_Z 60) with 60. lra.
    - pose proof (Qlt_floor hrs) as Hlt. unfold Js.floor in *.
      rewrite inject_Z_plus in Hlt. change (inject_Z 1) with 1 in Hlt.
      change (inject_Z 60) with 60. lra. }
  rewrite Hr. reflexivity.
Qed.

Lemma formatHoursToText_sixty_minutes_witness :
  0 < 239 # 120 /\ 119 # 120 <= (239 # 120) - inject_Z (Js.floor (239 # 120))
  /\ formatHoursToText (239 # 120) = "1:60"%string.
Proof.
  split; [reflexivity|]. split; [vm_compute; discriminate|].
  apply (formatHoursToText_sixty_minutes (239 # 120)).
  - reflexivity.
  - vm_compute. discriminate.
Defined.

End DurationBounds.

(** ** First response instants *)

Module MetricsFacts.
Import Regex RegexSpec RegexFacts NumberFacts Metrics Ticket.

Lemma cap_int_nonneg (i : nat) (cs : caps) (v : string) :
  group i cs = Some v -> Js.all_chars Js.is_digit v = true -> 0 <= cap_int i cs.
Proof.
  intros Hg Hv. unfold cap_int. rewrite Hg. by apply digits_val_nonneg.
Qed.

Lemma re_add_caps (t s' : string) (m : caps) :
  post re_add t [] s' m -> 0 <= cap_int 1 m /\ 0 <= cap_int 2 m.
Proof.
  unfold re_add. cbn [seq]. intros H.
  DurationBounds.group_step H j1 Hj1. DurationBounds.plain_step H.
  DurationBounds.group_step H j2 Hj2.
  apply DurationBounds.post_plain in H; [subst m|reflexivity].
  split; eapply cap_int_nonneg; try reflexivity;
    eapply take_run_all; apply Hj1 || apply Hj2.
Qed.

(** X3. When [addZohoDurationToDate] returns an instant, it is not earlier
    than the start instant and lies a whole number of minutes after it. *)
Theorem addZohoDurationToDate_later (start : Z) (txt : option string) (e : Z) :
  addZohoDurationToDate (At start) txt = Some e ->
  start <= e /\ (e - start) mod 60000 = 0.
Proof.
  unfold addZohoDurationToDate. destruct txt as [[|c r]|]; try discriminate.
  destruct (match_whole re_add (Js.trim (String c r))) as [m|] eqn:E; [|discriminate].
  unfold match_whole in E.
  apply exec_sound in E as (s' & cs' & H & Hk).
  destruct s'; [|discriminate]. injection Hk as ->.
  destruct (re_add_caps _ _ _ H) as [H1 H2].
  destruct (Z.abs _ <=? maxTime); [|discriminate]. intros [= <-].
  split; [lia|].
  replace (start + (cap_int 1 m * 60 + cap_int 2 m) * 60 * 1000 - start)
    with ((cap_int 1 m * 60 + cap_int 2 m) * 60000) by lia.
  apply Z.mod_mul. lia.
Qed.

Lemma addZohoDurationToDate_later_witness :
  addZohoDurationToDate (At 1000) (Some "1:30 hrs"%string) = Some 5401000
  /\ 1000 <= 5401000 /\ (5401000 - 1000) mod 60000 = 0.
Proof.
  split; [reflexivity|].
  apply (addZohoDurationToDate_later 1000 (Some "1:30 hrs"%string) 5401000).
  reflexivity.
Defined.

End MetricsFacts.

(** ** The metrics overlay of [/api/agent-performance] *)

Module OverlayFacts.
Import Ticket AgentPerformance AgentKeys.

Lemma ticket_step_ids (seen : list ticket) (st : state) (t : ticket) :
  (forall k b, snd st !! k = Some b ->
     forall i, i ∈ ticketIds b <->
       exists t0, t0 ∈ seen /\ agentKeyOf t0 = k /\ ticketKey t0 = i
                  /\ Js.truthy i = true) ->
  (forall t0, t0 ∈ seen -> is_Some (snd st !! agentKeyOf t0)) ->
  (forall k b, snd (ticket_step st t) !! k = Some b ->
     forall i, i ∈ ticketIds b <->
       exists t0, t0 ∈ seen ++ [t] /\ agentKeyOf t0 = k /\ ticketKey t0 = i
                  /\ Js.truthy i = true)
  /\ (forall t0, t0 ∈ seen ++ [t] -> is_Some (snd (ticket_step st t) !! agentKeyOf t0)).
Proof.
  destruct st as [sm bm]. simpl. intros Hids Hdom. unfold ticket_step.
  set (m1 := match bm !! agentKeyOf t with
             | Some _ => bm
             | None => <[ agentKeyOf t := newBucket (agentKeyOf t) (nameFromTicket t) ]> bm
             end).
  assert (Hm1 : forall k b, m1 !! k = Some b ->
            forall i, i ∈ ticketIds b <->
              exists t0, t0 ∈ seen /\ agentKeyOf t0 = k /\ ticketKey t0 = i
                         /\ Js.truthy i = true).
  { subst m1. destruct (bm !! agentKeyOf t) as [b0|] eqn:E; [done|].
    intros k b. destruct (decide (k = agentKeyOf t)) as [->|Hk].
    - rewrite lookup_insert_eq. intros [= <-] i. simpl. split; [set_solver|].
      intros (t0 & Hin & Hk0 & _). destruct (Hdom t0 Hin) as [b1 Hb1]. congruence.
    - rewrite lookup_insert_ne by done. apply Hids. }
  assert (Hd1 : forall k, is_Some (bm !! k) -> is_Some (m1 !! k)).
  { subst m1. intros k Hk. destruct (bm !! agentKeyOf t) eqn:E; [done|].
    destruct (decide (k = agentKeyOf t)) as [->|Hne];
      [by rewrite lookup_insert_eq | by rewrite lookup_insert_ne]. }
  assert (Ht : is_Some (m1 !! agentKeyOf t)).
  { subst m1. destruct (bm !! agentKeyOf t) eqn:E; [by rewrite E|].
    by rewrite lookup_insert_eq. }
  clearbody m1.
  destruct (Js.truthy (ticketKey t)) eqn:Hkey; simpl.
  - split.
    + intros k b. rewrite lookup_alter. case_decide as Hk.
      * subst k. destruct (m1 !! agentKeyOf t) as [b0|] eqn:Hb0; simpl; [|done].
        intros [= <-] i.
        assert (Hcl : ticketIds (classify (ticketKey t)
                        (Js.or_str (<[ticketKey t := Js.toLowerCase (Js.or_str (status t) "")]> sm
                                    !! ticketKey t) "") b0)
                      = {[ ticketKey t ]} ∪ ticketIds b0).
        { unfold classify. by destruct (Status.isResolvedLike _). }
        rewrite Hcl, elem_of_union, elem_of_singleton, (Hm1 _ _ Hb0 i).
        split.
        -- intros [->|(t0 & Hin & H1 & H2 & H3)].
           ++ exists t. split; [set_solver|done].
           ++ exists t0. split; [set_solver|done].
        -- intros (t0 & Hin & H1 & H2 & H3).
           apply elem_of_app in Hin as [Hin| ->%list_elem_of_singleton].
           ++ right. by exists t0.
           ++ by left.
      * intros Hb i. rewrite (Hm1 _ _ Hb i). split.
        -- intros (t0 & Hin & H1 & H2 & H3). exists t0. split; [set_solver|done].
        -- intros (t0 & Hin & H1 & H2 & H3).
           apply elem_of_app in Hin as [Hin| ->%list_elem_of_singleton];
             [by exists t0 | done].
    + intros t0 [Hin| ->%list_elem_of_singleton]%elem_of_app.
      * rewrite lookup_alter. case_decide as Hk.
        -- destruct Ht as [b0 ->]. by eexists.
        -- by apply Hd1, Hdom.
      * rewrite lookup_alter_eq. destruct Ht as [b0 ->]. by eexists.
  - split.
    + intros k b Hb i. rewrite (Hm1 _ _ Hb i). split.
      * intros (t0 & Hin & H1 & H2 & H3). exists t0. split; [set_solver|done].
      * intros (t0 & Hin & H1 & H2 & H3).
        apply elem_of_app in Hin as [Hin| ->%list_elem_of_singleton];
          [by exists t0 | congruence].
    + intros t0 [Hin| ->%list_elem_of_singleton]%elem_of_app; [by apply Hd1, Hdom|done].
Qed.

Lemma baseAgents_ids (allTickets : list ticket) :
  (forall k b, snd (baseAgents allTickets) !! k = Some b ->
     forall i, i ∈ ticketIds b <->
       exists t0, t0 ∈ allTickets /\ agentKeyOf t0 = k /\ ticketKey t0 = i
                  /\ Js.truthy i = true)
  /\ (forall t0, t0 ∈ allTickets -> is_Some (snd (baseAgents allTickets) !! agentKeyOf t0)).
Proof.
  unfold baseAgents. rewrite <- (rev_involutive allTickets).
  induction (rev allTickets) as [|t l IH]; simpl.
  - split; [intros k b; by rewrite lookup_empty | intros t0 Hin; by apply elem_of_nil in Hin].
  - rewrite foldl_app. simpl. destruct IH as [H1 H2]. by apply ticket_step_ids.
Qed.

(** A metric row changes no ticket set and adds buckets with empty ones. *)
Lemma metric_step_ids (sm : gmap string string) (bm : gmap string agentBucket)
      (row : metricRow) (k : string) (b' : agentBucket) :
  metric_step sm bm row !! k = Some b' ->
  match bm !! k with
  | Some b => ticketIds b' = ticketIds b /\ resolvedIds b' = resolvedIds b
              /\ pendingIds b' = pendingIds b /\ agentName b' = agentName b
  | None => ticketIds b' = ∅ /\ resolvedIds b' = ∅ /\ pendingIds b' = ∅
  end.
Proof.
  unfold metric_step.
  destruct (negb (Js.truthy (metricKey row))).
  { intros ->. done. }
  set (agentKey := Js.or_str (Js.or_opt (m_agentId row) (m_assigneeId row)) "unassigned").
  set (m1 := match bm !! agentKey with
             | Some _ => bm
             | None => <[ agentKey := newBucket agentKey (Js.or_str (m_agentName row) "Unassigned") ]> bm
             end).
  assert (Hm1 : forall b1, m1 !! k = Some b1 ->
            match bm !! k with
            | Some b => b1 = b
            | None => ticketIds b1 = ∅ /\ resolvedIds b1 = ∅ /\ pendingIds b1 = ∅
            end).
  { subst m1. intros b1. destruct (bm !! agentKey) eqn:E.
    - intros ->. done.
    - destruct (decide (k = agentKey)) as [->|Hne].
      + rewrite lookup_insert_eq, E. by intros [= <-].
      + rewrite lookup_insert_ne by done. intros ->. done. }
  clearbody m1.
  assert (Hsame : m1 !! k = Some b' ->
            match bm !! k with
            | Some b => ticketIds b' = ticketIds b /\ resolvedIds b' = resolvedIds b
                        /\ pendingIds b' = pendingIds b /\ agentName b' = agentName b
            | None => ticketIds b' = ∅ /\ resolvedIds b' = ∅ /\ pendingIds b' = ∅
            end).
  { intros H. specialize (Hm1 _ H). destruct (bm !! k); [by subst|done]. }
  destruct (Status.isResolvedLike _); [|done].
  destruct (Qle_bool 0 _); [|done].
  rewrite lookup_alter. case_decide as Hk; [|done]. subst k.
  destruct (m1 !! agentKey) as [b0|] eqn:Hb0; simpl; [|done].
  intros [= <-]. simpl. specialize (Hm1 _ eq_refl).
  destruct (bm !! agentKey); [by subst|done].
Qed.

Lemma metric_fold_ids (sm : gmap string string) (bm : gmap string agentBucket)
      (metricRows : list metricRow) (k : string) (b' : agentBucket) :
  foldl (metric_step sm) bm metricRows !! k = Some b' ->
  match bm !! k with
  | Some b => ticketIds b' = ticketIds b /\ resolvedIds b' = resolvedIds b
              /\ pendingIds b' = pendingIds b /\ agentName b' = agentName b
  | None => ticketIds b' = ∅ /\ resolvedIds b' = ∅ /\ pendingIds b' = ∅
  end.
Proof.
  revert b'. rewrite <- (rev_involutive metricRows).
  induction (rev metricRows) as [|row l IH]; simpl; intros b'.
  - intros ->. done.
  - rewrite foldl_app. simpl. intros H. apply metric_step_ids in H.
    destruct (foldl (metric_step sm) bm (rev l) !! k) as [b1|] eqn:E.
    + specialize (IH b1 eq_refl). destruct (bm !! k).
      * destruct H as (-> & -> & -> & ->). done.
      * destruct H as (-> & -> & ->  & _). done.
    + destruct (bm !! k) as [b|] eqn:Eb; [|done].
      exfalso. clear -E Eb.
      assert (Hmono : forall rows m, is_Some (m !! k) ->
                is_Some (foldl (metric_step sm) m rows !! k)).
      { induction rows as [|r rows IHr]; intros m Hm; [done|]. simpl. apply IHr.
        unfold metric_step. destruct (negb _); [done|].
        set (ak := Js.or_str (Js.or_opt (m_agentId r) (m_assigneeId r)) "unassigned").
        assert (H1 : is_Some (match m !! ak with
                              | Some _ => m
                              | None => <[ ak := newBucket ak (Js.or_str (m_agentName r) "Unassigned") ]> m
                              end !! k)).
        { destruct (m !! ak) eqn:E1; [done|].
          destruct (decide (k = ak)) as [->|Hne];
            [by rewrite lookup_insert_eq | by rewrite lookup_insert_ne]. }
        revert H1. generalize (match m !! ak with
                              | Some _ => m
                              | None => <[ ak := newBucket ak (Js.or_str (m_agentName r) "Unassigned") ]> m
                              end). intros m2 H2.
        destruct (Status.isResolvedLike _); [|done].
        destruct (Qle_bool 0 _); [|done].
        rewrite lookup_alter. case_decide as Hk; [|done]. subst.
        destruct H2 as [x ->]. by eexists. }
      destruct (Hmono (rev l) bm ltac:(by rewrite Eb)) as [x Hx]. congruence.
Qed.

(** X4. In the response of [/api/agent-performance], the ticket ids behind
    [ticketsCreated] of an agent are exactly the non empty keys of the
    tickets filed under that agent key; the metric rows add none. *)
Theorem ticketIds_from_tickets (allTickets : list ticket) (metricRows : list metricRow)
        (k : string) (b : agentBucket) (i : string) :
  withMetrics allTickets metricRows !! k = Some b ->
  i ∈ ticketIds b <->
  exists t, t ∈ allTickets /\ Js.or_str (assigneeId t) "unassigned" = k
            /\ ticketKey t = i /\ Js.truthy i = true.
Proof.
  unfold withMetrics. pose proof (baseAgents_ids allTickets) as [Hids Hdom].
  destruct (baseAgents allTickets) as [sm bm]. simpl in *.
  intros H. apply metric_fold_ids in H.
  destruct (bm !! k) as [b0|] eqn:E.
  - destruct H as (-> & _). by apply Hids.
  - destruct H as (-> & _). split; [set_solver|].
    intros (t & Hin & Hk & _). destruct (Hdom t Hin) as [x Hx]. congruence.
Qed.

Lemma lookup_bucket7 :
  withMetrics Samples.closedTickets MoreSamples.fetchedRows !! "7"%string
  = Some MoreSamples.fetchedBucket7.
Proof. apply Common.present_default. vm_compute. reflexivity. Qed.

Lemma ticketIds_from_tickets_witness :
  withMetrics Samples.closedTickets MoreSamples.fetchedRows !! "7"%string
    = Some MoreSamples.fetchedBucket7
  /\ ("T1"%string ∈ ticketIds MoreSamples.fetchedBucket7 <->
      exists t, t ∈ Samples.closedTickets /\ Js.or_str (assigneeId t) "unassigned" = "7"%string
                /\ ticketKey t = "T1"%string /\ Js.truthy "T1" = true).
Proof.
  split; [exact lookup_bucket7|].
  apply (ticketIds_from_tickets Samples.closedTickets MoreSamples.fetchedRows
           "7"%string MoreSamples.fetchedBucket7 "T1"%string).
  exact lookup_bucket7.
Defined.

(** X5. The metric rows never change the three ticket counts of an agent
    in the response of [/api/agent-performance]: they are the counts that
    the tickets alone give, and an agent known from metric rows only has
    zero tickets created, resolved and pending. *)
Theorem overlay_keeps_ticket_counts (allTickets : list ticket)
        (metricRows : list metricRow) (k : string) (a' : agentRow) :
  agentOf allTickets metricRows k = Some a' ->
  match agentOf allTickets [] k with
  | Some a => ticketsCreated a' = ticketsCreated a
              /\ ticketsResolved a' = ticketsResolved a
              /\ pendingCount a' = pendingCount a
              /\ a_agentName a' = a_agentName a
  | None => ticketsCreated a' = 0%nat /\ ticketsResolved a' = 0%nat
            /\ pendingCount a' = 0%nat
  end.
Proof.
  unfold agentOf, withMetrics. destruct (baseAgents allTickets) as [sm bm]. simpl.
  destruct (foldl (metric_step sm) bm metricRows !! k) as [b'|] eqn:E; [|done].
  simpl. intros [= <-]. apply metric_fold_ids in E.
  destruct (bm !! k) as [b|]; simpl.
  - destruct E as (-> & -> & -> & ->). done.
  - destruct E as (-> & -> & ->). done.
Qed.

Lemma lookup_row7 :
  agentOf Samples.closedTickets MoreSamples.fetchedRows "7" = Some MoreSamples.row7.
Proof. unfold agentOf. by rewrite lookup_bucket7. Qed.

Lemma overlay_keeps_ticket_counts_witness :
  agentOf Samples.closedTickets MoreSamples.fetchedRows "7" = Some MoreSamples.row7
  /\ match agentOf Samples.closedTickets [] "7" with
     | Some a => ticketsCreated MoreSamples.row7 = ticketsCreated a
                 /\ ticketsResolved MoreSamples.row7 = ticketsResolved a
                 /\ pendingCount MoreSamples.row7 = pendingCount a
                 /\ a_agentName MoreSamples.row7 = a_agentName a
     | None => ticketsCreated MoreSamples.row7 = 0%nat
               /\ ticketsResolved MoreSamples.row7 = 0%nat
               /\ pendingCount MoreSamples.row7 = 0%nat
     end.
Proof.
  split; [exact lookup_row7|].
  apply (overlay_keeps_ticket_counts Samples.closedTickets MoreSamples.fetchedRows
           "7"%string MoreSamples.row7).
  exact lookup_row7.
Defined.

(** The rows built by [fetchTicketMetricsForTickets] are all filed under
    the key "unassigned" by the overlay. *)
Lemma fetched_row_key (names : gmap string string) (t : ticket) (m : Metrics.metrics) :
  Js.or_str (Js.or_opt (m_agentId (Metrics.metricRowOf names t m))
                       (m_assigneeId (Metrics.metricRowOf names t m))) "unassigned"
  = "unassigned"%string.
Proof. reflexivity. Qed.

Lemma ticket_step_no_hours (st : state) (t : ticket) :
  map_Forall (fun _ b => resolutionCount b = 0%nat /\ totalResolutionHours b = 0%Q) (snd st) ->
  map_Forall (fun _ b => resolutionCount b = 0%nat /\ totalResolutionHours b = 0%Q)
             (snd (ticket_step st t)).
Proof.
  destruct st as [sm bm]. simpl. intros Hm. unfold ticket_step.
  set (ak := Js.or_str (assigneeId t) "unassigned").
  assert (Hm' : map_Forall (fun _ b => resolutionCount b = 0%nat /\ totalResolutionHours b = 0%Q)
                  (match bm !! ak with
                   | Some _ => bm
                   | None => <[ ak := newBucket ak (nameFromTicket t) ]> bm
                   end)).
  { destruct (bm !! ak); [done|]. by apply map_Forall_insert_2. }
  revert Hm'. generalize (match bm !! ak with
                          | Some _ => bm
                          | None => <[ ak := newBucket ak (nameFromTicket t) ]> bm
                          end). intros m1 Hm1.
  destruct (Js.truthy (ticketKey t)); simpl; [|done].
  intros k b. rewrite lookup_alter. case_decide as Hk; [|apply Hm1].
  destruct (m1 !! ak) as [b0|] eqn:Hb0; simpl; [|done].
  intros [= <-]. specialize (Hm1 ak b0 Hb0). unfold classify.
  by destruct (Status.isResolvedLike _).
Qed.

Lemma baseAgents_no_hours (allTickets : list ticket) :
  map_Forall (fun _ b => resolutionCount b = 0%nat /\ totalResolutionHours b = 0%Q)
             (snd (baseAgents allTickets)).
Proof.
  unfold baseAgents. rewrite <- (rev_involutive allTickets).
  induction (rev allTickets) as [|t l IH]; simpl.
  - apply map_Forall_empty.
  - rewrite foldl_app. simpl. by apply ticket_step_no_hours.
Qed.

Lemma metric_step_unassigned (sm : gmap string string) (bm : gmap string agentBucket)
      (row : metricRow) :
  Js.or_str (Js.or_opt (m_agentId row) (m_assigneeId row)) "unassigned"
    = "unassigned"%string ->
  map_Forall (fun k b => k <> "unassigned"%string ->
                resolutionCount b = 0%nat /\ totalResolutionHours b = 0%Q) bm ->
  map_Forall (fun k b => k <> "unassigned"%string ->
                resolutionCount b = 0%nat /\ totalResolutionHours b = 0%Q)
             (metric_step sm bm row).
Proof.
  intros Hkey Hm. unfold metric_step. rewrite Hkey.
  destruct (negb (Js.truthy (metricKey row))); [done|].
  assert (Hm' : map_Forall (fun k b => k <> "unassigned"%string ->
                              resolutionCount b = 0%nat /\ totalResolutionHours b = 0%Q)
                  (match bm !! "unassigned"%string with
                   | Some _ => bm
                   | None => <[ "unassigned"%string :=
                                  newBucket "unassigned" (Js.or_str (m_agentName row) "Unassigned") ]> bm
                   end)).
  { destruct (bm !! "unassigned"%string); [done|]. by apply map_Forall_insert_2. }
  revert Hm'. generalize (match bm !! "unassigned"%string with
                   | Some _ => bm
                   | None => <[ "unassigned"%string :=
                                  newBucket "unassigned" (Js.or_str (m_agentName row) "Unassigned") ]> bm
                   end). intros m1 Hm1.
  destruct (Status.isResolvedLike _); [|done].
  destruct (Qle_bool 0 _); [|done].
  intros k b. rewrite lookup_alter. case_decide as Hk; [|apply Hm1].
  subst k. done.
Qed.

(** X6. The rows of [fetchTicketMetricsForTickets] carry neither [agentId]
    nor [assigneeId], so the overlay of [/api/agent-performance] credits
    every resolution time to the key "unassigned": every other agent of the
    response has an average resolution of zero hours, shown as "0:00". *)
Theorem fetched_metrics_credit_unassigned (names : gmap string string)
        (allTickets : list ticket) (results : list (ticket * Metrics.metrics))
        (k : string) (a : agentRow) :
  k <> "unassigned"%string ->
  agentOf allTickets (Metrics.rows names results) k = Some a ->
  avgResolutionHours a = 0%Q /\ avgResolutionText a = "0:00"%string.
Proof.
  intros Hk. unfold agentOf, withMetrics.
  pose proof (baseAgents_no_hours allTickets) as H0.
  destruct (baseAgents allTickets) as [sm bm]. simpl in H0.
  assert (H : map_Forall (fun k b => k <> "unassigned"%string ->
                            resolutionCount b = 0%nat /\ totalResolutionHours b = 0%Q)
                (foldl (metric_step sm) bm (Metrics.rows names results))).
  { rewrite <- (rev_involutive results). unfold Metrics.rows.
    induction (rev results) as [|[t m] l IH]; simpl.
    - intros k0 b0 Hb0 _. by apply (H0 k0).
    - rewrite map_app, foldl_app. simpl. apply metric_step_unassigned; [|done].
      apply fetched_row_key. }
  destruct (foldl (metric_step sm) bm (Metrics.rows names results) !! k) as [b|] eqn:E;
    [|done].
  simpl. intros [= <-]. destruct (H k b E Hk) as [Hc Hh].
  unfold finalize. simpl. rewrite Hc. done.
Qed.

Lemma fetched_metrics_credit_unassigned_witness :
  "7"%string <> "unassigned"%string
  /\ agentOf Samples.closedTickets MoreSamples.fetchedRows "7" = Some MoreSamples.row7
  /\ avgResolutionHours MoreSamples.row7 = 0%Q
  /\ avgResolutionText MoreSamples.row7 = "0:00"%string.
Proof.
  split; [discriminate|]. split; [exact lookup_row7|].
  apply (fetched_metrics_credit_unassigned Samples.agentNames Samples.closedTickets
           MoreSamples.fetched "7"%string MoreSamples.row7).
  - discriminate.
  - exact lookup_row7.
Defined.

End OverlayFacts.

(** ** The status map of [agentPerformanceRoutes.js] *)

Module RoutesFacts.
Import Ticket AgentPerformanceRoutes.

(** X7. [ticketStatusMap] of [agentPerformanceRoutes.js] holds, for a non
    empty ticket key, the lowercased status of the last ticket of
    [allTickets] with that key, and nothing for the empty key; as the
    archived tickets follow the active ones, the archived record of a
    ticket decides. *)
Theorem ticketStatusMap_last_wins (allTickets : list ticket) (k : string) :
  ticketStatusMap allTickets !! k
  = if Js.truthy k
    then last (List.map (fun t => Js.toLowerCase (Js.or_str (status t) ""))
                        (filter (fun t => ticketKey t = k) allTickets))
    else None.
Proof.
  unfold ticketStatusMap. rewrite <- (rev_involutive allTickets).
  induction (rev allTickets) as [|t l IH]; simpl.
  - rewrite lookup_empty. by destruct (Js.truthy k).
  - rewrite foldl_app, filter_app, map_app. simpl. unfold status_step at 1.
    rewrite filter_cons, filter_nil.
    destruct (decide (ticketKey t = k)) as [Hk|Hk].
    + subst k. simpl. rewrite last_snoc.
      destruct (Js.truthy (ticketKey t)); simpl; [by rewrite lookup_insert_eq|].
      rewrite IH. done.
    + simpl. rewrite app_nil_r.
      destruct (Js.truthy (ticketKey t)); simpl; [|done].
      by rewrite lookup_insert_ne.
Qed.

End RoutesFacts.

(** ** The two duration parsers *)

Module ParserFacts.
Import Regex RegexSpec RegexFacts NumberFacts Duration.
Local Open Scope Q_scope.

Lemma span_digits (v : string) :
  Js.all_chars Js.is_digit v = true -> Js.span Js.is_digit v = (v, EmptyString).
Proof.
  induction v as [|c v IH]; simpl; [done|].
  intros [Hc Hv]%andb_prop. by rewrite Hc, (IH Hv).
Qed.

Lemma parseInt10_digits (v : string) :
  Js.all_chars Js.is_digit v = true -> head_is Js.is_digit v = true ->
  RoutesDuration.parseInt10 v = Some (inject_Z (Js.digits_val v)).
Proof.
  intros Hv Hh.
  unfold RoutesDuration.parseInt10. rewrite (trimStart_head v Hh).
  assert (Hs : match v with
               | String "-" r => (true, r)
               | String "+" r => (false, r)
               | _ => (false, v)
               end = (false, v)).
  { destruct v as [|c r]; [done|]. simpl in Hh.
    destruct c as [[] [] [] [] [] [] [] []]; (discriminate || reflexivity). }
  rewrite Hs, (span_digits v Hv). destruct v; [discriminate|]. done.
Qed.

(** The unary plus reads a non empty run of digits as its decimal value. *)
Lemma Number_digits (v : string) :
  Js.all_chars Js.is_digit v = true -> head_is Js.is_digit v = true ->
  Js.or0 (Js.Number v) == inject_Z (Js.digits_val v).
Proof.
  intros Hv Hh.
  assert (Hd : Js.decimal_prefix v
               = Some (inject_Z (Js.digits_val v)
                       + inject_Z (Js.digits_val "") * Js.pow10 (- Js.slen ""), EmptyString)).
  { unfold Js.decimal_prefix. rewrite (span_digits v Hv).
    destruct v; [discriminate|]. done. }
  assert (Hn : Js.Number v
               = Some (inject_Z (Js.digits_val v)
                       + inject_Z (Js.digits_val "") * Js.pow10 (- Js.slen ""))).
  { unfold Js.Number. rewrite (trim_no_space v (all_digits_no_space v Hv)).
    assert (Hsp : match Js.signed_prefix v with
                  | Some (q, EmptyString) => Some q
                  | _ => None
                  end
                  = Some (inject_Z (Js.digits_val v)
                          + inject_Z (Js.digits_val "") * Js.pow10 (- Js.slen ""))).
    { by rewrite (signed_prefix_digit v Hh), Hd. }
    destruct v as [|c [|x r]]; [done| |].
    - destruct c as [[] [] [] [] [] [] [] []]; try discriminate; exact Hsp.
    - simpl in Hv. apply andb_prop in Hv as [Hc [Hx _]%andb_prop].
      assert (Hx' : (Ascii.eqb x "x" || Ascii.eqb x "X")%char = false
                    /\ (Ascii.eqb x "o" || Ascii.eqb x "O")%char = false
                    /\ (Ascii.eqb x "b" || Ascii.eqb x "B")%char = false).
      { clear -Hx. destruct x as [[] [] [] [] [] [] [] []]; (discriminate || done). }
      destruct Hx' as (H1 & H2 & H3).
      destruct c as [[] [] [] [] [] [] [] []]; try discriminate Hc; try exact Hsp.
      rewrite H1, H2, H3. exact Hsp. }
  rewrite Hn. simpl. vm_compute (Js.digits_val ""). unfold Js.pow10. simpl. ring.
Qed.

(** [parseInt] and the unary plus read a non empty run of digits as the
    same number. *)
Lemma digits_same_number (v : string) :
  Js.all_chars Js.is_digit v = true -> head_is Js.is_digit v = true ->
  Js.or0 (RoutesDuration.parseInt10 v) == Js.or0 (Js.Number v).
Proof.
  intros Hv Hh. rewrite (parseInt10_digits v Hv Hh), (Number_digits v Hv Hh).
  reflexivity.
Qed.

Lemma cap_same (i : nat) (cs : caps) (v : string) :
  group i cs = Some v ->
  Js.all_chars Js.is_digit v = true -> head_is Js.is_digit v = true ->
  RoutesDuration.cap_parseInt i cs == cap_num i cs.
Proof.
  intros Hg Hv Hh. unfold RoutesDuration.cap_parseInt, cap_num. rewrite Hg.
  by apply digits_same_number.
Qed.

Lemma re_days_same (t s' : string) (m : caps) :
  post re_days t [] s' m ->
  RoutesDuration.cap_parseInt 1 m == cap_num 1 m
  /\ RoutesDuration.cap_parseInt 2 m == cap_num 2 m
  /\ RoutesDuration.cap_parseInt 3 m == cap_num 3 m.
Proof.
  unfold re_days. cbn [seq]. intros H.
  DurationBounds.group_step H j1 Hj1. DurationBounds.plain_step H.
  DurationBounds.plain_step H. DurationBounds.plain_step H. DurationBounds.plain_step H.
  DurationBounds.group_step H j2 Hj2. DurationBounds.plain_step H.
  DurationBounds.group_step H j3 Hj3.
  apply DurationBounds.post_plain in H; [subst m|reflexivity].
  split; [|split]; eapply cap_same; try reflexivity;
    (eapply take_run_all; apply Hj1 || apply Hj2 || apply Hj3)
    || (eapply take_run_head; split; [|apply Hj1 || apply Hj2 || apply Hj3];
        (apply Hj1 || apply Hj2 || (destruct Hj3; lia))).
Qed.

Lemma re_hm_same (t s' : string) (m : caps) :
  post re_hm t [] s' m ->
  RoutesDuration.cap_parseInt 1 m == cap_num 1 m
  /\ RoutesDuration.cap_parseInt 2 m == cap_num 2 m.
Proof.
  unfold re_hm. cbn [seq]. intros H.
  DurationBounds.group_step H j1 Hj1. DurationBounds.plain_step H.
  DurationBounds.group_step H j2 Hj2.
  apply DurationBounds.post_plain in H; [subst m|reflexivity].
  split; eapply cap_same; try reflexivity;
    (eapply take_run_all; apply Hj1 || apply Hj2)
    || (eapply take_run_head; split; [|apply Hj1 || apply Hj2];
        (apply Hj1 || (destruct Hj2; lia))).
Qed.

(** X8. The duration parser of [agentPerformanceRoutes.js], which reads the
    captured digits with [parseInt], and the parser of the server file,
    which reads them with the unary plus, return the same number of hours
    for every input. *)
Theorem parsers_agree (str : option string) :
  RoutesDuration.parseZohoDurationToHours str == Duration.parseZohoDurationToHours str.
Proof.
  destruct str as [[|c0 r0]|]; [reflexivity| |reflexivity].
  unfold RoutesDuration.parseZohoDurationToHours, parseZohoDurationToHours.
  set (s := Js.toLowerCase (Js.trim (String c0 r0))).
  destruct (search re_days s) as [m|] eqn:E1.
  { apply search_sound in E1 as (t & s' & H).
    destruct (re_days_same _ _ _ H) as (-> & -> & ->). reflexivity. }
  destruct (search re_hm s) as [m|] eqn:E2.
  { apply search_sound in E2 as (t & s' & H).
    destruct (re_hm_same _ _ _ H) as (-> & ->). reflexivity. }
  reflexivity.
Qed.

End ParserFacts.

(** ** Hours written with more than two digits *)

Module HoursDigits.
Import Regex RegexSpec RegexFacts NumberFacts Duration DurationTexts.

Lemma append_assoc_cons (x : string) (c : ascii) (y : string) :
  String.append (String c x) y = String c (String.append x y).
Proof. reflexivity. Qed.

Lemma all_chars_app (p : ascii -> bool) (x y : string) :
  Js.all_chars p (String.append x y) = Js.all_chars p x && Js.all_chars p y.
Proof.
  induction x as [|c x IH]; [done|].
  rewrite append_assoc_cons. simpl. by rewrite IH, andb_assoc.
Qed.

Lemma all_chars_drop (p : ascii -> bool) (n : nat) :
  forall s, Js.all_chars p s = true -> Js.all_chars p (drop n s) = true.
Proof.
  induction n as [|n IH]; intros [|c s]; simpl; try done.
  intros [_ H]%andb_prop. by apply IH.
Qed.

Lemma all_chars_weaken (p q : ascii -> bool) (s : string) :
  (forall c, p c = true -> q c = true) ->
  Js.all_chars p s = true -> Js.all_chars q s = true.
Proof.
  intros Hpq. induction s as [|c s IH]; simpl; [done|].
  intros [Hc Hs]%andb_prop. by rewrite (Hpq c Hc), IH.
Qed.

Lemma head_not (p : ascii -> bool) (s : string) :
  Js.all_chars (fun c => negb (p c)) s = true -> head_is p s = false.
Proof.
  destruct s as [|c s]; [done|]. cbn [Js.all_chars head_is].
  intros [H _]%andb_prop. by destruct (p c).
Qed.

Lemma search_none (r : re) (s : string) :
  (forall n, match_here r (drop n s) = None) -> search r s = None.
Proof.
  induction s as [|c s IH]; intros H; simpl.
  - pose proof (H 0%nat) as H0. simpl in H0. by rewrite H0.
  - pose proof (H 0%nat) as H0. simpl in H0. rewrite H0.
    apply IH. intros n. apply (H (S n)).
Qed.

Lemma search_skip (r : re) (x y : string) :
  (forall n, (n < String.length x)%nat ->
             match_here r (String.append (drop n x) y) = None) ->
  search r (String.append x y) = search r y.
Proof.
  induction x as [|c x IH]; intros H; [done|].
  rewrite append_assoc_cons. simpl.
  pose proof (H 0%nat ltac:(simpl; lia)) as H0. simpl in H0.
  rewrite append_assoc_cons in H0. rewrite H0.
  apply IH. intros n Hn. apply (H (S n)). simpl. lia.
Qed.

(** The characters of a text of hours and minutes. *)
Lemma longHours_chars (p : ascii -> bool) (ds : string) (a b m n : ascii) :
  (forall c, Js.is_digit c = true -> p c = true) ->
  p ":"%char = true -> p " "%char = true -> p "h"%char = true ->
  p "r"%char = true -> p "s"%char = true ->
  Js.all_chars Js.is_digit ds = true ->
  Js.is_digit a = true -> Js.is_digit b = true ->
  Js.is_digit m = true -> Js.is_digit n = true ->
  Js.all_chars p (longHours ds a b m n) = true.
Proof.
  intros Hd H1 H2 H3 H4 H5 Hds Ha Hb Hm Hn. unfold longHours, hmText.
  rewrite all_chars_app, (all_chars_weaken _ p ds Hd Hds). simpl.
  by rewrite (Hd a Ha), (Hd b Hb), (Hd m Hm), (Hd n Hn), H1, H2, H3, H4, H5.
Qed.

Lemma digit_not (x : ascii) (c : ascii) :
  Js.is_digit x = false -> Js.is_digit c = true -> negb (Ascii.eqb x c) = true.
Proof.
  intros Hx Hc. destruct (Ascii.eqb_spec x c) as [->|]; [congruence|done].
Qed.

(** No match of the pattern with days in such a text. *)
Lemma no_days (ds : string) (a b m n : ascii) :
  Js.all_chars Js.is_digit ds = true ->
  Js.is_digit a = true -> Js.is_digit b = true ->
  Js.is_digit m = true -> Js.is_digit n = true ->
  search re_days (longHours ds a b m n) = None.
Proof.
  intros Hds Ha Hb Hm Hn. apply search_none. intros k.
  destruct (match_here re_days (drop k (longHours ds a b m n))) as [cs|] eqn:E; [|done].
  exfalso. unfold match_here in E.
  apply exec_sound in E as (s' & cs' & H & _).
  unfold re_days in H. cbn [seq] in H.
  DurationBounds.group_step H j1 Hj1. destruct H as (s2 & c2 & H2 & H).
  destruct H2 as (-> & j2 & Hj2 & ->).
  cbn [lit] in H. destruct H as (s3 & c3 & (s4 & c4 & H4 & _) & _).
  destruct H4 as (-> & j4 & Hj4 & ->).
  assert (Hd : head_is (Ascii.eqb "d")
                 (drop j2 (drop j1 (drop k (longHours ds a b m n)))) = true).
  { eapply DurationBounds.run_head with (hi := Some 1%nat). lia. }
  rewrite head_not in Hd; [done|].
  do 3 apply all_chars_drop.
  apply longHours_chars; try done. intros c Hc. by apply digit_not.
Qed.

Lemma run_length_bound (p : ascii -> bool) (b : nat) :
  forall s, (run_length p s (Some b) <= b)%nat.
Proof.
  induction b as [|b IH]; intros s; [by destruct s|].
  destruct s as [|c s]; simpl; [lia|].
  destruct (p c); [|lia]. specialize (IH s). lia.
Qed.

Lemma head_digit_not_colon (s : string) :
  head_is Js.is_digit s = true -> head_is (Ascii.eqb ":") s = false.
Proof.
  destruct s as [|c s]; [done|]. unfold head_is. intros Hc.
  apply Ascii.eqb_neq. intros <-. by vm_compute in Hc.
Qed.

Lemma head_digit_app (x y : string) :
  Js.all_chars Js.is_digit x = true -> head_is Js.is_digit y = true ->
  head_is Js.is_digit (String.append x y) = true.
Proof.
  destruct x as [|c x]; [done|]. rewrite append_assoc_cons. simpl.
  by intros [H _]%andb_prop.
Qed.

(** No match of the hours and minutes pattern while three digits or more
    remain before the colon. *)
Lemma no_hm_before (d : ascii) (ds : string) (a b m n : ascii) :
  Js.is_digit d = true -> Js.all_chars Js.is_digit ds = true ->
  Js.is_digit a = true -> Js.is_digit b = true ->
  match_here re_hm (String.append (String d ds) (hmText a b m n)) = None.
Proof.
  intros Hd Hds Ha Hb.
  destruct (match_here re_hm _) as [cs|] eqn:E; [|done].
  exfalso. unfold match_here in E.
  apply exec_sound in E as (s' & cs' & H & _).
  unfold re_hm in H. cbn [seq] in H.
  DurationBounds.group_step H j1 Hj1. destruct H as (s2 & c2 & H2 & _).
  destruct H2 as (-> & j2 & Hj2 & ->).
  assert (Hc : head_is (Ascii.eqb ":")
                 (drop j1 (String.append (String d ds) (hmText a b m n))) = true).
  { eapply DurationBounds.run_head with (hi := Some 1%nat). lia. }
  rewrite head_digit_not_colon in Hc; [done|].
  rewrite append_assoc_cons.
  assert (Hj : (j1 <= 2)%nat).
  { destruct Hj1 as [_ Hj1]. etrans; [exact Hj1|]. apply run_length_bound. }
  destruct j1 as [|[|[|j1]]]; [lia| | |lia]; simpl.
  - by apply head_digit_app.
  - destruct ds as [|d2 ds].
    + change (String.append "" (hmText a b m n)) with (hmText a b m n). done.
    + rewrite append_assoc_cons. cbn [drop].
      simpl in Hds. apply andb_prop in Hds as [_ Hds]. by apply head_digit_app.
Qed.

Lemma hm_match (a b m n : ascii) :
  Js.is_digit a = true -> Js.is_digit b = true ->
  Js.is_digit m = true -> Js.is_digit n = true ->
  match_here re_hm (hmText a b m n)
  = Some [(2%nat, String m (String n "")); (1%nat, String a (String b ""))].
Proof.
  intros Ha Hb Hm Hn. unfold match_here, re_hm, hmText. cbn [seq exec lit].
  cbn. rewrite Ha, Hb. cbn. rewrite Hm, Hn. cbn. reflexivity.
Qed.

Lemma rev_acc_app (x y acc : string) :
  Js.rev_acc (String.append x y) acc = Js.rev_acc y (Js.rev_acc x acc).
Proof.
  revert acc. induction x as [|c x IH]; intros acc; [done|].
  rewrite append_assoc_cons. simpl. apply IH.
Qed.

Lemma toLowerCase_app (x y : string) :
  Js.toLowerCase (String.append x y)
  = String.append (Js.toLowerCase x) (Js.toLowerCase y).
Proof.
  induction x as [|c x IH]; [done|].
  rewrite append_assoc_cons. simpl. by rewrite IH.
Qed.

Lemma toLowerCase_digits (s : string) :
  Js.all_chars Js.is_digit s = true -> Js.toLowerCase s = s.
Proof.
  induction s as [|c s IH]; simpl; [done|].
  intros [Hc Hs]%andb_prop.
  by rewrite (proj2 (SearchFacts.is_digit_lower c) Hc), IH.
Qed.

(** A text of hours and minutes is already trimmed and in lower case. *)
Lemma longHours_normal (ds : string) (a b m n : ascii) :
  Js.all_chars Js.is_digit ds = true ->
  Js.is_digit a = true -> Js.is_digit b = true ->
  Js.is_digit m = true -> Js.is_digit n = true ->
  Js.trim (longHours ds a b m n) = longHours ds a b m n
  /\ Js.toLowerCase (longHours ds a b m n) = longHours ds a b m n.
Proof.
  intros Hds Ha Hb Hm Hn. split.
  - unfold Js.trim.
    rewrite (trimStart_head (longHours ds a b m n)) by (by apply head_digit_app).
    assert (Hr : Js.trimStart (Js.rev (longHours ds a b m n))
                 = Js.rev (longHours ds a b m n)).
    { unfold Js.rev, longHours. rewrite rev_acc_app. reflexivity. }
    rewrite Hr. apply rev_rev.
  - unfold longHours. rewrite toLowerCase_app, (toLowerCase_digits ds Hds).
    f_equal. unfold hmText. simpl.
    by rewrite (proj2 (SearchFacts.is_digit_lower a) Ha),
      (proj2 (SearchFacts.is_digit_lower b) Hb),
      (proj2 (SearchFacts.is_digit_lower m) Hm),
      (proj2 (SearchFacts.is_digit_lower n) Hn).
Qed.

Lemma drop_digits (k : nat) (ds : string) :
  (k < String.length ds)%nat -> Js.all_chars Js.is_digit ds = true ->
  exists d ds', drop k ds = String d ds' /\ Js.is_digit d = true
                /\ Js.all_chars Js.is_digit ds' = true.
Proof.
  revert ds. induction k as [|k IH]; intros [|c ds] Hk Hds; simpl in *; try lia.
  - apply andb_prop in Hds as [Hc Hds]. by exists c, ds.
  - apply andb_prop in Hds as [Hc Hds]. apply IH; [lia|done].
Qed.

(** The match of the hours and minutes pattern in such a text. *)
Lemma hm_search (ds : string) (a b m n : ascii) :
  Js.all_chars Js.is_digit ds = true ->
  Js.is_digit a = true -> Js.is_digit b = true ->
  Js.is_digit m = true -> Js.is_digit n = true ->
  search re_hm (longHours ds a b m n)
  = Some [(2%nat, String m (String n "")); (1%nat, String a (String b ""))].
Proof.
  intros Hds Ha Hb Hm Hn. unfold longHours. rewrite search_skip.
  - unfold hmText at 1. cbn [search]. fold (hmText a b m n). by rewrite hm_match.
  - intros k Hk. destruct (drop_digits k ds Hk Hds) as (d & ds' & -> & Hd & Hds').
    by apply no_hm_before.
Qed.

Lemma two_digits (a b : ascii) (cs : caps) (i : nat) :
  Js.is_digit a = true -> Js.is_digit b = true ->
  group i cs = Some (String a (String b "")) ->
  (cap_num i cs == inject_Z (twoDigits a b))%Q.
Proof.
  intros Ha Hb Hg. unfold cap_num, twoDigits. rewrite Hg.
  apply ParserFacts.Number_digits; simpl; [by rewrite Ha, Hb | done].
Qed.

(** X9. In a text "H...HH:MM hrs" without a days part the server parser
    reads the minutes and only the last two digits of the hours, whatever
    digits precede them: "123:40 hrs" gives 23 hours and 40 minutes. *)
Theorem hours_beyond_two_digits_dropped (ds : string) (a b m n : ascii) :
  Js.all_chars Js.is_digit ds = true ->
  Js.is_digit a = true -> Js.is_digit b = true ->
  Js.is_digit m = true -> Js.is_digit n = true ->
  (parseZohoDurationToHours (Some (longHours ds a b m n))
   == inject_Z (twoDigits a b) + inject_Z (twoDigits m n) / 60)%Q.
Proof.
  intros Hds Ha Hb Hm Hn.
  destruct (longHours_normal ds a b m n Hds Ha Hb Hm Hn) as [Ht Hl].
  assert (Hp : parseZohoDurationToHours (Some (longHours ds a b m n))
               = match search re_days (longHours ds a b m n) with
                 | Some m0 => (cap_num 1 m0 * 24 + cap_num 2 m0 + cap_num 3 m0 / 60)%Q
                 | None =>
                     match search re_hm (longHours ds a b m n) with
                     | Some m0 => (cap_num 1 m0 + cap_num 2 m0 / 60)%Q
                     | None =>
                         match search re_number (longHours ds a b m n) with
                         | Some m0 =>
                             match group 1 m0 with
                             | Some v => Js.or0 (Js.parseFloat v)
                             | None => 0%Q
                             end
                         | None => 0%Q
                         end
                     end
                 end).
  { unfold parseZohoDurationToHours.
    destruct (longHours ds a b m n) eqn:E.
    - exfalso. unfold longHours in E. destruct ds; discriminate E.
    - rewrite <- E in *. by rewrite Ht, Hl. }
  rewrite Hp, (no_days ds a b m n), (hm_search ds a b m n) by done.
  rewrite (two_digits a b _ 1), (two_digits m n _ 2) by done.
  reflexivity.
Qed.

Lemma hours_beyond_two_digits_dropped_witness :
  Js.all_chars Js.is_digit "1" = true
  /\ Js.is_digit "2" = true /\ Js.is_digit "3" = true
  /\ Js.is_digit "4" = true /\ Js.is_digit "0" = true
  /\ longHours "1" "2" "3" "4" "0" = "123:40 hrs"%string
  /\ (parseZohoDurationToHours (Some (longHours "1" "2" "3" "4" "0"))
      == inject_Z 23 + inject_Z 40 / 60)%Q.
Proof.
  split; [reflexivity|]. split; [reflexivity|]. split; [reflexivity|].
  split; [reflexivity|]. split; [reflexivity|]. split; [reflexivity|].
  apply (hours_beyond_two_digits_dropped "1" "2" "3" "4" "0"); reflexivity.
Defined.

End HoursDigits.

(** ** The dedupe step *)

Module DedupeFacts.
Import Ticket Reconcile ReconcileFacts.

Lemma dedupe_sublist (rows : list row) :
  forall seen, dedupe seen rows `sublist_of` rows.
Proof.
  induction rows as [|x rest IH]; intros seen; simpl; [done|].
  case_bool_decide; [apply sublist_cons, IH | apply sublist_skip, IH].
Qed.

Lemma dedupe_fixed (rows : list row) :
  forall seen, NoDup (ids rows) -> (forall i, i ∈ ids rows -> i ∉ seen) ->
               dedupe seen rows = rows.
Proof.
  induction rows as [|x rest IH]; intros seen Hnd Hseen; simpl; [done|].
  simpl in Hnd. apply NoDup_cons in Hnd as [Hx Hnd].
  rewrite bool_decide_eq_false_2 by (apply Hseen; simpl; set_solver).
  f_equal. apply IH; [done|].
  intros i Hi. simpl in Hseen. specialize (Hseen i ltac:(set_solver)).
  assert (i <> r_id x) by (intros ->; done). set_solver.
Qed.

(** X10. The dedupe step only drops rows: its result is a sub-list of its
    input in the input's order, and running it on its own result changes
    nothing. *)
Theorem dedupe_sublist_idempotent (rows : list row) :
  dedupe ∅ rows `sublist_of` rows
  /\ dedupe ∅ (dedupe ∅ rows) = dedupe ∅ rows.
Proof.
  split; [apply dedupe_sublist|].
  apply dedupe_fixed; [apply dedupe_NoDup | set_solver].
Qed.

(** X11. The dedupe step returns its input unchanged exactly when no id
    occurs twice in it. *)
Theorem dedupe_identity_iff (rows : list row) :
  dedupe ∅ rows = rows <-> NoDup (ids rows).
Proof.
  split.
  - intros H. rewrite <- H. apply dedupe_NoDup.
  - intros H. apply dedupe_fixed; [done | set_solver].
Qed.

End DedupeFacts.

(** ** Rows of [/api/archived-tickets] *)

Module ArchivedRouteFacts.
Import Ticket Reconcile ArchivedRoute.

Lemma closedOnly_status (t : ticket) (ts : list ticket) :
  t ∈ closedOnly ts -> Js.toLowerCase (Js.or_str (status t) "") = "closed"%string.
Proof.
  unfold closedOnly. rewrite list_elem_of_In, filter_In.
  intros [_ H]. by apply String.eqb_eq in H.
Qed.

Lemma mapTicket_closed (dl : list department) (names : gmap string string)
      (src : source) (t : ticket) :
  Js.toLowerCase (Js.or_str (status t) "") = "closed"%string ->
  Js.toLowerCase (r_status (mapTicket dl names src t)) = "closed"%string.
Proof.
  simpl. destruct (status t) as [[|c s]|]; simpl; done.
Qed.

(** X12. Every row of the archived tickets route comes from a ticket whose
    status is "closed" up to letter case, and shows that status: a ticket
    with another status, such as "Resolved", never reaches the response. *)
Theorem rows_are_closed (departmentList : list department)
        (agentIdToName : gmap string string) (agentId : option string)
        (archivedFetched activeFetched : list ticket)
        (results : list (ticket * Metrics.metrics)) :
  Forall (fun r => Js.toLowerCase (r_status (base r)) = "closed"%string)
         (rowsBeforeSort departmentList agentIdToName agentId
                         archivedFetched activeFetched results).
Proof.
  unfold rowsBeforeSort, enrich. rewrite Forall_map. simpl.
  apply Forall_forall. intros r Hr.
  unfold allRows in Hr.
  pose proof (elem_of_sublist _ _ _ Hr (DedupeFacts.dedupe_sublist _ ∅)) as Hin.
  clear Hr. unfold archivedRows, activeClosedRows in Hin.
  apply elem_of_app in Hin as [Hin|Hin];
    apply list_elem_of_fmap in Hin as (t & -> & Ht);
    apply mapTicket_closed; by eapply closedOnly_status.
Qed.

Lemma frMap_last (metricsRows : list AgentPerformance.metricRow) (key : string) :
  frMap metricsRows !! key
  = if Js.truthy key then lastFirstResponse key metricsRows else None.
Proof.
  unfold frMap, lastFirstResponse. rewrite <- (rev_involutive metricsRows).
  induction (rev metricsRows) as [|m l IH]; simpl.
  - rewrite lookup_empty. by destruct (Js.truthy key).
  - rewrite foldl_app, filter_app, map_app. simpl. unfold frMap_step at 1.
    rewrite filter_cons, filter_nil.
    destruct (decide (AgentPerformance.metricKey m = key)) as [Hk|Hk].
    + subst key. simpl. rewrite last_snoc.
      destruct (Js.truthy (AgentPerformance.metricKey m)); simpl;
        [by rewrite lookup_insert_eq|].
      rewrite IH. done.
    + simpl. rewrite app_nil_r.
      destruct (Js.truthy (AgentPerformance.metricKey m)); simpl; [|done].
      by rewrite lookup_insert_ne.
Qed.

(** X13. The enrichment with first response times keeps the rows and their
    order; each row gets the first response time of the last metrics row
    filed under its ticket number, and the empty text when there is none
    or the ticket number is empty. *)
Theorem enrich_last_metrics_row (allRows : list row)
        (metricsRows : list AgentPerformance.metricRow) :
  List.map base (enrich allRows metricsRows) = allRows
  /\ Forall (fun r =>
               firstResponseTime r
               = if Js.truthy (r_ticketNumber (base r))
                 then Js.or_str (lastFirstResponse (r_ticketNumber (base r)) metricsRows) ""
                 else ""%string)
            (enrich allRows metricsRows).
Proof.
  unfold enrich. split.
  - rewrite List.map_map. simpl. apply List.map_id.
  - rewrite Forall_map. apply Forall_forall. intros r _. simpl.
    rewrite frMap_last. by destruct (Js.truthy (r_ticketNumber r)).
Qed.

End ArchivedRouteFacts.

(** ** Binary64 rounding *)

Module RoundingFacts.
Import Js.
Local Open Scope Q_scope.

Lemma pow2_pos (z : Z) : 0 < 2 ^ z.
Proof. apply Qpower_0_lt. reflexivity. Qed.

Lemma pow2_succ (z : Z) : 2 ^ (z + 1) == 2 * 2 ^ z.
Proof. rewrite Qpower_plus by discriminate. simpl. ring. Qed.

Lemma pow2_pred (z : Z) : 2 * 2 ^ (z - 1) == 2 ^ z.
Proof.
  rewrite <- pow2_succ. replace (z - 1 + 1)%Z with z by lia. reflexivity.
Qed.

Lemma pow2_log2 (n : Z) :
  (0 < n)%Z -> 2 ^ Z.log2 n <= inject_Z n /\ inject_Z n < 2 * 2 ^ Z.log2 n.
Proof.
  intros Hn. destruct (Z.log2_spec n Hn) as [H1 H2].
  pose proof (Z.log2_nonneg n) as H0.
  rewrite <- pow2_succ.
  change 2 with (inject_Z 2).
  rewrite <- !Zpower_Qpower by lia.
  split; [rewrite <- Zle_Qle; exact H1 | rewrite <- Zlt_Qlt].
  replace (Z.log2 n + 1)%Z with (Z.succ (Z.log2 n)) by lia. exact H2.
Qed.

(** [log2_floor] brackets a positive number between two powers of two. *)
Lemma log2_floor_spec (q : Q) :
  0 < q -> 2 ^ log2_floor q <= q /\ q < 2 * 2 ^ log2_floor q.
Proof.
  intros Hq. unfold log2_floor.
  assert (Hn : (0 < Qnum q)%Z) by (unfold Qlt in Hq; simpl in Hq; lia).
  destruct (pow2_log2 (Qnum q) Hn) as [Ha1 Ha2].
  destruct (pow2_log2 (Zpos (Qden q)) eq_refl) as [Hb1 Hb2].
  pose proof (pow2_pos (Z.log2 (Qnum q))) as Pa.
  pose proof (pow2_pos (Z.log2 (Zpos (Qden q)))) as Pb.
  set (k := (Z.log2 (Qnum q) - Z.log2 (Zpos (Qden q)))%Z).
  assert (Hk : 2 ^ k * 2 ^ Z.log2 (Z.pos (Qden q)) == 2 ^ Z.log2 (Qnum q)).
  { rewrite <- Qpower_plus by discriminate. f_equiv. unfold k. lia. }
  pose proof (pow2_pos k) as Pk.
  pose proof (pow2_pred k) as Hp.
  assert (Hq' : q * inject_Z (Zpos (Qden q)) == inject_Z (Qnum q)).
  { destruct q as [n d]. simpl. rewrite (Qmake_Qdiv n d). field. discriminate. }
  revert Ha1 Ha2 Hb1 Hb2 Pa Pb Hk Pk Hp Hq'.
  generalize (2 ^ Z.log2 (Qnum q)) (2 ^ Z.log2 (Zpos (Qden q)))
             (inject_Z (Qnum q)) (inject_Z (Zpos (Qden q))).
  intros PA PB N D Ha1 Ha2 Hb1 Hb2 Pa Pb Hk Pk Hp Hq'.
  destruct (Qle_bool (2 ^ k) q) eqn:E.
  - apply Qle_bool_iff in E. split; [exact E|].
    revert E Hk Pk. generalize (2 ^ k). intros K E Hk Pk. nra.
  - assert (E' : q < 2 ^ k).
    { apply Qnot_le_lt. intros H. apply Qle_bool_iff in H. congruence. }
    revert E' Hk Pk Hp. generalize (2 ^ k) (2 ^ (k - 1)). intros K K1 E' Hk Pk Hp.
    split; [|lra]. nra.
Qed.

Lemma nearest_even_spec (x : Q) :
  - (1 # 2) <= inject_Z (nearest_even x) - x <= 1 # 2.
Proof.
  unfold nearest_even.
  pose proof (Qfloor_le x) as H1. pose proof (Qlt_floor x) as H2.
  rewrite inject_Z_plus in H2. change (inject_Z 1) with 1 in H2.
  destruct (Qcompare (x - inject_Z (Qfloor x)) (1 # 2)) eqn:E.
  - apply Qeq_alt in E. destruct (Z.even (Qfloor x)).
    + lra.
    + rewrite inject_Z_plus. change (inject_Z 1) with 1. lra.
  - apply Qlt_alt in E. lra.
  - apply Qgt_alt in E. rewrite inject_Z_plus. change (inject_Z 1) with 1. lra.
Qed.

Lemma nearest_even_nonneg (x : Q) : 0 <= x -> (0 <= nearest_even x)%Z.
Proof.
  intros Hx. unfold nearest_even.
  assert (H0 : (0 <= Qfloor x)%Z).
  { change 0%Z with (Qfloor 0). by apply Qfloor_resp_le. }
  destruct (Qcompare _ _); [destruct (Z.even _)|..]; lia.
Qed.



(** The significand and the exponent of the double nearest to a positive
    number. *)
Lemma round64_pos_spec (a : Q) :
  0 < a ->
  0 <= Qred (inject_Z (nearest_even (a / 2 ^ (log2_floor a - 52)))
             * 2 ^ (log2_floor a - 52))
  /\ Qabs (Qred (inject_Z (nearest_even (a / 2 ^ (log2_floor a - 52)))
                 * 2 ^ (log2_floor a - 52)) - a)
     <= a * (1 # 9007199254740992).
Proof.
  intros Ha. rewrite Qred_correct.
  destruct (log2_floor_spec a Ha) as [H1 _].
  assert (Hx : 2 ^ log2_floor a == 2 ^ (log2_floor a - 52) * 4503599627370496).
  { replace (log2_floor a) with (log2_floor a - 52 + 52)%Z at 1 by lia.
    rewrite Qpower_plus by discriminate. reflexivity. }
  rewrite Hx in H1. clear Hx.
  pose proof (pow2_pos (log2_floor a - 52)) as HX.
  revert H1 HX. generalize (2 ^ (log2_floor a - 52)). intros X H1 HX.
  pose proof (nearest_even_spec (a / X)) as [Hn1 Hn2].
  assert (Hn0 : (0 <= nearest_even (a / X))%Z).
  { apply nearest_even_nonneg. apply Qle_shift_div_l; [done|]. lra. }
  rewrite Zle_Qle in Hn0. change (inject_Z 0) with 0 in Hn0.
  assert (Hy : a / X * X == a) by (field; lra).
  revert Hn1 Hn2 Hn0 Hy. generalize (inject_Z (nearest_even (a / X))) (a / X).
  intros m y Hn1 Hn2 Hn0 Hy.
  split; [nra|]. apply Qabs_Qle_condition. split; nra.
Qed.

Lemma round64_cases (q : Q) :
  (q == 0 /\ round64 q = 0)
  \/ (0 < q /\ 0 <= round64 q
      /\ Qabs (round64 q - q) <= q * (1 # 9007199254740992))
  \/ (q < 0 /\ round64 q <= 0
      /\ Qabs (round64 q - q) <= - q * (1 # 9007199254740992)).
Proof.
  unfold round64. pose proof (Qred_correct q) as Hr.
  revert Hr. generalize (Qred q). intros r Hr.
  destruct (Qeq_bool r 0) eqn:E0.
  - left. apply Qeq_bool_iff in E0. split; [lra | done].
  - apply Qeq_bool_neq in E0. right.
    destruct (Qle_bool 0 r) eqn:E.
    + apply Qle_bool_iff in E. left.
      assert (Hpos : 0 < r) by lra.
      assert (Ha : Qabs r == r) by (apply Qabs_pos; lra).
      pose proof (round64_pos_spec (Qabs r)) as Hs.
      rewrite Ha in Hs at 1. destruct (Hs Hpos) as [H1 H2].
      split; [lra|]. split; [done|].
      apply Qabs_Qle_condition in H2. apply Qabs_Qle_condition.
      revert H1 H2 Ha.
      generalize (Qred (inject_Z (nearest_even (Qabs r / 2 ^ (log2_floor (Qabs r) - 52)))
             * 2 ^ (log2_floor (Qabs r) - 52))) (Qabs r). intros M A H1 H2 Ha. lra.
    + right.
      assert (Hneg : r < 0).
      { apply Qnot_le_lt. intros H. apply Qle_bool_iff in H. congruence. }
      assert (Ha : Qabs r == - r) by (apply Qabs_neg; lra).
      pose proof (round64_pos_spec (Qabs r)) as Hs.
      assert (Hpos : 0 < Qabs r) by lra.
      destruct (Hs Hpos) as [H1 H2].
      split; [lra|]. split; [lra|].
      apply Qabs_Qle_condition in H2. apply Qabs_Qle_condition.
      revert H1 H2 Ha.
      generalize (Qred (inject_Z (nearest_even (Qabs r / 2 ^ (log2_floor (Qabs r) - 52)))
             * 2 ^ (log2_floor (Qabs r) - 52))) (Qabs r). intros M A H1 H2 Ha. lra.
Qed.

Lemma round64_nonneg (q : Q) : 0 <= q -> 0 <= round64 q.
Proof.
  intros H. destruct (round64_cases q) as [[_ ->]|[(_ & H1 & _)|(H1 & _)]];
    [done | done | lra].
Qed.



(** The model agrees with the division of the runtime's binary64 numbers on
    quotients of integers, ties included. *)
Example round64_is_binary64_division :
  forallb (fun ab : Z * positive =>
             Qeq_bool (Binary64.to_Q (PrimFloat.div (Binary64.of_Z (fst ab))
                                                    (Binary64.of_Z (Zpos (snd ab)))))
                      (round64 (Qmake (fst ab) (snd ab))))
          [(54000%Z, 3600000%positive); (4014000%Z, 3600000%positive);
           (18000%Z, 3600000%positive); (1%Z, 100%positive); (111%Z, 100%positive);
           (1%Z, 3%positive); (2%Z, 3%positive); (9007199254740991%Z, 7%positive);
           (4503599627370497%Z, 2%positive); (4503599627370499%Z, 2%positive);
           (4503599627370501%Z, 4%positive); (4503599627370502%Z, 4%positive);
           (1%Z, 9007199254740991%positive); (123456789012345%Z, 7%positive)]
  = true.
Proof. vm_compute. reflexivity. Qed.

End RoundingFacts.

(** ** Resolution time of a row *)

Module DiffFacts.
Import Ticket Reconcile RoundingFacts.
Local Open Scope Q_scope.

Lemma round_error (x : Q) :
  - (1 # 2) < inject_Z (Js.round x) - x <= 1 # 2.
Proof.
  unfold Js.round.
  pose proof (Qfloor_le (x + (1 # 2))). pose proof (Qlt_floor (x + (1 # 2))).
  rewrite inject_Z_plus in H0. change (inject_Z 1) with 1 in H0.
  split; lra.
Qed.




Lemma hundredths_nonneg (q : Q) : 0 <= q -> 0 <= Js.hundredths q.
Proof.
  intros H. unfold Js.hundredths. rewrite (proj2 (Qle_bool_iff 0 q) H).
  pose proof (round_error (q * 100)) as [H1 H2].
  assert (Hr : (0 <= Js.round (q * 100))%Z).
  { apply Z.lt_succ_r. rewrite Zlt_Qlt. unfold Z.succ. rewrite inject_Z_plus.
    change (inject_Z 0) with 0. change (inject_Z 1) with 1. lra. }
  apply Qle_shift_div_l; [reflexivity|].
  rewrite Zle_Qle in Hr. change (inject_Z 0) with 0 in Hr. lra.
Qed.



Lemma toFixed2_nonneg (q : Q) : 0 <= q -> 0 <= Js.toFixed2 q.
Proof.
  intros H. unfold Js.toFixed2.
  by apply round64_nonneg, hundredths_nonneg, round64_nonneg.
Qed.



(** The instants 54 s, 4014 s and 18 s apart: the quotients 0.015, 1.115
    and 0.005 are not binary64 numbers, and the nearest ones print as 0.01,
    1.11 and 0.01. *)
Example diffInHours_half_hundredths :
  diffInHours (At 0) (At 54000) = Some (Js.round64 (1 # 100))
  /\ diffInHours (At 0) (At 4014000) = Some (Js.round64 (111 # 100))
  /\ diffInHours (At 0) (At 18000) = Some (Js.round64 (1 # 100))
  /\ diffInHours (At 0) (At 5400000) = Some (3 # 2).
Proof. repeat split; vm_compute; reflexivity. Qed.

(** X15. A row built by [mapTicket] from a ticket whose closing instant
    (or, failing that, last modification) is not before its creation
    instant shows a resolution time that is present and not negative. *)
Theorem mapTicket_resolution_nonneg (departmentList : list department)
        (agentIdToName : gmap string string) (src : source) (t : ticket) (s e : Z) :
  createdTime t = At s ->
  or_time (closedTime t) (lastModifiedTime t) = At e ->
  (s <= e)%Z ->
  exists h, r_resolutionTimeHours (mapTicket departmentList agentIdToName src t) = Some h
            /\ 0 <= h.
Proof.
  intros Hc He Hle. unfold mapTicket. cbn [r_resolutionTimeHours].
  rewrite Hc, He. unfold diffInHours. cbn [or_time].
  eexists. split; [reflexivity|]. apply toFixed2_nonneg.
  apply Qle_shift_div_l; [reflexivity|].
  assert (H : 0 <= inject_Z (e - s)).
  { assert (0 <= e - s)%Z by lia. rewrite Zle_Qle in H. exact H. }
  pose proof (round64_nonneg _ H). lra.
Qed.

Lemma mapTicket_resolution_nonneg_witness :
  createdTime Samples.archivedA1 = At (10 * Samples.day)
  /\ or_time (closedTime Samples.archivedA1) (lastModifiedTime Samples.archivedA1)
     = At (15 * Samples.day)
  /\ (10 * Samples.day <= 15 * Samples.day)%Z
  /\ exists h, r_resolutionTimeHours
                 (mapTicket Samples.departments Samples.agentNames archived
                            Samples.archivedA1) = Some h
               /\ 0 <= h.
Proof.
  split; [reflexivity|]. split; [reflexivity|]. split; [vm_compute; discriminate|].
  apply (mapTicket_resolution_nonneg Samples.departments Samples.agentNames archived
           Samples.archivedA1 (10 * Samples.day) (15 * Samples.day)).
  - reflexivity.
  - reflexivity.
  - vm_compute. discriminate.
Defined.

End DiffFacts.

(** ** Contents of the aging table *)

Module AgingViewFacts.
Import Ticket Aging AgingView AgingFacts.

Ltac in_names :=
  unfold bucketNames, fineNames, coarseNames, statusKeys; simpl;
  first [ assumption
        | apply list_elem_of_here
        | apply list_elem_of_further; in_names ].

Lemma fine_in_buckets (b : string) : b ∈ fineNames -> b ∈ bucketNames.
Proof. intros H. unfold bucketNames. apply elem_of_app. by left. Qed.

Lemma coarse_in_buckets (b : string) : b ∈ coarseNames -> b ∈ bucketNames.
Proof. intros H. unfold bucketNames. apply elem_of_app. by right. Qed.

Lemma length_filter_one {A} (f : A -> bool) (x : A) :
  length (List.filter f [x]) = if f x then 1%nat else 0%nat.
Proof. simpl. by destruct (f x). Qed.

Lemma ticketsKey_inj_all (st b st' b' : string) :
  st ∈ statusKeys -> b ∈ bucketNames -> st' ∈ statusKeys -> b' ∈ bucketNames ->
  ticketsKey st b = ticketsKey st' b' -> st = st' /\ b = b'.
Proof.
  intros H1 H2 H3 H4. in_list H1; in_list H2; in_list H3; in_list H4;
    first [done | str_neq].
Qed.

Lemma fine_step_bucket (st : string) (age : Js.num) (tn : string) (ac : agingCounts) :
  fine_step st age tn ac
  = match fineBucket age with
    | Some B => push (ticketsKey st B) tn ac
    | None => ac
    end.
Proof. unfold fine_step, fineBucket. repeat case_match; done. Qed.

Lemma coarse_step_bucket (st : string) (age : Js.num) (tn : string) (ac : agingCounts) :
  coarse_step st age tn ac
  = match coarseBucket age with
    | Some B => push (ticketsKey st B) tn (incr (countKey st B) ac)
    | None => ac
    end.
Proof. unfold coarse_step, coarseBucket. repeat case_match; done. Qed.

Lemma fineBucket_name (age : Js.num) (B : string) :
  fineBucket age = Some B -> B ∈ bucketNames.
Proof.
  unfold fineBucket. repeat case_match; intros [= <-];
    unfold bucketNames, fineNames; simpl; set_solver.
Qed.

Lemma coarseBucket_name (age : Js.num) (B : string) :
  coarseBucket age = Some B -> B ∈ bucketNames.
Proof.
  unfold coarseBucket. repeat case_match; intros [= <-];
    unfold bucketNames, coarseNames; simpl; set_solver.
Qed.

(** The comparisons of the two chains on each range of ages. *)
Lemma age_ranges (q : Q) :
  let v := (Qle_bool 0 q, Qle_bool 8 q, Qle_bool 16 q, Qle_bool 31 q, Qle_bool q 30) in
  v = (false, false, false, false, true)
  \/ v = (true, false, false, false, true)
  \/ v = (true, true, false, false, true)
  \/ v = (true, true, true, false, true)
  \/ v = (true, true, true, false, false)
  \/ v = (true, true, true, true, false).
Proof.
  simpl.
  destruct (Qlt_le_dec q 0) as [H0|H0].
  { left. rewrite (Qle_bool_false 0 q), (Qle_bool_false 8 q), (Qle_bool_false 16 q),
      (Qle_bool_false 31 q), (Qle_bool_true q 30); (done || lra). }
  right. destruct (Qlt_le_dec q 8) as [H8|H8].
  { left. rewrite (Qle_bool_true 0 q), (Qle_bool_false 8 q), (Qle_bool_false 16 q),
      (Qle_bool_false 31 q), (Qle_bool_true q 30); (done || lra). }
  right. destruct (Qlt_le_dec q 16) as [H16|H16].
  { left. rewrite (Qle_bool_true 0 q), (Qle_bool_true 8 q), (Qle_bool_false 16 q),
      (Qle_bool_false 31 q), (Qle_bool_true q 30); (done || lra). }
  right. destruct (Qlt_le_dec 30 q) as [H30|H30].
  - right. destruct (Qlt_le_dec q 31) as [H31|H31].
    + left. rewrite (Qle_bool_true 0 q), (Qle_bool_true 8 q), (Qle_bool_true 16 q),
        (Qle_bool_false 31 q), (Qle_bool_false q 30); (done || lra).
    + right. rewrite (Qle_bool_true 0 q), (Qle_bool_true 8 q), (Qle_bool_true 16 q),
        (Qle_bool_true 31 q), (Qle_bool_false q 30); (done || lra).
  - left. rewrite (Qle_bool_true 0 q), (Qle_bool_true 8 q), (Qle_bool_true 16 q),
      (Qle_bool_false 31 q), (Qle_bool_true q 30); (done || lra).
Qed.

Ltac by_age_range q :=
  let H := fresh in
  pose proof (age_ranges q) as H; simpl in H;
  destruct H as [H|[H|[H|[H|[H|H]]]]];
  let H1 := fresh in let H2 := fresh in let H3 := fresh in
  let H4 := fresh in let H5 := fresh in
  injection H as H1 H2 H3 H4 H5; rewrite ?H1, ?H2, ?H3, ?H4, ?H5.

(** A bucket name holds an age exactly when one of the two chains picks
    that name for it. *)
Lemma inBucket_chains (b : string) (age : Js.num) :
  b ∈ bucketNames ->
  inBucket b age
  = bool_decide (fineBucket age = Some b \/ coarseBucket age = Some b).
Proof.
  intros Hb. destruct age as [q|].
  - unfold inBucket, fineBucket, coarseBucket, ge, lt, gt.
    by_age_range q; in_list Hb; vm_compute; reflexivity.
  - in_list Hb; vm_compute; reflexivity.
Qed.

Lemma ticketsOf_incr (k : string) (ac : agingCounts) (st b : string) :
  ticketsOf (incr k ac) st b = ticketsOf ac st b.
Proof. done. Qed.

Lemma ticketsOf_push (ns B v : string) (ac : agingCounts) (st b : string) :
  ns ∈ statusKeys -> B ∈ bucketNames -> st ∈ statusKeys -> b ∈ bucketNames ->
  ticketsOf (push (ticketsKey ns B) v ac) st b
  = (fun l => l ++ if String.eqb ns st && String.eqb B b then [v] else [])
      <$> ticketsOf ac st b.
Proof.
  intros H1 H2 H3 H4. unfold ticketsOf, push. simpl.
  rewrite lookup_alter. case_decide as Hk.
  - apply ticketsKey_inj_all in Hk as [-> ->]; try done.
    by rewrite !String.eqb_refl.
  - assert (Hne : String.eqb ns st && String.eqb B b = false).
    { destruct (String.eqb_spec ns st) as [->|]; [|done].
      destruct (String.eqb_spec B b) as [->|]; done. }
    rewrite Hne. destruct (lists ac !! ticketsKey st b); simpl; [|done].
    by rewrite app_nil_r.
Qed.

Lemma fmap_app_nil (o : option (list string)) :
  (fun l => l ++ []) <$> o = o.
Proof. destruct o; simpl; [by rewrite app_nil_r|done]. Qed.

(** What the body of the loop appends to one list of the entry. *)
Lemma ticketsOf_age_step (ns : string) (age : option Js.num) (tn : string)
      (ac : agingCounts) (st b : string) :
  st ∈ statusKeys -> b ∈ bucketNames ->
  ticketsOf (age_step ns age tn ac) st b
  = (fun l => l ++ if String.eqb ns st
                      && match age with Some a => inBucket b a | None => false end
                   then [tn] else [])
      <$> ticketsOf ac st b.
Proof.
  intros Hst Hb. unfold age_step. destruct age as [a|].
  2:{ rewrite andb_false_r. by rewrite fmap_app_nil. }
  rewrite (inBucket_chains b a Hb).
  destruct (decide (ns ∈ statusKeys)) as [Hns|Hns].
  - rewrite bool_decide_eq_true_2 by done.
    assert (Hc : (if String.eqb ns "open" then coarse_step "open" a tn (fine_step ns a tn ac)
                  else if String.eqb ns "hold" then coarse_step "hold" a tn (fine_step ns a tn ac)
                  else if String.eqb ns "inProgress"
                       then coarse_step "inProgress" a tn (fine_step ns a tn ac)
                  else if String.eqb ns "escalated"
                       then coarse_step "escalated" a tn (fine_step ns a tn ac)
                  else fine_step ns a tn ac)
                 = coarse_step ns a tn (fine_step ns a tn ac)).
    { clear -Hns. in_list Hns; reflexivity. }
    rewrite Hc, coarse_step_bucket, fine_step_bucket.
    destruct (fineBucket a) as [F|] eqn:EF; destruct (coarseBucket a) as [C|] eqn:EC.
    + pose proof (fineBucket_name _ _ EF). pose proof (coarseBucket_name _ _ EC).
      rewrite ticketsOf_push, ticketsOf_incr, ticketsOf_push by done.
      assert (F <> C).
      { intros ->. clear -EF EC. unfold fineBucket, coarseBucket in *.
        repeat case_match; congruence. }
      destruct (ticketsOf ac st b) as [l|]; simpl; [|done]. f_equal.
      destruct (String.eqb_spec ns st) as [->|]; simpl; [|by rewrite !app_nil_r].
      destruct (String.eqb_spec F b) as [->|]; destruct (String.eqb_spec C b) as [->|];
        simpl; try done.
      * rewrite bool_decide_eq_true_2 by (by left). by rewrite app_nil_r.
      * rewrite bool_decide_eq_true_2 by (by right). by rewrite app_nil_r.
      * rewrite bool_decide_eq_false_2 by (intros [[=]|[=]]; done). by rewrite !app_nil_r.
    + pose proof (fineBucket_name _ _ EF).
      rewrite ticketsOf_push by done.
      destruct (ticketsOf ac st b) as [l|]; simpl; [|done]. f_equal.
      destruct (String.eqb_spec ns st) as [->|]; simpl; [|done].
      destruct (String.eqb_spec F b) as [->|]; simpl.
      * by rewrite bool_decide_eq_true_2 by (by left).
      * by rewrite bool_decide_eq_false_2 by (intros [[=]|[=]]; done).
    + pose proof (coarseBucket_name _ _ EC).
      rewrite ticketsOf_push, ticketsOf_incr by done.
      destruct (ticketsOf ac st b) as [l|]; simpl; [|done]. f_equal.
      destruct (String.eqb_spec ns st) as [->|]; simpl; [|done].
      destruct (String.eqb_spec C b) as [->|]; simpl.
      * by rewrite bool_decide_eq_true_2 by (by right).
      * by rewrite bool_decide_eq_false_2 by (intros [[=]|[=]]; done).
    + rewrite bool_decide_eq_false_2 by (intros [[=]|[=]]).
      rewrite andb_false_r. by rewrite fmap_app_nil.
  - rewrite bool_decide_eq_false_2 by done.
    assert (Hne : String.eqb ns st = false).
    { destruct (String.eqb_spec ns st) as [->|]; done. }
    rewrite Hne. simpl. rewrite fmap_app_nil.
    assert (Hc : (if String.eqb ns "open" then coarse_step "open" a tn ac
                  else if String.eqb ns "hold" then coarse_step "hold" a tn ac
                  else if String.eqb ns "inProgress" then coarse_step "inProgress" a tn ac
                  else if String.eqb ns "escalated" then coarse_step "escalated" a tn ac
                  else ac) = ac).
    { clear -Hns.
      destruct (String.eqb_spec ns "open") as [->|]; [exfalso; apply Hns; set_solver|].
      destruct (String.eqb_spec ns "hold") as [->|]; [exfalso; apply Hns; set_solver|].
      destruct (String.eqb_spec ns "inProgress") as [->|]; [exfalso; apply Hns; set_solver|].
      destruct (String.eqb_spec ns "escalated") as [->|]; [exfalso; apply Hns; set_solver|].
      done. }
    by rewrite Hc.
Qed.

Lemma emptyAgingCounts_lists (st b : string) :
  st ∈ statusKeys -> b ∈ bucketNames -> ticketsOf emptyAgingCounts st b = Some [].
Proof. intros H1 H2. in_list H1; in_list H2; vm_compute; reflexivity. Qed.

Lemma filed_keys (now : Z) (a d st b : string) (t : ticket) :
  filed now a d st b t = true -> assigneeKey t = a /\ deptKey t = d.
Proof.
  unfold filed. intros [[[H1 H2]%andb_prop _]%andb_prop _]%andb_prop.
  split; by apply String.eqb_eq.
Qed.

Lemma filter_none {A} (f : A -> bool) (l : list A) :
  (forall x, x ∈ l -> f x = false) -> List.filter f l = [].
Proof.
  induction l as [|x l IH]; intros H; simpl; [done|].
  rewrite (H x) by set_solver. apply IH. intros y Hy. apply H. set_solver.
Qed.

(** The entries of the table after the tickets [l]: every stored list holds
    the numbers of the tickets filed under it, and every ticket has its
    entry. *)
Lemma entries_after (now : Z) (l : list ticket) :
  (forall a byDept d ac st b,
     userDeptAgingCounts now l !! a = Some byDept -> byDept !! d = Some ac ->
     st ∈ statusKeys -> b ∈ bucketNames ->
     ticketsOf ac st b = Some (numbersOf (List.filter (filed now a d st b) l)))
  /\ (forall t, t ∈ l ->
        exists byDept ac, userDeptAgingCounts now l !! assigneeKey t = Some byDept
                          /\ byDept !! deptKey t = Some ac).
Proof.
  unfold userDeptAgingCounts. rewrite <- (rev_involutive l).
  induction (rev l) as [|t r IH]; simpl.
  { split; [intros a byDept d ac st b; by rewrite lookup_empty|].
    intros t Ht. by apply elem_of_nil in Ht. }
  rewrite foldl_app. simpl.
  set (u := foldl (aging_ticket now) ∅ (rev r)) in *.
  destruct IH as [IHl IHd].
  unfold aging_ticket. fold (deptKey t).
  set (a0 := assigneeKey t). set (d0 := deptKey t).
  set (tn := Js.or_str (ticketNumber t) (id t)).
  set (ns := Status.normalizedStatus (status t)).
  split.
  - intros a byDept d ac st b Ha Hd Hst Hb.
    rewrite List.filter_app. unfold numbersOf. rewrite List.map_app. simpl.
    destruct (decide (a0 = a)) as [<-|Hna].
    + rewrite lookup_insert_eq in Ha. injection Ha as <-.
      destruct (decide (d0 = d)) as [<-|Hnd].
      * rewrite lookup_insert_eq in Hd. injection Hd as <-.
        rewrite (ticketsOf_age_step ns _ tn _ st b Hst Hb).
        assert (Hold : ticketsOf (default emptyAgingCounts (default ∅ (u !! a0) !! d0)) st b
                       = Some (List.map (fun t0 => Js.or_str (ticketNumber t0) (id t0))
                                 (List.filter (filed now a0 d0 st b) (rev r)))).
        { destruct (u !! a0) as [bd|] eqn:Hbd; simpl.
          - destruct (bd !! d0) as [ac0|] eqn:Hac; simpl.
            + by apply (IHl a0 bd d0 ac0).
            + rewrite emptyAgingCounts_lists by done.
              rewrite filter_none; [done|].
              intros x Hx. destruct (filed now a0 d0 st b x) eqn:E; [|done].
              apply filed_keys in E as [E1 E2].
              destruct (IHd x Hx) as (bd' & ac' & H1 & H2).
              rewrite E1 in H1. rewrite E2 in H2. congruence.
          - rewrite lookup_empty. simpl. rewrite emptyAgingCounts_lists by done.
            rewrite filter_none; [done|].
            intros x Hx. destruct (filed now a0 d0 st b x) eqn:E; [|done].
            apply filed_keys in E as [E1 E2].
            destruct (IHd x Hx) as (bd' & ac' & H1 & H2).
            rewrite E1 in H1. congruence. }
        rewrite Hold. simpl. f_equal. f_equal.
        unfold filed. fold a0 d0 ns. rewrite !String.eqb_refl. simpl.
        unfold aged. by destruct (String.eqb ns st && _).
      * rewrite lookup_insert_ne in Hd by done.
        assert (Hf : filed now a0 d st b t = false).
        { unfold filed. fold d0. destruct (String.eqb_spec d0 d); [done|].
          by rewrite andb_false_r. }
        rewrite Hf, app_nil_r.
        destruct (u !! a0) as [bd|] eqn:Hbd; simpl in Hd.
        -- by apply (IHl a0 bd d ac).
        -- by rewrite lookup_empty in Hd.
    + rewrite lookup_insert_ne in Ha by done.
      assert (Hf : filed now a d st b t = false).
      { unfold filed. fold a0. destruct (String.eqb_spec a0 a); done. }
      rewrite Hf, app_nil_r. by apply (IHl a byDept d ac).
  - intros x Hx. apply elem_of_app in Hx as [Hx| ->%list_elem_of_singleton].
    + destruct (IHd x Hx) as (bd & ac & H1 & H2).
      destruct (decide (a0 = assigneeKey x)) as [Ha|Ha].
      * rewrite <- Ha. rewrite lookup_insert_eq. eexists _. 
        rewrite <- Ha in H1. rewrite H1. simpl.
        destruct (decide (d0 = deptKey x)) as [Hd|Hd].
        -- rewrite <- Hd. rewrite lookup_insert_eq. by eexists.
        -- rewrite lookup_insert_ne by done. by eexists.
      * rewrite lookup_insert_ne by done. by exists bd, ac.
    + fold a0 d0. rewrite lookup_insert_eq. eexists _, _. split; [done|].
      by rewrite lookup_insert_eq.
Qed.

(** X16. Every list of ticket numbers that the aging accumulation stores
    for an assignee, a department, one of the four open statuses and a
    bucket holds, in the order of the input, the numbers of exactly the
    tickets with that assignee key, department key and normalized status
    whose age in days lies in the bucket: [0,8), [8,16) and 16 or more for
    the fine lists, [0,16), [16,31) and 31 or more for the coarse ones. *)
Theorem lists_hold_filed_tickets (now : Z) (tickets : list ticket)
        (a d : string) (byDept : gmap string agingCounts) (ac : agingCounts)
        (st b : string) :
  userDeptAgingCounts now tickets !! a = Some byDept ->
  byDept !! d = Some ac ->
  st ∈ statusKeys -> b ∈ bucketNames ->
  ticketsOf ac st b
  = Some (numbersOf (List.filter (filed now a d st b) tickets)).
Proof. intros. by eapply (proj1 (entries_after now tickets)). Qed.

Lemma lists_hold_filed_tickets_witness :
  userDeptAgingCounts Samples.now30 [Samples.thirtyDaysOld] !! "7"%string
    = Some Samples.byDept30
  /\ Samples.byDept30 !! "d1"%string = Some Samples.entry30
  /\ "open"%string ∈ statusKeys /\ "OlderThanFifteenDays"%string ∈ bucketNames
  /\ ticketsOf Samples.entry30 "open" "OlderThanFifteenDays"
     = Some (numbersOf (List.filter (filed Samples.now30 "7" "d1" "open"
                                           "OlderThanFifteenDays")
                                    [Samples.thirtyDaysOld])).
Proof.
  assert (H1 : userDeptAgingCounts Samples.now30 [Samples.thirtyDaysOld] !! "7"%string
               = Some Samples.byDept30).
  { apply Common.present_default. vm_compute. reflexivity. }
  assert (H2 : Samples.byDept30 !! "d1"%string = Some Samples.entry30).
  { apply Common.present_default. vm_compute. reflexivity. }
  assert (H3 : "open"%string ∈ statusKeys) by apply list_elem_of_here.
  assert (H4 : "OlderThanFifteenDays"%string ∈ bucketNames)
    by apply list_elem_of_further, list_elem_of_further, list_elem_of_here.
  repeat (split; [assumption|]).
  exact (lists_hold_filed_tickets Samples.now30 [Samples.thirtyDaysOld] "7" "d1"
           Samples.byDept30 Samples.entry30 "open" "OlderThanFifteenDays"
           H1 H2 H3 H4).
Defined.

(** Each age that is not negative lies in one fine and in one coarse
    bucket, every other age in none. *)
Lemma one_bucket_each (age : Js.num) :
  let n (b : string) := if inBucket b age then 1%nat else 0%nat in
  (n "BetweenOneAndSevenDays" + n "BetweenEightAndFifteenDays" + n "OlderThanFifteenDays"
   = if ge age 0 then 1 else 0)%nat
  /\ (n "BetweenOneAndFifteenDays" + n "BetweenSixteenAndThirtyDays"
      + n "OlderThanThirtyDays"
      = if ge age 0 then 1 else 0)%nat.
Proof.
  destruct age as [q|]; [|done].
  unfold inBucket, ge, lt. simpl. by_age_range q; done.
Qed.

Lemma filter_counts {A} (f g h k : A -> bool) (l : list A) :
  (forall x, ((if f x then 1 else 0) + (if g x then 1 else 0) + (if h x then 1 else 0)
              = if k x then 1 else 0)%nat) ->
  (length (List.filter f l) + length (List.filter g l) + length (List.filter h l)
   = length (List.filter k l))%nat.
Proof.
  intros H. induction l as [|x l IH]; simpl; [done|].
  specialize (H x). destruct (f x), (g x), (h x), (k x); simpl in *; lia.
Qed.

Lemma filed_sum (now : Z) (a d st b1 b2 b3 : string) (l : list ticket) :
  (forall age, ((if inBucket b1 age then 1 else 0) + (if inBucket b2 age then 1 else 0)
                + (if inBucket b3 age then 1 else 0)
                = if ge age 0 then 1 else 0)%nat) ->
  (length (List.filter (filed now a d st b1) l)
   + length (List.filter (filed now a d st b2) l)
   + length (List.filter (filed now a d st b3) l)
   = length (List.filter
               (fun t => String.eqb (assigneeKey t) a && String.eqb (deptKey t) d
                         && String.eqb (Status.normalizedStatus (status t)) st
                         && match ageDays now (createdTime t) with
                            | Some age => ge age 0
                            | None => false
                            end) l))%nat.
Proof.
  intros H. apply filter_counts. intros t. unfold filed, aged.
  destruct (String.eqb (assigneeKey t) a && String.eqb (deptKey t) d
            && String.eqb (Status.normalizedStatus (status t)) st); simpl; [|done].
  destruct (ageDays now (createdTime t)) as [age|]; [apply H|done].
Qed.

(** X17. In every entry of the aging table and for each of the four open
    statuses, the three fine lists together hold as many ticket numbers as
    the three coarse counters add up to: each ticket with an age that is
    not negative is filed once in each granularity. *)
Theorem fine_lists_match_coarse_counts (now : Z) (tickets : list ticket)
        (a d : string) (byDept : gmap string agingCounts) (ac : agingCounts)
        (st : string) :
  userDeptAgingCounts now tickets !! a = Some byDept ->
  byDept !! d = Some ac ->
  st ∈ statusKeys ->
  (lengthOf ac st "BetweenOneAndSevenDays" + lengthOf ac st "BetweenEightAndFifteenDays"
   + lengthOf ac st "OlderThanFifteenDays"
   = default 0 (countOf ac st "BetweenOneAndFifteenDays")
     + default 0 (countOf ac st "BetweenSixteenAndThirtyDays")
     + default 0 (countOf ac st "OlderThanThirtyDays"))%nat.
Proof.
  intros Ha Hd Hst.
  assert (Hall : all_paired (userDeptAgingCounts now tickets)).
  { apply all_paired_fold. intros ? ? ? ?. by rewrite lookup_empty. }
  pose proof (Hall a byDept d ac Ha Hd) as Hp.
  pose proof (proj1 (entries_after now tickets) a byDept d ac st) as Hl.
  assert (Hc : forall b, b ∈ coarseNames ->
            default 0%nat (countOf ac st b)
            = length (List.filter (filed now a d st b) tickets)).
  { intros b Hb. destruct (Hp st b Hst Hb) as (n & l & -> & Hl' & ->). simpl.
    rewrite (Hl b Ha Hd Hst) in Hl' by (by apply coarse_in_buckets).
    injection Hl' as <-. unfold numbersOf. by rewrite length_map. }
  assert (Hf : forall b, b ∈ fineNames ->
            lengthOf ac st b = length (List.filter (filed now a d st b) tickets)).
  { intros b Hb. unfold lengthOf.
    rewrite (Hl b Ha Hd Hst) by (by apply fine_in_buckets). simpl.
    unfold numbersOf. by rewrite length_map. }
  rewrite !Hf, !Hc by in_names.
  rewrite !filed_sum; [done| |]; intros age; apply (one_bucket_each age).
Qed.

Lemma fine_lists_match_coarse_counts_witness :
  userDeptAgingCounts Samples.now30 [Samples.thirtyDaysOld] !! "7"%string
    = Some Samples.byDept30
  /\ Samples.byDept30 !! "d1"%string = Some Samples.entry30
  /\ "open"%string ∈ statusKeys
  /\ (lengthOf Samples.entry30 "open" "BetweenOneAndSevenDays"
      + lengthOf Samples.entry30 "open" "BetweenEightAndFifteenDays"
      + lengthOf Samples.entry30 "open" "OlderThanFifteenDays"
      = default 0 (countOf Samples.entry30 "open" "BetweenOneAndFifteenDays")
        + default 0 (countOf Samples.entry30 "open" "BetweenSixteenAndThirtyDays")
        + default 0 (countOf Samples.entry30 "open" "OlderThanThirtyDays"))%nat.
Proof.
  assert (H1 : userDeptAgingCounts Samples.now30 [Samples.thirtyDaysOld] !! "7"%string
               = Some Samples.byDept30).
  { apply Common.present_default. vm_compute. reflexivity. }
  assert (H2 : Samples.byDept30 !! "d1"%string = Some Samples.entry30).
  { apply Common.present_default. vm_compute. reflexivity. }
  assert (H3 : "open"%string ∈ statusKeys) by apply list_elem_of_here.
  repeat (split; [assumption|]).
  exact (fine_lists_match_coarse_counts Samples.now30 [Samples.thirtyDaysOld] "7" "d1"
           Samples.byDept30 Samples.entry30 "open" H1 H2 H3).
Defined.

Lemma sumOver_contribution (u : gmap string (gmap string agingCounts)) (dep b : string) :
  sumOver u dep b
  = map_fold (fun _ adc acc => (acc + contribution adc dep b)%nat) 0%nat u.
Proof.
  unfold sumOver. rewrite !map_fold_foldr.
  induction (map_to_list u) as [|[k adc] l IH]; simpl; [done|].
  rewrite IH. unfold contribution. destruct (adc !! dep); lia.
Qed.

Lemma sumOver_insert (u : gmap string (gmap string agingCounts)) (a : string)
      (v : gmap string agingCounts) (dep b : string) :
  (sumOver (<[ a := v ]> u) dep b + contribution (default ∅ (u !! a)) dep b
   = sumOver u dep b + contribution v dep b)%nat.
Proof.
  rewrite !sumOver_contribution.
  rewrite <- (insert_delete_eq u a v).
  rewrite map_fold_insert_L; [| intros; lia | apply lookup_delete_eq].
  destruct (u !! a) as [old|] eqn:E; simpl.
  - rewrite (map_fold_delete_L _ _ a old u); [lia | intros; lia | done].
  - rewrite (delete_id u a E).
    assert (H0 : contribution ∅ dep b = 0%nat) by done.
    rewrite H0. lia.
Qed.

(** What the entries of one assignee contribute to a department counter. *)
Lemma contribution_filed (now : Z) (l : list ticket) (a dep b : string) :
  b ∈ bucketNames ->
  contribution (default ∅ (userDeptAgingCounts now l !! a)) dep b
  = filedCount now a dep b l.
Proof.
  intros Hb. destruct (entries_after now l) as [Hl Hd].
  unfold contribution, filedCount.
  assert (Hnone : forall st, (forall bd ac, userDeptAgingCounts now l !! a = Some bd ->
                                bd !! dep = Some ac -> False) ->
            List.filter (filed now a dep st b) l = []).
  { intros st Hno. apply filter_none. intros x Hx.
    destruct (filed now a dep st b x) eqn:E; [|done].
    apply filed_keys in E as [E1 E2].
    destruct (Hd x Hx) as (bd' & ac' & H1 & H2).
    rewrite E1 in H1. rewrite E2 in H2. exfalso. by eapply Hno. }
  destruct (userDeptAgingCounts now l !! a) as [bd|] eqn:Ea; simpl.
  - destruct (bd !! dep) as [ac|] eqn:Ed.
    + unfold fourLengths, lengthOf.
      rewrite !(Hl a bd dep ac _ b Ea Ed) by in_names.
      simpl. unfold numbersOf. by rewrite !length_map.
    + rewrite !Hnone; [done | | | |]; intros bd' ac' [= <-] H2; congruence.
  - rewrite lookup_empty. rewrite !Hnone; [done | | | |]; intros bd' ac' [=].
Qed.

Lemma filedCount_snoc (now : Z) (l : list ticket) (t : ticket) (dep b : string) :
  filedCount now (assigneeKey t) dep b (l ++ [t])
  = (filedCount now (assigneeKey t) dep b l
     + if openInDept now dep b t then 1 else 0)%nat.
Proof.
  unfold filedCount. rewrite !List.filter_app, !length_app, !length_filter_one.
  unfold filed, openInDept. rewrite String.eqb_refl.
  generalize (String.eqb (deptKey t) dep) (aged now b t)
             (Status.normalizedStatus (status t)).
  intros [] [] ns; rewrite ?andb_false_r, ?andb_true_r, ?andb_true_l, ?andb_false_l;
    try lia.
  destruct (decide (ns ∈ statusKeys)) as [Hin|Hn].
  - rewrite bool_decide_eq_true_2 by done. in_list Hin; cbv [String.eqb Ascii.eqb Bool.eqb]; lia.
  - rewrite bool_decide_eq_false_2 by done.
    destruct (String.eqb_spec ns "open") as [E|_];
      [exfalso; apply Hn; rewrite E; in_names|].
    destruct (String.eqb_spec ns "hold") as [E|_];
      [exfalso; apply Hn; rewrite E; in_names|].
    destruct (String.eqb_spec ns "inProgress") as [E|_];
      [exfalso; apply Hn; rewrite E; in_names|].
    destruct (String.eqb_spec ns "escalated") as [E|_];
      [exfalso; apply Hn; rewrite E; in_names|].
    lia.
Qed.

Lemma sumOver_tickets (now : Z) (tickets : list ticket) (dep b : string) :
  b ∈ bucketNames ->
  sumOver (userDeptAgingCounts now tickets) dep b
  = length (List.filter (openInDept now dep b) tickets).
Proof.
  intros Hb. rewrite <- (rev_involutive tickets).
  induction (rev tickets) as [|t r IH]; simpl; [done|].
  pose proof (contribution_filed now (rev r ++ [t]) (assigneeKey t) dep b Hb) as Hnew.
  pose proof (contribution_filed now (rev r) (assigneeKey t) dep b Hb) as Hold.
  rewrite filedCount_snoc in Hnew.
  rewrite List.filter_app, length_app. simpl.
  unfold userDeptAgingCounts in *. rewrite foldl_app in *. simpl in *.
  set (u := foldl (aging_ticket now) ∅ (rev r)) in *.
  unfold aging_ticket in *.
  set (v := <[Js.or_str (Ticket.departmentId t) "no_department" := _]> _) in *.
  rewrite lookup_insert_eq in Hnew. simpl in Hnew.
  pose proof (sumOver_insert u (assigneeKey t) v dep b) as Hins.
  rewrite Hold, Hnew, IH in Hins.
  destruct (openInDept now dep b t); simpl; lia.
Qed.

(** X18. In [departmentAgeBuckets] the three counters of a department are
    the numbers of tickets of that department with one of the four open
    statuses and an age in [0,8), in [8,16) and of 16 days or more, over
    all assignees; [total] is the number of such tickets with an age that
    is not negative. *)
Theorem departmentAgeBuckets_counts (now : Z) (tickets : list ticket)
        (departmentList : list Reconcile.department) :
  Forall (fun r =>
            count_1_7 r
            = length (List.filter (openInDept now (departmentId r)
                                              "BetweenOneAndSevenDays") tickets)
            /\ count_8_15 r
               = length (List.filter (openInDept now (departmentId r)
                                                 "BetweenEightAndFifteenDays") tickets)
            /\ count_15plus r
               = length (List.filter (openInDept now (departmentId r)
                                                 "OlderThanFifteenDays") tickets)
            /\ total r = length (List.filter (openAged now (departmentId r)) tickets))
         (departmentAgeBuckets (userDeptAgingCounts now tickets) departmentList).
Proof.
  unfold departmentAgeBuckets. rewrite Forall_map. apply Forall_forall.
  intros dep _. simpl.
  rewrite !sumOver_tickets by in_names.
  repeat split. apply filter_counts. intros t. unfold openInDept, openAged, aged.
  destruct (String.eqb (deptKey t) (Reconcile.d_id dep)
            && bool_decide (Status.normalizedStatus (status t) ∈ statusKeys));
    simpl; [|done].
  destruct (ageDays now (createdTime t)) as [age|]; [|done].
  apply (one_bucket_each age).
Qed.

End AgingViewFacts.

(** ** Age columns of the agent table *)

Module AgeTableFacts.
Import Ticket Aging AgingView AgeTable AgingFacts AgingViewFacts.

(** The number of ticket numbers in one list of the entry of assignee [a]
    and department [d], zero when there is no entry. *)
Lemma entry_length (now : Z) (l : list ticket) (a d st b : string) :
  st ∈ statusKeys -> b ∈ bucketNames ->
  match default ∅ (userDeptAgingCounts now l !! a) !! d with
  | Some ac => default [] (ticketsOf ac st b)
  | None => []
  end = numbersOf (List.filter (filed now a d st b) l).
Proof.
  intros Hst Hb. destruct (entries_after now l) as [Hl Hd].
  assert (Hnone : (forall bd ac, userDeptAgingCounts now l !! a = Some bd ->
                                 bd !! d = Some ac -> False) ->
            List.filter (filed now a d st b) l = []).
  { intros Hno. apply filter_none. intros x Hx.
    destruct (filed now a d st b x) eqn:E; [|done].
    apply filed_keys in E as [E1 E2].
    destruct (Hd x Hx) as (bd' & ac' & H1 & H2).
    rewrite E1 in H1. rewrite E2 in H2. exfalso. by eapply Hno. }
  destruct (userDeptAgingCounts now l !! a) as [bd|] eqn:Ea; simpl.
  - destruct (bd !! d) as [ac|] eqn:Ed.
    + by rewrite (Hl a bd d ac st b Ea Ed Hst Hb).
    + rewrite Hnone; [done|]. intros bd' ac' [= <-] H2. congruence.
  - rewrite lookup_empty. rewrite Hnone; [done|]. intros bd' ac' [=].
Qed.

Lemma flat_map_length_fold (m : gmap string agingCounts) (st b : string) :
  length (flat_map (fun kv => default [] (ticketsOf (snd kv) st b)) (map_to_list m))
  = map_fold (fun _ ac acc => (acc + length (default [] (ticketsOf ac st b)))%nat) 0%nat m.
Proof.
  rewrite map_fold_foldr.
  induction (map_to_list m) as [|[k ac] l IH]; simpl; [done|].
  rewrite length_app, IH. lia.
Qed.

Lemma lengths_insert (m : gmap string agingCounts) (d : string) (v : agingCounts)
      (st b : string) :
  (length (flat_map (fun kv => default [] (ticketsOf (snd kv) st b))
                    (map_to_list (<[ d := v ]> m)))
   + length (match m !! d with
             | Some ac => default [] (ticketsOf ac st b)
             | None => []
             end)
   = length (flat_map (fun kv => default [] (ticketsOf (snd kv) st b)) (map_to_list m))
     + length (default [] (ticketsOf v st b)))%nat.
Proof.
  rewrite !flat_map_length_fold.
  rewrite <- (insert_delete_eq m d v).
  rewrite map_fold_insert_L; [| intros; lia | apply lookup_delete_eq].
  destruct (m !! d) as [old|] eqn:E; simpl.
  - rewrite (map_fold_delete_L _ _ d old m); [lia | intros; lia | done].
  - rewrite (delete_id m d E). simpl. lia.
Qed.

Lemma all_departments_count (now : Z) (tickets : list ticket) (k st b : string) :
  st ∈ statusKeys -> b ∈ bucketNames ->
  length (flat_map (fun kv => default [] (ticketsOf (snd kv) st b))
            (map_to_list (default ∅ (userDeptAgingCounts now tickets !! k))))
  = length (List.filter (filedAnywhere now k st b) tickets).
Proof.
  intros Hst Hb. rewrite <- (rev_involutive tickets).
  induction (rev tickets) as [|t r IH]; simpl.
  { unfold userDeptAgingCounts. simpl. rewrite lookup_empty. simpl.
    by rewrite map_to_list_empty. }
  rewrite List.filter_app, length_app, length_filter_one.
  pose proof (entry_length now (rev r ++ [t]) k (deptKey t) st b Hst Hb) as Hnew.
  pose proof (entry_length now (rev r) k (deptKey t) st b Hst Hb) as Hold.
  rewrite List.filter_app in Hnew. unfold numbersOf in Hnew, Hold.
  apply (f_equal length) in Hnew, Hold.
  rewrite List.map_app, length_app, !length_map, length_filter_one in Hnew.
  rewrite length_map in Hold.
  unfold userDeptAgingCounts in *. rewrite foldl_app in *. simpl in *.
  set (u := foldl (aging_ticket now) ∅ (rev r)) in *.
  unfold aging_ticket in *. fold (deptKey t) in *.
  destruct (decide (assigneeKey t = k)) as [Hk|Hk].
  - rewrite Hk in *. rewrite lookup_insert_eq in *. simpl in *.
    rewrite lookup_insert_eq in Hnew.
    set (v := age_step _ _ _ _) in *.
    pose proof (lengths_insert (default ∅ (u !! k)) (deptKey t) v st b) as Hins.
    assert (Hf : filed now k (deptKey t) st b t = filedAnywhere now k st b t).
    { unfold filed, filedAnywhere. rewrite String.eqb_refl. by rewrite andb_true_r. }
    rewrite Hf in Hnew. rewrite Hold, Hnew, IH in Hins. lia.
  - rewrite lookup_insert_ne by done. rewrite IH.
    assert (Hf : filedAnywhere now k st b t = false).
    { unfold filedAnywhere. by destruct (String.eqb_spec (assigneeKey t) k). }
    rewrite Hf. lia.
Qed.

(** X19. The agent table reads the aging entries of a member row as they
    were accumulated: with no department selected, the count shown for a
    status and an age bucket is the number of tickets filed under the
    member with that normalized status and an age in the bucket, over all
    departments; with a department selected, the ticket numbers shown are
    those of the tickets filed under that department too, in input
    order. *)
Theorem countFromArray_counts_tickets (now : Z) (tickets : list ticket)
        (userId status ageProp : string) (c : ascii) (dept : string) :
  status ∈ statusKeys -> ageProp ∈ bucketNames ->
  countFromArray None (departmentAgingCounts (userDeptAgingCounts now tickets) userId)
                 ageProp status
  = length (List.filter (filedAnywhere now userId status ageProp) tickets)
  /\ aggregateTickets (Some (String c dept))
                      (departmentAgingCounts (userDeptAgingCounts now tickets) userId)
                      ageProp status
     = numbersOf (List.filter (filed now userId (String c dept) status ageProp) tickets).
Proof.
  intros Hst Hb. split.
  - unfold countFromArray, aggregateTickets, departmentAgingCounts. simpl.
    by apply all_departments_count.
  - unfold aggregateTickets, departmentAgingCounts. simpl.
    by apply entry_length.
Qed.

Lemma countFromArray_counts_tickets_witness :
  "open"%string ∈ statusKeys /\ "OlderThanFifteenDays"%string ∈ bucketNames
  /\ countFromArray None
       (departmentAgingCounts
          (userDeptAgingCounts Samples.now30 [Samples.thirtyDaysOld]) "7")
       "OlderThanFifteenDays" "open"
     = length (List.filter (filedAnywhere Samples.now30 "7" "open" "OlderThanFifteenDays")
                           [Samples.thirtyDaysOld])
  /\ aggregateTickets (Some "d1"%string)
       (departmentAgingCounts
          (userDeptAgingCounts Samples.now30 [Samples.thirtyDaysOld]) "7")
       "OlderThanFifteenDays" "open"
     = numbersOf (List.filter (filed Samples.now30 "7" "d1" "open" "OlderThanFifteenDays")
                              [Samples.thirtyDaysOld]).
Proof.
  assert (H1 : "open"%string ∈ statusKeys) by apply list_elem_of_here.
  assert (H2 : "OlderThanFifteenDays"%string ∈ bucketNames)
    by apply list_elem_of_further, list_elem_of_further, list_elem_of_here.
  split; [exact H1|]. split; [exact H2|].
  exact (countFromArray_counts_tickets Samples.now30 [Samples.thirtyDaysOld]
           "7" "open" "OlderThanFifteenDays" "d" "1" H1 H2).
Defined.

End AgeTableFacts.

(** ** Age counters of a member row *)

Module MembersFacts.
Import Ticket Aging Members AgingViewFacts.

(** X20. The six age counters of a member row are independent filters:
    the three fine ones count every ticket of the status with an age that
    is not negative once, while the coarse ones count a ticket older than
    30 and younger than 31 days twice, in the 16-30 and in the 30+ counter;
    their sum exceeds the sum of the fine counters by the number of such
    tickets. *)
Theorem member_coarse_counters_overlap (now2 : Z) (st : string) (ts : list ticket) :
  (betweenOneAndFifteenDays now2 st ts + betweenSixteenAndThirtyDays now2 st ts
   + olderThanThirtyDays now2 st ts
   = betweenOneAndSevenDays now2 st ts + betweenEightAndFifteenDays now2 st ts
     + olderThanFifteenDays now2 st ts + inThirtyFirstDay now2 st ts)%nat.
Proof.
  unfold betweenOneAndFifteenDays, betweenSixteenAndThirtyDays, olderThanThirtyDays,
    betweenOneAndSevenDays, betweenEightAndFifteenDays, olderThanFifteenDays,
    inThirtyFirstDay.
  set (c1 := withAge now2 st (fun age => lt age 16 && ge age 0)).
  set (c2 := withAge now2 st (fun age => ge age 16 && lt age 31)).
  set (c3 := withAge now2 st (fun age => gt age 30)).
  set (f1 := withAge now2 st (fun age => lt age 8 && ge age 0)).
  set (f2 := withAge now2 st (fun age => ge age 8 && lt age 16)).
  set (f3 := withAge now2 st (fun age => ge age 16)).
  set (o := withAge now2 st (fun age => gt age 30 && lt age 31)).
  assert (H : forall t,
            ((if c1 t then 1 else 0) + (if c2 t then 1 else 0) + (if c3 t then 1 else 0)
             = (if f1 t then 1 else 0) + (if f2 t then 1 else 0) + (if f3 t then 1 else 0)
               + (if o t then 1 else 0))%nat).
  { intros t. subst c1 c2 c3 f1 f2 f3 o. unfold withAge.
    destruct (String.eqb (Status.normalized (status t)) st); simpl; [|done].
    destruct (ageDays now2 (createdTime t)) as [[q|]|]; simpl; try done.
    unfold ge, lt, gt. by_age_range q; simpl; lia. }
  clearbody c1 c2 c3 f1 f2 f3 o.
  induction ts as [|t ts IH]; simpl; [done|].
  specialize (H t).
  destruct (c1 t), (c2 t), (c3 t), (f1 t), (f2 t), (f3 t), (o t); simpl in *; lia.
Qed.

End MembersFacts.

(** ** Status counters *)

Module StatusCountsFacts.
Import Ticket StatusCounts.

Lemma normalizedStatus_range (st : option string) :
  Status.normalizedStatus st
  ∈ ["open"; "hold"; "closed"; "inProgress"; "escalated"; "unassigned"]%string.
Proof.
  unfold Status.normalizedStatus.
  destruct (decide (Status.rawStatus st ∈ Status.knownKeys)) as [Hin|Hn].
  - generalize dependent (Status.rawStatus st). intros raw Hin.
    unfold Status.knownKeys in Hin.
    repeat (apply elem_of_cons in Hin as [->|Hin];
            [vm_compute;
             repeat first [apply list_elem_of_here | apply list_elem_of_further]|]).
    by apply elem_of_nil in Hin.
  - rewrite (StatusFacts.statusMap_unknown _ Hn). simpl.
    repeat first [apply list_elem_of_here | apply list_elem_of_further].
Qed.

Lemma read_incr (c c0 : counter) (s : statusCounts) :
  read c (incr c0 s) = (read c s + if same c c0 then 1 else 0)%nat.
Proof. destruct c, c0; simpl; lia. Qed.

Lemma sum_reads (s : statusCounts) :
  sum s = (read c_open s + read c_closed s + read c_hold s + read c_escalated s
           + read c_unassigned s + read c_inProgress s)%nat.
Proof. done. Qed.

Lemma picks_total (o : option counter) :
  ((if picks c_open o then 1 else 0) + (if picks c_closed o then 1 else 0)
   + (if picks c_hold o then 1 else 0) + (if picks c_escalated o then 1 else 0)
   + (if picks c_unassigned o then 1 else 0) + (if picks c_inProgress o then 1 else 0)
   = match o with Some _ => 1 | None => 0 end)%nat.
Proof. destruct o as [[]|]; done. Qed.

Lemma byStatus_none (ns : string) (esc : bool) :
  ns ∈ ["open"; "hold"; "closed"; "inProgress"; "escalated"; "unassigned"]%string ->
  byStatus ns esc = None <-> esc = false /\ ns = "unassigned"%string.
Proof.
  intros Hin. AgingFacts.in_list Hin; destruct esc; vm_compute; split;
    (done || (intros [? ?]; done)).
Qed.

Lemma deptCounter_none (ft : flagged) :
  match deptCounter ft with Some _ => false | None => true end = unknownAssigned ft.
Proof.
  unfold deptCounter, unknownAssigned.
  pose proof (normalizedStatus_range (status (base ft))) as Hr.
  revert Hr. generalize (Status.normalizedStatus (status (base ft))). intros ns Hr.
  destruct (noAssignee (base ft)), (isEscalatedOf ft);
    AgingFacts.in_list Hr; vm_compute; reflexivity.
Qed.

Lemma deptInit_lookup (dl : list Reconcile.department) (d : string) :
  deptInit dl !! d
  = if bool_decide (d ∈ List.map Reconcile.d_id dl) then Some zero else None.
Proof.
  unfold deptInit. rewrite <- (rev_involutive dl).
  induction (rev dl) as [|dep l IH]; simpl; [by rewrite lookup_empty|].
  rewrite foldl_app, map_app. simpl.
  destruct (decide (Reconcile.d_id dep = d)) as [<-|Hne].
  - rewrite lookup_insert_eq. rewrite bool_decide_eq_true_2; [done|].
    apply elem_of_app. right. apply list_elem_of_here.
  - rewrite lookup_insert_ne by done. rewrite IH.
    apply option_eq. intros x. repeat case_bool_decide; try done.
    + exfalso. apply H0. apply elem_of_app. by left.
    + exfalso. apply elem_of_app in H0 as [?|Hx]; [done|].
      apply list_elem_of_singleton in Hx. congruence.
Qed.

Lemma dept_fold (dl : list Reconcile.department) (l : list flagged) (d : string) :
  match deptStatusCountMap dl l !! d with
  | Some s => d ∈ List.map Reconcile.d_id dl
              /\ forall c, read c s = length (List.filter (deptHit d c) l)
  | None => d ∉ List.map Reconcile.d_id dl
  end.
Proof.
  unfold deptStatusCountMap. rewrite <- (rev_involutive l).
  induction (rev l) as [|ft r IH]; simpl.
  { rewrite deptInit_lookup. case_bool_decide; [|done]. split; [done|].
    by intros []. }
  rewrite foldl_app. simpl.
  set (m := foldl dept_step (deptInit dl) (rev r)) in *.
  assert (Hmiss : forall c, inDept d ft = false ->
            length (List.filter (deptHit d c) (rev r ++ [ft]))
            = length (List.filter (deptHit d c) (rev r))).
  { intros c Hd. rewrite List.filter_app, length_app, AgingViewFacts.length_filter_one.
    unfold deptHit. rewrite Hd. simpl. lia. }
  unfold dept_step.
  destruct (departmentId (base ft)) as [[|c0 r0]|] eqn:Edep.
  - destruct (m !! d) as [s|]; [|done]. destruct IH as [Hin Hread].
    split; [done|]. intros c. rewrite Hmiss; [done|].
    unfold inDept. by rewrite Edep.
  - set (deptId := String c0 r0) in *.
    assert (HinD : inDept d ft = String.eqb deptId d).
    { unfold inDept. rewrite Edep. done. }
    destruct (m !! deptId) as [s0|] eqn:Em.
    + destruct (deptCounter ft) as [c1|] eqn:Ec.
      * destruct (decide (deptId = d)) as [Heq|Hne].
        -- rewrite <- Heq in *. rewrite lookup_insert_eq. rewrite Em in IH.
           destruct IH as [Hin Hread]. split; [done|]. intros c.
           rewrite read_incr, Hread, List.filter_app, length_app,
             AgingViewFacts.length_filter_one.
           unfold deptHit at 3. rewrite HinD, String.eqb_refl, Ec. done.
        -- rewrite lookup_insert_ne by done.
           destruct (m !! d) as [s|]; [|done]. destruct IH as [Hin Hread].
           split; [done|]. intros c. rewrite Hmiss; [done|].
           rewrite HinD. by apply String.eqb_neq.
      * destruct (m !! d) as [s|]; [|done]. destruct IH as [Hin Hread].
        split; [done|]. intros c.
        rewrite List.filter_app, length_app, AgingViewFacts.length_filter_one.
        unfold deptHit at 2. rewrite Ec. simpl. rewrite andb_false_r.
        rewrite Hread. lia.
    + destruct (m !! d) as [s|] eqn:Ed; [|done]. destruct IH as [Hin Hread].
      split; [done|]. intros c. rewrite Hmiss; [done|].
      rewrite HinD. apply String.eqb_neq. intros Heq. congruence.
  - destruct (m !! d) as [s|]; [|done]. destruct IH as [Hin Hread].
    split; [done|]. intros c. rewrite Hmiss; [done|].
    unfold inDept. by rewrite Edep.
Qed.

Lemma filter_split {A} (f g h : A -> bool) (l : list A) :
  (forall x, ((if g x then 1 else 0) + (if h x then 1 else 0)
              = if f x then 1 else 0)%nat) ->
  (length (List.filter g l) + length (List.filter h l) = length (List.filter f l))%nat.
Proof.
  intros H. induction l as [|x l IH]; simpl; [done|].
  specialize (H x). destruct (f x), (g x), (h x); simpl in *; lia.
Qed.

Lemma six_filters {A} (p : counter -> A -> bool) (g : A -> bool) (l : list A) :
  (forall x, ((if p c_open x then 1 else 0) + (if p c_closed x then 1 else 0)
              + (if p c_hold x then 1 else 0) + (if p c_escalated x then 1 else 0)
              + (if p c_unassigned x then 1 else 0) + (if p c_inProgress x then 1 else 0)
              = if g x then 1 else 0)%nat) ->
  (length (List.filter (p c_open) l) + length (List.filter (p c_closed) l)
   + length (List.filter (p c_hold) l) + length (List.filter (p c_escalated) l)
   + length (List.filter (p c_unassigned) l) + length (List.filter (p c_inProgress) l)
   = length (List.filter g l))%nat.
Proof.
  intros H. induction l as [|x l IH]; simpl; [done|].
  specialize (H x).
  destruct (p c_open x), (p c_closed x), (p c_hold x), (p c_escalated x),
    (p c_unassigned x), (p c_inProgress x), (g x); simpl in *; lia.
Qed.

(** X21. In the response of [/api/zoho-department-ticket-counts] each
    counter of a listed department is the number of its tickets for which
    the chain picks that counter, and the six counters add up to the number
    of tickets of the department less the tickets that have an assignee,
    are not escalated and carry none of the five counted statuses: those
    are counted nowhere. *)
Theorem departmentTicketCounts_total (departmentList : list Reconcile.department)
        (tickets : list flagged) :
  Forall (fun r =>
            (forall c, read c (dc_tickets r)
                       = length (List.filter (deptHit (dc_id r) c) tickets))
            /\ (sum (dc_tickets r)
                + length (List.filter
                            (fun ft => inDept (dc_id r) ft && unknownAssigned ft) tickets)
                = length (List.filter (inDept (dc_id r)) tickets))%nat)
         (departmentTicketCounts departmentList tickets).
Proof.
  unfold departmentTicketCounts. rewrite Forall_map. apply Forall_forall.
  intros dep Hdep. simpl.
  pose proof (dept_fold departmentList tickets (Reconcile.d_id dep)) as H.
  destruct (deptStatusCountMap departmentList tickets !! Reconcile.d_id dep) as [s|].
  2:{ exfalso. apply H. by apply list_elem_of_fmap_2. }
  destruct H as [_ Hread]. simpl. split; [exact Hread|].
  rewrite sum_reads, !Hread.
  rewrite (six_filters (deptHit (Reconcile.d_id dep))
             (fun ft => inDept (Reconcile.d_id dep) ft
                        && match deptCounter ft with Some _ => true | None => false end)).
  - apply filter_split. intros ft.
    pose proof (deptCounter_none ft) as Hn.
    destruct (inDept (Reconcile.d_id dep) ft); simpl; [|done].
    rewrite <- Hn. by destruct (deptCounter ft).
  - intros ft. unfold deptHit.
    destruct (inDept (Reconcile.d_id dep) ft); simpl; [|done].
    rewrite picks_total. by destruct (deptCounter ft).
Qed.

Lemma assigneeCounter_unassigned (ft : flagged) :
  assigneeCounter ft = Some c_unassigned ->
  Aging.assigneeKey (base ft) = "unassigned"%string.
Proof.
  unfold assigneeCounter, isUnassignedAssignee, Aging.assigneeKey.
  destruct (_ || _ || _); [done|]. simpl.
  unfold byStatus. repeat case_match; discriminate.
Qed.

Lemma assigneeCounter_none (ft : flagged) :
  match assigneeCounter ft with Some _ => false | None => true end
  = closedUnassigned ft || unknownAssignedTo ft.
Proof.
  unfold assigneeCounter, closedUnassigned, unknownAssignedTo.
  pose proof (normalizedStatus_range (status (base ft))) as Hr.
  revert Hr. generalize (Status.normalizedStatus (status (base ft))). intros ns Hr.
  destruct (isUnassignedAssignee (base ft)), (isEscalatedOf ft);
    AgingFacts.in_list Hr; vm_compute; reflexivity.
Qed.

Lemma assigneeInit_zero (userIds : list string) (k : string) :
  default zero (assigneeInit userIds !! k) = zero.
Proof.
  unfold assigneeInit.
  destruct (decide ("unassigned"%string = k)) as [<-|Hne];
    [by rewrite lookup_insert_eq|rewrite lookup_insert_ne by done].
  rewrite <- (rev_involutive userIds).
  induction (rev userIds) as [|i l IH]; simpl; [by rewrite lookup_empty|].
  rewrite foldl_app. simpl.
  destruct (decide (i = k)) as [<-|Hik];
    [by rewrite lookup_insert_eq | by rewrite lookup_insert_ne].
Qed.

Lemma assignee_step_lookup (m : gmap string statusCounts) (ft : flagged) (k : string) :
  default zero (assignee_step m ft !! k)
  = if String.eqb (Aging.assigneeKey (base ft)) k
    then match assigneeCounter ft with
         | Some c => incr c (default zero (m !! k))
         | None => default zero (m !! k)
         end
    else default zero (m !! k).
Proof.
  unfold assignee_step.
  set (a := Aging.assigneeKey (base ft)).
  set (m1 := match m !! a with Some _ => m | None => <[ a := zero ]> m end).
  assert (H1 : forall j, default zero (m1 !! j) = default zero (m !! j)).
  { intros j. subst m1. destruct (m !! a) eqn:E; [done|].
    destruct (decide (a = j)) as [<-|Hne];
      [by rewrite lookup_insert_eq, E | by rewrite lookup_insert_ne]. }
  assert (H2 : m1 !! a = Some (default zero (m !! a))).
  { subst m1. destruct (m !! a) eqn:E; [by rewrite E | by rewrite lookup_insert_eq]. }
  assert (H3 : forall c, default zero (alter (incr c) a m1 !! k)
                         = if String.eqb a k then incr c (default zero (m !! k))
                           else default zero (m !! k)).
  { intros c. destruct (String.eqb_spec a k) as [<-|Hne].
    - by rewrite lookup_alter_eq, H2.
    - rewrite lookup_alter_ne by done. apply H1. }
  destruct (assigneeCounter ft) as [c|] eqn:Ec.
  - destruct c; try apply H3.
    rewrite <- (assigneeCounter_unassigned ft Ec). apply H3.
  - rewrite H1. by destruct (String.eqb a k).
Qed.

Lemma assignee_fold (userIds : list string) (l : list flagged) (k : string) (c : counter) :
  read c (default zero (ticketStatusCountMap userIds l !! k))
  = length (List.filter (assigneeHit k c) l).
Proof.
  unfold ticketStatusCountMap. rewrite <- (rev_involutive l).
  induction (rev l) as [|ft r IH]; simpl.
  { rewrite assigneeInit_zero. by destruct c. }
  rewrite foldl_app. simpl. rewrite assignee_step_lookup.
  rewrite List.filter_app, length_app, AgingViewFacts.length_filter_one.
  unfold assigneeHit at 2.
  destruct (String.eqb (Aging.assigneeKey (base ft)) k); simpl; [|rewrite IH; lia].
  destruct (assigneeCounter ft) as [c1|]; simpl; [|rewrite IH; lia].
  rewrite read_incr, IH. done.
Qed.

(** X22. In [ticketStatusCountMap] of the assignee route each counter of a
    key is the number of tickets filed under the key for which the chain
    picks that counter, and the six counters of a key add up to the number
    of tickets filed under it less the closed tickets without assignee, at
    which the loop body returns, and less the tickets with an assignee that
    are not escalated and carry none of the five counted statuses. *)
Theorem ticketStatusCountMap_total (userIds : list string) (tickets : list flagged)
        (k : string) :
  (forall c, read c (default zero (ticketStatusCountMap userIds tickets !! k))
             = length (List.filter (assigneeHit k c) tickets))
  /\ (sum (default zero (ticketStatusCountMap userIds tickets !! k))
      + length (List.filter
                  (fun ft => underKey k ft && (closedUnassigned ft || unknownAssignedTo ft))
                  tickets)
      = length (List.filter (underKey k) tickets))%nat.
Proof.
  split; [intros c; apply assignee_fold|].
  rewrite sum_reads, !assignee_fold.
  rewrite (six_filters (assigneeHit k)
             (fun ft => underKey k ft
                        && match assigneeCounter ft with Some _ => true | None => false end)).
  - apply filter_split. intros ft.
    pose proof (assigneeCounter_none ft) as Hn.
    destruct (underKey k ft); simpl; [|done].
    rewrite <- Hn. by destruct (assigneeCounter ft).
  - intros ft. unfold assigneeHit, underKey.
    destruct (String.eqb (Aging.assigneeKey (base ft)) k); simpl; [|done].
    rewrite picks_total. by destruct (assigneeCounter ft).
Qed.

End StatusCountsFacts.

(** ** Shape of the yearly summaries *)

Module YearlyShape.
Import Ticket Yearly YearlyChart YearlyFacts.

Section WithCalendar.
Variable getFullYear : Z -> Z.

Lemma summary_resolved_le (ts : list item) (y : Z) :
  (resolvedIn (yearlySummary getFullYear ts) y
   <= createdIn (yearlySummary getFullYear ts) y)%nat.
Proof.
  unfold yearlySummary. rewrite <- (rev_involutive ts).
  induction (rev ts) as [|t l IH]; simpl.
  - unfold resolvedIn, createdIn. rewrite initialSummary_lookup.
    by case_bool_decide.
  - rewrite foldl_app. simpl.
    rewrite summary_step_created, summary_step_resolved.
    case_bool_decide; [|lia].
    unfold creationYearIncrements. simpl.
    destruct (Status.isResolvedLike _); lia.
Qed.

Lemma yearlyData_created (rows : list item) (y : Z) :
  createdIn (yearlyData getFullYear rows) y
  = length (List.filter (createdInYear getFullYear y) rows).
Proof.
  unfold yearlyData. rewrite <- (rev_involutive rows).
  induction (rev rows) as [|t l IH]; simpl; [done|].
  rewrite foldl_app, List.filter_app, length_app. simpl.
  rewrite chart_step_created, IH. unfold increments, hit, createdInYear. simpl.
  case_bool_decide; simpl; lia.
Qed.

Lemma yearlyData_resolved (rows : list item) (y : Z) :
  resolvedIn (yearlyData getFullYear rows) y
  = length (List.filter (resolvedInYear getFullYear y) rows).
Proof.
  unfold yearlyData. rewrite <- (rev_involutive rows).
  induction (rev rows) as [|t l IH]; simpl; [done|].
  rewrite foldl_app, List.filter_app, length_app. simpl.
  rewrite chart_step_resolved, IH. unfold increments, hit, resolvedInYear. simpl.
  destruct (Status.isResolvedLike _); simpl; [|lia].
  case_bool_decide; simpl; lia.
Qed.

Lemma bump_dom (f : yearBucket -> yearBucket) (y0 y : Z) (m : gmap Z yearBucket) :
  is_Some (bump f y0 m !! y) <-> y0 = y \/ is_Some (m !! y).
Proof.
  unfold bump. destruct (decide (y0 = y)) as [->|Hne].
  - rewrite lookup_insert_eq. split; [by left | by eauto].
  - rewrite lookup_insert_ne by done. split; [by right | by intros [|]].
Qed.

Lemma chart_step_dom (m : gmap Z yearBucket) (t : item) (y : Z) :
  is_Some (chart_step getFullYear m t !! y)
  <-> is_Some (m !! y) \/ createdInYear getFullYear y t = true
      \/ resolvedInYear getFullYear y t = true.
Proof.
  unfold chart_step, createdInYear, resolvedInYear.
  destruct (yearOf getFullYear (createdTime t)) as [yc|];
    destruct (Status.isResolvedLike _);
    destruct (yearOf getFullYear (closedTime t)) as [yr|]; simpl;
    rewrite ?bump_dom, ?bool_decide_eq_true; naive_solver.
Qed.

Lemma yearlyData_dom (rows : list item) (y : Z) :
  is_Some (yearlyData getFullYear rows !! y)
  <-> exists t, t ∈ rows /\ (createdInYear getFullYear y t = true
                             \/ resolvedInYear getFullYear y t = true).
Proof.
  unfold yearlyData. rewrite <- (rev_involutive rows).
  induction (rev rows) as [|t l IH]; simpl.
  - rewrite lookup_empty. split; [by intros [? ?]|].
    intros (t & Ht & _). by apply elem_of_nil in Ht.
  - rewrite foldl_app. simpl. rewrite chart_step_dom, IH. split.
    + intros [(t0 & Hin & H)|H].
      * exists t0. split; [set_solver|done].
      * exists t. split; [set_solver|done].
    + intros (t0 & Hin & H). apply elem_of_app in Hin as [Hin|Hin].
      * left. by exists t0.
      * apply list_elem_of_singleton in Hin. subst. by right.
Qed.

End WithCalendar.

Lemma Sorted_le_NoDup_lt (l : list Z) :
  StronglySorted Z.le l -> NoDup l -> StronglySorted Z.lt l.
Proof.
  induction 1 as [|x l Hs IH Hall]; intros Hnd; [constructor|].
  apply NoDup_cons in Hnd as [Hx Hnd]. constructor; [by apply IH|].
  apply Forall_forall. intros z Hz.
  pose proof (proj1 (Forall_forall _ _) Hall z Hz).
  assert (x <> z) by (intros ->; done). lia.
Qed.

Lemma years_spec (m : gmap Z yearBucket) :
  StronglySorted Z.lt (years m) /\ forall y, y ∈ years m <-> is_Some (m !! y).
Proof.
  unfold years. split.
  - apply Sorted_le_NoDup_lt.
    + apply StronglySorted_merge_sort; [apply _|]. intros x y. lia.
    + rewrite merge_sort_Permutation. apply NoDup_fst_map_to_list.
  - intros y. rewrite merge_sort_Permutation.
    rewrite list_elem_of_fmap. split.
    + intros ([k v] & -> & Hin). apply elem_of_map_to_list in Hin. by eexists.
    + intros [v Hv]. exists (y, v). split; [done|]. by apply elem_of_map_to_list.
Qed.

(** X23. The summary of [/api/tickets-yearly-summary] always has exactly
    the years 2020 to 2025, and in each of them [resolved] never exceeds
    [created]: both counters follow the creation year of a ticket. *)
Theorem yearlySummary_shape (getFullYear : Z -> Z) (allTickets : list item) (y : Z) :
  (is_Some (yearlySummary getFullYear allTickets !! y) <-> 2020 <= y <= 2025)
  /\ (resolvedIn (yearlySummary getFullYear allTickets) y
      <= createdIn (yearlySummary getFullYear allTickets) y)%nat.
Proof.
  split; [apply yearlySummary_years | apply summary_resolved_le].
Qed.

(** X24. The yearly chart is left without datasets only when no archived
    row passes the filters of agents and department.  Otherwise it shows
    exactly the years in which such a row was created or, with a
    resolved-like status, closed, each year once and in ascending order;
    years without such a row are left out.  For every year shown, the
    created bar is the number of rows created in that year and the resolved
    bar the number of resolved-like rows closed in it. *)
Theorem yearly_chart_years (getFullYear : Z -> Z) (selectedAgents : gset string)
        (department : string) (archivedRows : list archivedRow) :
  match yearlyChart getFullYear selectedAgents department archivedRows with
  | None => shownRows selectedAgents department archivedRows = []
  | Some c =>
      StronglySorted Z.lt (labels c)
      /\ (forall y, y ∈ labels c <->
            exists t, t ∈ shownRows selectedAgents department archivedRows
                      /\ (createdInYear getFullYear y t = true
                          \/ resolvedInYear getFullYear y t = true))
      /\ createdData c
         = List.map (fun y => length (List.filter (createdInYear getFullYear y)
                                        (shownRows selectedAgents department archivedRows)))
                    (labels c)
      /\ resolvedData c
         = List.map (fun y => length (List.filter (resolvedInYear getFullYear y)
                                        (shownRows selectedAgents department archivedRows)))
                    (labels c)
  end.
Proof.
  assert (H : forall rows,
            StronglySorted Z.lt (labels (chartOf getFullYear rows))
            /\ (forall y, y ∈ labels (chartOf getFullYear rows) <->
                  exists t, t ∈ rows /\ (createdInYear getFullYear y t = true
                                         \/ resolvedInYear getFullYear y t = true))
            /\ createdData (chartOf getFullYear rows)
               = List.map (fun y => length (List.filter (createdInYear getFullYear y) rows))
                          (labels (chartOf getFullYear rows))
            /\ resolvedData (chartOf getFullYear rows)
               = List.map (fun y => length (List.filter (resolvedInYear getFullYear y) rows))
                          (labels (chartOf getFullYear rows))).
  { intros rows. simpl. destruct (years_spec (yearlyData getFullYear rows)) as [Hs Hd].
    split; [done|]. split.
    - intros y. rewrite Hd. apply yearlyData_dom.
    - split; apply List.map_ext; intros y;
        [apply yearlyData_created | apply yearlyData_resolved]. }
  unfold yearlyChart, shownRows, filteredArchivedByAgent.
  destruct archivedRows as [|r rs]; [done|].
  destruct (List.filter (keep selectedAgents department) (r :: rs)) as [|r' rs'] eqn:E;
    [done|].
  apply H.
Qed.

End YearlyShape.

(** ** Pages as a partition of the rows *)

Module PagePartition.
Import View PageFacts.

Lemma firstn_pages {A} (rows : list A) (size : Z) (n : nat) :
  0 < size ->
  concat (List.map (fun p => pagedRows rows p size) (seqZ 1 (Z.of_nat n)))
  = firstn (n * Z.to_nat size) rows.
Proof.
  intros Hs. induction n as [|n IH]; [done|].
  rewrite seqZ_S.
  rewrite map_app, concat_app, IH. simpl. rewrite app_nil_r.
  rewrite pagedRows_firstn_skipn by lia.
  replace (Z.to_nat ((1 + Z.of_nat n - 1) * size)) with (n * Z.to_nat size)%nat by nia.
  rewrite take_take_drop. f_equal. lia.
Qed.

Lemma all_pages {A} (rows : list A) (size : Z) :
  0 < size ->
  concat (List.map (fun p => pagedRows rows p size)
                   (seqZ 1 (totalPages (length rows) size)))
  = rows.
Proof.
  intros Hs.
  pose proof (totalPages_least (length rows) size Hs) as (H1 & Hcap & _).
  rewrite <- (Z2Nat.id (totalPages (length rows) size)) by lia.
  rewrite firstn_pages by done. apply firstn_all2. nia.
Qed.

(** X25. The pages partition the rows: going through the pages 1 to
    [totalPages] of the metrics table (200 rows a page) and of the archived
    table (500 rows a page) shows every row once, in order, and no page
    holds more rows than the page size. *)
Theorem pages_partition_rows (sortedMetricsRows : list metricsRow)
        (filteredArchivedRows : list archivedRow) :
  concat (List.map (pagedMetricsRows sortedMetricsRows)
                   (seqZ 1 (metricsTotalPages sortedMetricsRows)))
  = sortedMetricsRows
  /\ concat (List.map (pagedArchivedRows filteredArchivedRows)
                      (seqZ 1 (archivedTotalPages filteredArchivedRows)))
     = filteredArchivedRows
  /\ (forall p, (length (pagedMetricsRows sortedMetricsRows p) <= 200)%nat)
  /\ (forall p, (length (pagedArchivedRows filteredArchivedRows p) <= 500)%nat).
Proof.
  split; [apply (all_pages sortedMetricsRows metricsPageSize); done|].
  split; [apply (all_pages filteredArchivedRows archivedPageSize); done|].
  split; intros p; unfold pagedMetricsRows, pagedArchivedRows, pagedRows, slice;
    rewrite length_firstn; unfold metricsPageSize, archivedPageSize;
    (etrans; [apply Nat.le_min_l|]); repeat case_match; lia.
Qed.

End PagePartition.

(** ** Performance charts *)

Module ChartsFacts.
Import Charts.
Local Open Scope Q_scope.

(** X26. The special case of [effectiveRows] changes nothing: with no
    agent selected and the department "all" the filter keeps every row, so
    the charts always show the rows that [filteredRows] keeps. *)
Theorem effectiveRows_is_filteredRows (selectedAgents : gset string)
        (department : string) (rows : list row) :
  effectiveRows selectedAgents department rows
  = filteredRows selectedAgents department rows.
Proof.
  unfold effectiveRows, filteredRows.
  destruct (size selectedAgents =? 0)%nat eqn:Hs; simpl; [|done].
  destruct (String.eqb department "all") eqn:Hd; simpl; [|done].
  apply Nat.eqb_eq in Hs.
  induction rows as [|r rows IH]; simpl; [done|].
  unfold keep at 1. rewrite Hs, Hd. simpl. by rewrite <- IH.
Qed.

Lemma total_snoc (l : list Q) (x : Q) : total (l ++ [x]) = total l + x.
Proof. unfold total. by rewrite foldl_app. Qed.

Lemma summarize_fold (l : list row) :
  let '(r, p) :=
    foldl (fun '(r, p) x =>
             ((r + toNumber (ticketsResolved x))%Q, (p + toNumber (pendingCount x))%Q))
          (0%Q, 0%Q) l in
  r == total (resolvedBars l) /\ p == total (pendingBars l)
  /\ total (createdBars l) == r + p.
Proof.
  rewrite <- (rev_involutive l).
  induction (rev l) as [|x k IH]; [repeat split; reflexivity|].
  cbn [rev]. rewrite foldl_app.
  unfold createdBars, resolvedBars, pendingBars in *.
  rewrite !List.map_app. cbn [List.map]. rewrite !total_snoc.
  destruct (foldl _ (0, 0) (rev k)) as [res pen]. cbn [foldl].
  destruct IH as (H1 & H2 & H3). rewrite H3, <- H1, <- H2.
  repeat split; ring.
Qed.

Lemma summarize_totals (sortedRows : list row) :
  totalResolved (summarize sortedRows) == total (resolvedBars sortedRows)
  /\ totalCreated (summarize sortedRows)
     == total (resolvedBars sortedRows) + total (pendingBars sortedRows)
  /\ total (createdBars sortedRows)
     == total (resolvedBars sortedRows) + total (pendingBars sortedRows).
Proof.
  pose proof (summarize_fold sortedRows) as H. unfold summarize.
  destruct (foldl _ (0, 0) sortedRows) as [res pen]. simpl.
  destruct H as (H1 & H2 & H3). rewrite H3, H1, H2. repeat split; reflexivity.
Qed.

(** X27. The charts agree with the summary cards: the bars "Tickets
    Created" add up to [totalCreated], the bars "Tickets Resolved" to the
    resolved slice of the status pie, and the bars "Pending Tickets" to its
    pending slice. *)
Theorem bars_match_summary (sortedRows : list row) :
  total (createdBars sortedRows) == totalCreated (summarize sortedRows)
  /\ total (resolvedBars sortedRows) == fst (statusSlices (summarize sortedRows))
  /\ total (pendingBars sortedRows) == snd (statusSlices (summarize sortedRows)).
Proof.
  destruct (summarize_totals sortedRows) as (H1 & H2 & H3).
  unfold statusSlices. simpl. rewrite H1, H2, H3.
  repeat split; (reflexivity || ring).
Qed.

Lemma initBars_lookup (departments : list string) (d : string) :
  initBars departments !! d
  = if bool_decide (d ∈ departments) then Some zeroBars else None.
Proof.
  unfold initBars. rewrite <- (rev_involutive departments).
  induction (rev departments) as [|x l IH]; simpl; [by rewrite lookup_empty|].
  rewrite foldl_app. simpl.
  destruct (decide (x = d)) as [<-|Hne].
  - rewrite lookup_insert_eq. rewrite bool_decide_eq_true_2; [done|].
    apply elem_of_app. right. apply list_elem_of_here.
  - rewrite lookup_insert_ne by done. rewrite IH.
    repeat case_bool_decide; try done.
    + exfalso. apply H0. apply elem_of_app. by left.
    + exfalso. apply elem_of_app in H0 as [?|Hx]; [done|].
      apply list_elem_of_singleton in Hx. congruence.
Qed.

Lemma ofDepartment_snoc (d : string) (l : list row) (r : row) :
  ofDepartment d (l ++ [r])
  = ofDepartment d l ++ (if bool_decide (departmentName r = Some d) then [r] else []).
Proof.
  unfold ofDepartment. rewrite List.filter_app. simpl.
  by destruct (bool_decide (departmentName r = Some d)).
Qed.

Lemma bars_fold (departments : list string) (l : list row) (d : string) :
  match foldl bars_step (initBars departments) l !! d with
  | Some b =>
      d ∈ departments
      /\ created b == resolved b + pending b
      /\ resolved b
         == (if Js.truthy d then total (resolvedBars (ofDepartment d l)) else 0)
      /\ pending b
         == (if Js.truthy d then total (pendingBars (ofDepartment d l)) else 0)
  | None => d ∉ departments
  end.
Proof.
  rewrite <- (rev_involutive l).
  induction (rev l) as [|r k IH]; simpl.
  { rewrite initBars_lookup. case_bool_decide; [|done].
    split; [done|]. simpl. destruct (Js.truthy d); repeat split; reflexivity. }
  rewrite foldl_app. simpl.
  set (m := foldl bars_step (initBars departments) (rev k)) in *.
  rewrite ofDepartment_snoc.
  unfold bars_step.
  destruct (departmentName r) as [[|c0 r0]|] eqn:Edep.
  - destruct (m !! d) as [b|]; [|done].
    destruct IH as (Hin & H1 & H2 & H3). split; [done|]. split; [done|].
    case_bool_decide as Hd; [|by rewrite app_nil_r].
    injection Hd as <-. simpl in *. done.
  - set (dept := String c0 r0) in *.
    destruct (m !! dept) as [b0|] eqn:Em.
    + destruct (decide (dept = d)) as [Heq|Hne].
      * rewrite <- Heq in *. rewrite lookup_insert_eq. rewrite Em in IH.
        destruct IH as (Hin & H1 & H2 & H3). split; [done|].
        rewrite bool_decide_eq_true_2 by done.
        unfold resolvedBars, pendingBars in *. rewrite !List.map_app.
        cbn [List.map]. rewrite !total_snoc. simpl in *.
        rewrite H1, <- H2, <- H3. repeat split; ring.
      * rewrite lookup_insert_ne by done.
        destruct (m !! d) as [b|]; [|done].
        destruct IH as (Hin & H1 & H2 & H3). split; [done|]. split; [done|].
        rewrite bool_decide_eq_false_2 by congruence. by rewrite app_nil_r.
    + destruct (m !! d) as [b|] eqn:Ed; [|done].
      destruct IH as (Hin & H1 & H2 & H3). split; [done|]. split; [done|].
      rewrite bool_decide_eq_false_2; [by rewrite app_nil_r|].
      intros [= Heq]. congruence.
  - destruct (m !! d) as [b|]; [|done].
    destruct IH as (Hin & H1 & H2 & H3). split; [done|]. split; [done|].
    rewrite bool_decide_eq_false_2 by done. by rewrite app_nil_r.
Qed.

(** X28. In the department chart every configured department has its
    three bars; the created bar is the sum of the resolved and the pending
    bar, and these are the sums of [ticketsResolved] and [pendingCount]
    over the source rows that name the department.  Rows without a
    department name or with the name of no configured department add to no
    bar, and the department filter is not applied to this chart. *)
Theorem departmentWiseData_bars (departments : list string)
        (selectedAgents : gset string) (rows : list row) :
  List.map fst (departmentWiseData departments selectedAgents rows) = departments
  /\ Forall (fun '(d, b) =>
               created b == resolved b + pending b
               /\ resolved b
                  == (if Js.truthy d
                      then total (resolvedBars (ofDepartment d (source selectedAgents rows)))
                      else 0)
               /\ pending b
                  == (if Js.truthy d
                      then total (pendingBars (ofDepartment d (source selectedAgents rows)))
                      else 0))
            (departmentWiseData departments selectedAgents rows).
Proof.
  unfold departmentWiseData. split.
  - rewrite List.map_map. simpl. apply List.map_id.
  - rewrite Forall_map. apply Forall_forall. intros d Hd. simpl.
    pose proof (bars_fold departments (source selectedAgents rows) d) as H.
    destruct (foldl bars_step (initBars departments) (source selectedAgents rows) !! d)
      as [b|]; [|done].
    simpl. by destruct H as (_ & H).
Qed.

End ChartsFacts.

(** ** Paged download of the archived tickets *)

Module FetchFacts.
Import Fetch.

Lemma archivedLoop_fuel (api : Z -> list Ticket.ticket) (fuel1 : nat) :
  forall fuel2 from acc,
    4900 <= from + 100 * Z.of_nat fuel1 -> 4900 <= from + 100 * Z.of_nat fuel2 ->
    archivedLoop api fuel1 from acc = archivedLoop api fuel2 from acc.
Proof.
  induction fuel1 as [|f1 IH]; intros fuel2 from acc H1 H2.
  - destruct fuel2 as [|f2]; [done|]. simpl.
    rewrite (proj2 (Z.leb_le 4900 from)) by lia. by rewrite orb_true_r.
  - simpl. destruct fuel2 as [|f2]; simpl.
    + rewrite (proj2 (Z.leb_le 4900 from)) by lia. by rewrite orb_true_r.
    + destruct (_ || _); [done|]. apply IH; unfold limit; lia.
Qed.

Lemma archivedLoop_batches (api : Z -> list Ticket.ticket) (fuel : nat) :
  forall k acc,
    0 <= k ->
    exists n, 1 <= n <= Z.of_nat fuel + 1
              /\ (4900 <= limit * (k + n - 1)
                  \/ Z.of_nat (length (api (limit * (k + n - 1)))) < limit
                  \/ n = Z.of_nat fuel + 1)
              /\ Forall (fun i => limit <= Z.of_nat (length (api (limit * i))))
                        (seqZ k (n - 1))
              /\ archivedLoop api fuel (limit * k) acc
                 = acc ++ concat (List.map (fun i => api (limit * i)) (seqZ k n)).
Proof.
  induction fuel as [|f IH]; intros k acc Hk.
  - exists 1. split; [lia|]. split; [lia|]. split; [constructor|]. simpl.
    rewrite app_nil_r. by destruct (_ || _).
  - simpl. destruct (_ || _) eqn:E.
    + exists 1. split; [lia|]. split; [|split; [constructor|]].
      * apply orb_prop in E as [E|E]; [apply Z.ltb_lt in E|apply Z.leb_le in E];
          replace (k + 1 - 1) with k by lia; lia.
      * simpl. by rewrite app_nil_r.
    + apply orb_false_elim in E as [E1 E2]. apply Z.ltb_ge in E1.
      destruct (IH (k + 1) (acc ++ api (limit * k)) ltac:(lia))
        as (n & Hn & Hstop & Hfull & Heq).
      exists (n + 1). split; [lia|]. split; [|split].
      * replace (k + (n + 1) - 1) with (k + 1 + n - 1) by lia.
        destruct Hstop as [?|[?|?]]; lia.
      * replace (n + 1 - 1) with (Z.succ (n - 1)) by lia.
        rewrite (seqZ_cons k) by lia. constructor; [done|].
        replace (Z.succ k) with (k + 1) by lia.
        replace (Z.pred (Z.succ (n - 1))) with (n - 1) by lia. done.
      * replace (limit * k + limit) with (limit * (k + 1)) by (unfold limit; lia).
        rewrite Heq, <- app_assoc. f_equal.
        rewrite (seqZ_cons k (n + 1)) by lia. simpl.
        replace (Z.succ k) with (k + 1) by lia.
        replace (Z.pred (n + 1)) with n by lia. done.
Qed.

(** X29. The download of the archived tickets of a department needs at
    most fifty requests, whatever the helpdesk answers: any fuel from 49 on
    gives the same result as 49.  The result is the concatenation of the batches
    of the first [n] offsets 0, 100, ..., where the batches before the last
    one are full and the last one is either short or the fiftieth: tickets
    beyond the fiftieth batch are never fetched. *)
Theorem fetchAllArchivedTickets_at_most_fifty (api : Z -> list Ticket.ticket) :
  (forall extra : nat,
     archivedLoop api (49 + extra) 0 [] = fetchAllArchivedTickets api)
  /\ exists n,
       1 <= n <= 50
       /\ fetchAllArchivedTickets api = batches api n
       /\ Forall (fun i => 100 <= Z.of_nat (length (api (limit * i)))) (seqZ 0 (n - 1))
       /\ (n = 50 \/ Z.of_nat (length (api (limit * (n - 1)))) < 100).
Proof.
  unfold fetchAllArchivedTickets. split.
  - intros extra. apply archivedLoop_fuel; lia.
  - destruct (archivedLoop_batches api 49 0 [] ltac:(lia))
      as (n & Hn & Hstop & Hfull & Heq).
    exists n. split; [lia|]. split; [exact Heq|]. split; [exact Hfull|].
    simpl in Hstop. unfold limit in Hstop at 1 3. simpl in Hstop.
    destruct Hstop as [H|[H|H]]; [left; lia | by right | left; lia].
Qed.

End FetchFacts.

(** ** Grouped pending rows *)

Module PendingTableFacts.
Import PendingTable.

Lemma rowsOf_snoc (agent : string) (l : list pendingRow) (r : pendingRow) :
  rowsOf agent (l ++ [r])
  = rowsOf agent l ++ (if String.eqb (name r) agent then [r] else []).
Proof.
  unfold rowsOf. rewrite List.filter_app. simpl.
  by destruct (String.eqb (name r) agent).
Qed.

Lemma push_groups (r : pendingRow) (ks : list string) (F : string -> list pendingRow) :
  NoDup ks ->
  push r (List.map (fun k => (k, F k)) ks)
  = if bool_decide (name r ∈ ks)
    then List.map (fun k => (k, F k ++ (if String.eqb (name r) k then [r] else []))) ks
    else List.map (fun k => (k, F k)) ks ++ [(name r, [r])].
Proof.
  induction ks as [|k ks IH]; intros Hnd; simpl; [done|].
  apply NoDup_cons in Hnd as [Hk Hnd].
  destruct (String.eqb_spec k (name r)) as [->|Hne].
  - rewrite bool_decide_eq_true_2 by apply list_elem_of_here.
    rewrite String.eqb_refl. f_equal.
    apply List.map_ext_in. intros k' Hk'. apply list_elem_of_In in Hk'.
    destruct (String.eqb_spec (name r) k') as [<-|]; [done|].
    by rewrite app_nil_r.
  - rewrite IH by done.
    assert (Hne' : String.eqb (name r) k = false) by (apply String.eqb_neq; congruence).
    rewrite Hne', app_nil_r.
    case_bool_decide as Hin.
    + rewrite bool_decide_eq_true_2 by (by apply list_elem_of_further). done.
    + rewrite bool_decide_eq_false_2; [done|].
      intros [?|?]%elem_of_cons; [congruence|done].
Qed.

Lemma firstNames_named (rows : list pendingRow) (k : string) :
  k ∈ firstNames rows -> exists r, r ∈ rows /\ name r = k.
Proof.
  unfold firstNames. rewrite <- (rev_involutive rows).
  induction (rev rows) as [|r l IH]; simpl.
  - intros H. by apply elem_of_nil in H.
  - rewrite foldl_app. simpl. case_bool_decide as Hin.
    + intros H. destruct (IH H) as (x & Hx & Hn). exists x. split; [set_solver|done].
    + intros [H| ->%list_elem_of_singleton]%elem_of_app.
      * destruct (IH H) as (x & Hx & Hn). exists x. split; [set_solver|done].
      * exists r. split; [set_solver|done].
Qed.

Lemma firstNames_spec (rows : list pendingRow) :
  NoDup (firstNames rows) /\ forall r, r ∈ rows -> name r ∈ firstNames rows.
Proof.
  unfold firstNames. rewrite <- (rev_involutive rows).
  induction (rev rows) as [|r l [IH1 IH2]]; simpl.
  - split; [constructor|]. intros r Hr. by apply elem_of_nil in Hr.
  - rewrite foldl_app. simpl. case_bool_decide as Hin.
    + split; [done|]. intros x [Hx| ->%list_elem_of_singleton]%elem_of_app; auto.
    + split.
      * apply NoDup_app. split; [done|]. split; [|apply NoDup_singleton].
        intros x Hx ->%list_elem_of_singleton. done.
      * intros x [Hx| ->%list_elem_of_singleton]%elem_of_app;
          apply elem_of_app; [left; auto | right; apply list_elem_of_here].
Qed.

(** The groups are the rows of each agent, in the order in which the
    agents first occur. *)
Lemma group_rowsOf (rows : list pendingRow) :
  group rows = List.map (fun k => (k, rowsOf k rows)) (firstNames rows).
Proof.
  unfold group. rewrite <- (rev_involutive rows).
  induction (rev rows) as [|r l IH]; simpl; [done|].
  rewrite foldl_app. simpl. rewrite IH.
  destruct (firstNames_spec (rev l)) as [Hnd Hall].
  rewrite push_groups by done.
  assert (Hf : firstNames (rev l ++ [r])
               = if bool_decide (name r ∈ firstNames (rev l)) then firstNames (rev l)
                 else firstNames (rev l) ++ [name r]).
  { unfold firstNames. by rewrite foldl_app. }
  rewrite Hf. clear Hf.
  case_bool_decide as Hin.
  - apply List.map_ext. intros k. by rewrite rowsOf_snoc.
  - rewrite List.map_app. simpl. f_equal.
    + apply List.map_ext_in. intros k Hk. apply list_elem_of_In in Hk.
      rewrite rowsOf_snoc.
      destruct (String.eqb_spec (name r) k) as [<-|]; [done|]. by rewrite app_nil_r.
    + rewrite rowsOf_snoc, String.eqb_refl.
      unfold rowsOf. rewrite AgingViewFacts.filter_none; [done|].
      intros x Hx. destruct (String.eqb_spec (name x) (name r)) as [E|]; [|done].
      exfalso. apply Hin. rewrite <- E. by apply Hall.
Qed.

Lemma annotate_rows (rs : list pendingRow) : List.map row (annotate rs) = rs.
Proof.
  unfold annotate. generalize (length rs). intros n.
  change (List.map row ?l) with (row <$> l). rewrite fmap_imap. simpl.
  induction rs as [|r rs IH]; simpl; [done|]. f_equal. exact IH.
Qed.

Lemma annotate_marks (rs : list pendingRow) :
  List.map isFirst (annotate rs) = marks rs.
Proof.
  unfold annotate, marks. generalize (length rs). intros n.
  destruct rs as [|r rs]; simpl; [done|]. f_equal.
  change (List.map isFirst ?l) with (isFirst <$> l). rewrite fmap_imap. simpl.
  induction rs as [|x rs IH]; simpl; [done|]. f_equal.
  rewrite <- IH. apply imap_ext. done.
Qed.

Lemma annotate_of (agent k : string) (rows : list pendingRow) :
  List.filter (ofAgent agent) (annotate (rowsOf k rows))
  = if String.eqb k agent then annotate (rowsOf k rows) else [].
Proof.
  assert (Hn : forall g, g ∈ annotate (rowsOf k rows) -> name (row g) = k).
  { intros g Hg. unfold annotate in Hg.
    apply elem_of_lookup_imap in Hg as (i & x & -> & Hx). simpl.
    apply list_elem_of_lookup_2 in Hx. unfold rowsOf in Hx.
    apply Common.elem_of_filter_bool in Hx as [_ Hx]. by apply String.eqb_eq in Hx. }
  revert Hn. generalize (annotate (rowsOf k rows)). intros l Hn.
  destruct (String.eqb_spec k agent) as [->|Hne].
  - induction l as [|g l IH]; simpl; [done|].
    unfold ofAgent at 1. rewrite (Hn g) by apply list_elem_of_here.
    rewrite String.eqb_refl. f_equal. apply IH.
    intros g' Hg'. apply Hn. by apply list_elem_of_further.
  - apply AgingViewFacts.filter_none. intros g Hg. unfold ofAgent.
    rewrite (Hn g Hg). by apply String.eqb_neq.
Qed.

Lemma marks_of_blocks (agent : string) (rows : list pendingRow) (ks : list string) :
  NoDup ks ->
  List.map isFirst
    (List.filter (ofAgent agent) (flat_map (fun k => annotate (rowsOf k rows)) ks))
  = if bool_decide (agent ∈ ks) then marks (rowsOf agent rows) else [].
Proof.
  induction ks as [|k ks IH]; intros Hnd; simpl; [done|].
  apply NoDup_cons in Hnd as [Hk Hnd].
  rewrite List.filter_app, List.map_app, annotate_of, IH by done.
  destruct (String.eqb_spec k agent) as [->|Hne].
  - rewrite (bool_decide_eq_false_2 _ Hk), app_nil_r.
    rewrite bool_decide_eq_true_2 by apply list_elem_of_here. apply annotate_marks.
  - simpl. case_bool_decide as Hin.
    + rewrite bool_decide_eq_true_2; [done | by apply list_elem_of_further].
    + rewrite bool_decide_eq_false_2; [done|].
      intros [?|?]%elem_of_cons; [congruence|done].
Qed.

(** X30. Grouping the pending tickets for the row spans of the table
    keeps every row: the grouped rows are the rows of each agent, in their
    order, one agent after the other in the order in which the agents first
    occur.  Every grouped row carries as [totalTickets] and as row span the
    number of rows of its agent.  Among the grouped rows of an agent the
    first one is marked as the first and no other is. *)
Theorem grouped_rows_by_agent (pendingTableRows : list pendingRow) :
  List.map row (groupedPendingRows pendingTableRows)
  = flat_map (fun agent => rowsOf agent pendingTableRows) (firstNames pendingTableRows)
  /\ Forall (fun g =>
               totalTickets g = length (rowsOf (name (row g)) pendingTableRows)
               /\ rowSpan g = totalTickets g)
            (groupedPendingRows pendingTableRows)
  /\ (forall agent,
        List.map isFirst (List.filter (ofAgent agent) (groupedPendingRows pendingTableRows))
        = marks (rowsOf agent pendingTableRows)).
Proof.
  unfold groupedPendingRows. rewrite group_rowsOf.
  rewrite flat_map_concat_map, List.map_map, <- flat_map_concat_map. simpl.
  split; [|split].
  - generalize (firstNames pendingTableRows). intros ks.
    induction ks as [|k ks IH]; simpl; [done|].
    by rewrite List.map_app, annotate_rows, IH.
  - generalize (firstNames pendingTableRows). intros ks.
    induction ks as [|k ks IH]; simpl; [done|].
    apply Forall_app. split; [|done].
    apply Forall_forall. intros g Hg. unfold annotate in Hg.
    apply elem_of_lookup_imap in Hg as (i & x & -> & Hx). simpl.
    apply list_elem_of_lookup_2 in Hx. unfold rowsOf in Hx at 1.
    apply Common.elem_of_filter_bool in Hx as [_ Hx]. apply String.eqb_eq in Hx.
    by rewrite Hx.
  - intros agent. destruct (firstNames_spec pendingTableRows) as [Hnd Hall].
    rewrite marks_of_blocks by done.
    case_bool_decide as Hin; [done|].
    unfold rowsOf. rewrite AgingViewFacts.filter_none; [done|].
    intros r Hr. destruct (String.eqb_spec (name r) agent) as [E|]; [|done].
    exfalso. apply Hin. rewrite <- E. by apply Hall.
Qed.

End PendingTableFacts.
